(** * ChatFlow: the socket server, the room model and the typing indicator

    A shallow embedding of the chat server of this repository
    ([server.js], [models/Room.js], [models/Message.js]) and of the typing
    indicator of the browser client ([script.js]), with the properties of
    the session / presence / broadcast engine stated over it.

    Conventions of the embedding.
    - A JS string is a [string]; one [ascii] stands for one UTF-16 code
      unit below 256.  A field that is absent from a payload and a field
      that is the empty string are both falsy in the source; both are the
      empty string here.  Fields with a destructuring default
      ([roomId = 'general'], [type = 'text']) are [option string].
    - The payload of an event is an object, or it is [undefined] or
      [null] (an event emitted without argument); the second case is a
      payload [None], which a destructuring pattern cannot take apart.
    - [new Date()] is a clock value [now : nat] handed to each handler.
    - A handler runs to completion; the store calls it awaits either
      succeed or reject, as an oracle [fails : StoreOp -> bool] says.
    - Socket.IO and Mongoose are libraries outside the repository; the
      part of their behaviour that the handlers rely on is modelled in
      the modules [SocketIO] and [Store].
    - The [_id] of a user document is an ObjectId that the store makes
      up; no handler reads it and no response carries it.  The model
      keeps none, and no [userId] string is the [_id] of a user
      document.  The message schema declares [sender] as a [String] that
      refers to [User], so [populate('sender')] looks the [userId] up
      among the [_id]s: it finds nobody. *)

From Stdlib Require Import Ascii String.
From stdpp Require Import base option list strings gmap fin_sets pretty sorting.

Open Scope string_scope.
Open Scope list_scope.
Open Scope nat_scope.

(** ** JS strings *)

Module JsString.

(** [String.prototype.trim] strips white space and line terminators.
    Below code unit 256 these are TAB, LF, VT, FF, CR, SPACE and
    NO-BREAK SPACE. *)
Definition is_space (c : ascii) : bool :=
  let n := nat_of_ascii c in
  bool_decide (n ∈ [9; 10; 11; 12; 13; 32; 160]).

Fixpoint trim_start (s : string) : string :=
  match s with
  | EmptyString => EmptyString
  | String c s' => if is_space c then trim_start s' else s
  end.

(** Strips the trailing white space: a character is kept when it is not
    white space or when something is kept after it. *)
Fixpoint trim_end (s : string) : string :=
  match s with
  | EmptyString => EmptyString
  | String c s' =>
      match trim_end s' with
      | EmptyString => if is_space c then EmptyString else String c EmptyString
      | t => String c t
      end
  end.

Definition trim (s : string) : string := trim_end (trim_start s).

(** [s.length] *)
Definition length (s : string) : nat := String.length s.

(** [!s] for a string: only the empty string is falsy. *)
Definition falsy (s : string) : bool :=
  match s with EmptyString => true | _ => false end.

(** Every character of [s] is white space. *)
Fixpoint all_space (s : string) : bool :=
  match s with
  | EmptyString => true
  | String c s' => is_space c && all_space s'
  end.

(** [n] copies of the character [c]. *)
Fixpoint replicate (n : nat) (c : ascii) : string :=
  match n with
  | O => EmptyString
  | S n' => String c (replicate n' c)
  end.

End JsString.

(** ** JS [Map]: iteration follows insertion order *)

Module JsMap.
Section Operations.
Context {V : Type}.

(** [m.get(k)] *)
Fixpoint get (k : string) (m : list (string * V)) : option V :=
  match m with
  | [] => None
  | (k', v) :: m' => if decide (k = k') then Some v else get k m'
  end.

(** [m.set(k, v)]: an existing key keeps its position, a new key goes
    to the end. *)
Fixpoint set (k : string) (v : V) (m : list (string * V)) : list (string * V) :=
  match m with
  | [] => [(k, v)]
  | (k', v') :: m' =>
      if decide (k = k') then (k, v) :: m' else (k', v') :: set k v m'
  end.

(** [m.delete(k)] *)
Fixpoint delete (k : string) (m : list (string * V)) : list (string * V) :=
  match m with
  | [] => []
  | (k', v') :: m' =>
      if decide (k = k') then delete k m' else (k', v') :: delete k m'
  end.

(** [Array.from(m.values())] *)
Definition values (m : list (string * V)) : list V := m.*2.

(** [Array.from(m.entries()).find(p)] *)
Fixpoint find (p : string * V → bool) (m : list (string * V)) : option (string * V) :=
  match m with
  | [] => None
  | e :: m' => if p e then Some e else find p m'
  end.
End Operations.
End JsMap.

(** ** Data model *)

(** The value stored in [activeUsers] for a socket. *)
Record Session := mkSession {
  s_userId : string;
  s_username : string;
  s_roomId : string;
  s_joinedAt : nat;
}.

(** The fields of a [User] document that the socket server writes. *)
Record UserDoc := mkUserDoc {
  u_username : string;
  u_isOnline : bool;
  u_lastSeen : nat;
  u_socketId : option string;
}.

(** The fields of a [Room] document that the room methods and the join
    handler read or write ([models/Room.js]). *)
Record RoomDoc := mkRoomDoc {
  r_roomId : string;
  r_name : string;
  r_description : string;
  r_createdBy : string;
  r_participants : list string;
  r_admins : list string;
  r_maxParticipants : nat;
  r_lastActivity : nat;
}.

(** A [Message] document ([models/Message.js]). *)
Record MessageDoc := mkMessageDoc {
  m_id : nat;
  m_content : string;
  m_sender : string;
  m_roomId : option string;
  m_recipient : option string;
  m_type : string;
  m_timestamp : nat;
}.

(** An entry of the [onlineUsers] array (the avatar is a constant). *)
Record OnlineUser := mkOnlineUser {
  ou_userId : string;
  ou_username : string;
  ou_joinedAt : nat;
}.

(** Payload of [join-room]. *)
Record JoinData := mkJoinData {
  jd_userId : string;
  jd_username : string;
  jd_roomId : option string;
}.

(** Payload of [send-message]. *)
Record MessageData := mkMessageData {
  md_content : string;
  md_type : option string;
}.

(** Payload of [private-message]. *)
Record PrivateData := mkPrivateData {
  pd_recipientUserId : string;
  pd_content : string;
}.

(** The events the server emits. *)
Inductive Event :=
| ev_error (message : string)
| ev_recent_messages (msgs : list (MessageDoc * option string))
| ev_user_joined (userId username message : string)
| ev_users_update (onlineUsers : list OnlineUser)
| ev_join_success (roomId roomName : string) (onlineUsers : list OnlineUser)
| ev_receive_message (messageId : nat) (content username userId : string)
                  (timestamp : nat) (type : string)
| ev_user_typing (userId username : string) (typing : bool)
| ev_private_message (messageId : nat) (content username userId : string)
                  (timestamp : nat)
| ev_message_sent (messageId : nat)
| ev_user_left (userId username message : string).

(** One [emit]: the event and the sockets it is delivered to. *)
Record Emit := mkEmit {
  to : gset string;
  event : Event;
}.

(** The store calls a handler awaits; each can reject. *)
Inductive StoreOp :=
| OpUserUpsert        (* User.findOneAndUpdate, upsert, in join-room *)
| OpRoomFind          (* Room.findOne *)
| OpRoomCreate        (* room.save() of a new room *)
| OpRoomSave          (* room.save() of a room that exists *)
| OpMessageFind       (* Message.find(...).lean() *)
| OpMessageSave       (* message.save() *)
| OpPopulate          (* message.populate('sender', ...) *)
| OpUserOffline.      (* User.findOneAndUpdate in disconnect *)

(** No store call rejects. *)
Definition no_failure : StoreOp → bool := λ _, false.

(** The whole state: the [activeUsers] map of [server.js], the room
    membership kept by Socket.IO, and the three collections.  (The map
    [activeRooms] of [server.js] is never read or written.) *)
Record Server := mkServer {
  activeUsers : list (string * Session);
  sids : gmap string (gset string);
  users : gmap string UserDoc;
  rooms : gmap string RoomDoc;
  messages : list MessageDoc;
}.

Definition initial : Server :=
  {| activeUsers := []; sids := ∅; users := ∅; rooms := ∅; messages := [] |}.

(** ** Socket.IO rooms *)

(** What the handlers use of Socket.IO's in-memory adapter: [sids] maps a
    connected socket to the rooms it is in.  A socket is put in the room
    named by its own id when it connects, [socket.join] adds a room and
    never removes one, and a closing socket leaves all its rooms before
    its [disconnect] listeners run. *)
Module SocketIO.

(** The sockets an emit to room [r] reaches. *)
Definition members (r : string) (a : gmap string (gset string)) : gset string :=
  dom (filter (λ kv, r ∈ kv.2) a).

Definition connect (sid : string) (a : gmap string (gset string))
  : gmap string (gset string) :=
  <[sid := {[sid]}]> a.

Definition join (sid r : string) (a : gmap string (gset string))
  : gmap string (gset string) :=
  <[sid := {[r]} ∪ default ∅ (a !! sid)]> a.

Definition leaveAll (sid : string) (a : gmap string (gset string))
  : gmap string (gset string) :=
  delete sid a.

Definition connected (sid : string) (a : gmap string (gset string)) : Prop :=
  is_Some (a !! sid).

End SocketIO.

(** ** Handlers as computations *)

(** A handler step reads and writes the state, emits events, and either
    returns a value or throws ([None]); what it wrote and emitted before
    throwing stays. *)
Definition Async (A : Type) : Type := Server → option A * Server * list Emit.

Definition ret {A} (a : A) : Async A := λ s, (Some a, s, []).

Definition throw {A} : Async A := λ s, (None, s, []).

Definition bind {A B} (m : Async A) (f : A → Async B) : Async B := λ s,
  match m s with
  | (Some a, s', o) =>
      match f a s' with (r, s'', o') => (r, s'', o ++ o') end
  | (None, s', o) => (None, s', o)
  end.

(** [try { m } catch (error) { h }] *)
Definition try_catch {A} (m : Async A) (h : Async A) : Async A := λ s,
  match m s with
  | (Some a, s', o) => (Some a, s', o)
  | (None, s', o) =>
      match h s' with (r, s'', o') => (r, s'', o ++ o') end
  end.

(** The state and the emits a handler leaves behind. *)
Definition run {A} (m : Async A) (s : Server) : Server * list Emit :=
  match m s with (_, s', o) => (s', o) end.

#[global] Instance Async_ret : MRet Async := @ret.
#[global] Instance Async_bind : MBind Async := λ A B f m, bind m f.

Definition get_state : Async Server := λ s, (Some s, s, []).

Definition modify (f : Server → Server) : Async unit := λ s, (Some (), f s, []).

(** [await] of a store call: rejects when the oracle says so. *)
Definition await (fails : StoreOp → bool) (op : StoreOp) : Async unit :=
  if fails op then throw else ret ().

(** [socket.emit(ev)] *)
Definition socket_emit (sid : string) (ev : Event) : Async unit := λ s,
  (Some (), s, [mkEmit {[sid]} ev]).

(** [io.to(r).emit(ev)] *)
Definition io_to_emit (r : string) (ev : Event) : Async unit := λ s,
  (Some (), s, [mkEmit (SocketIO.members r (sids s)) ev]).

(** [socket.to(r).emit(ev)]: the room without the socket itself *)
Definition socket_to_emit (sid r : string) (ev : Event) : Async unit := λ s,
  (Some (), s, [mkEmit (SocketIO.members r (sids s) ∖ {[sid]}) ev]).

(** [socket.join(r)] *)
Definition socket_join (sid r : string) : Async unit :=
  modify (λ s, {| activeUsers := activeUsers s;
                  sids := SocketIO.join sid r (sids s);
                  users := users s; rooms := rooms s;
                  messages := messages s |}).

(** [activeUsers.get(sid)] *)
Definition activeUsers_get (sid : string) : Async (option Session) :=
  s ← get_state; ret (JsMap.get sid (activeUsers s)).

(** [activeUsers.set(sid, v)] *)
Definition activeUsers_set (sid : string) (v : Session) : Async unit :=
  modify (λ s, {| activeUsers := JsMap.set sid v (activeUsers s);
                  sids := sids s; users := users s; rooms := rooms s;
                  messages := messages s |}).

(** [activeUsers.delete(sid)] *)
Definition activeUsers_delete (sid : string) : Async unit :=
  modify (λ s, {| activeUsers := JsMap.delete sid (activeUsers s);
                  sids := sids s; users := users s; rooms := rooms s;
                  messages := messages s |}).

(** [Array.from(activeUsers.values()).filter(user => user.roomId === roomId).map(...)] *)
Definition onlineUsers_of (roomId : string) (m : list (string * Session))
  : list OnlineUser :=
  (λ user, mkOnlineUser (s_userId user) (s_username user) (s_joinedAt user))
    <$> filter (λ user, s_roomId user = roomId) (JsMap.values m).

(** [l.includes(x)] *)
Definition includes (x : string) (l : list string) : bool := bool_decide (x ∈ l).

(** ** The room model ([models/Room.js]) *)

Module Room.

(** [new Room({roomId, name, description, createdBy})] with the schema
    defaults; the schema trims [roomId] and [name]. *)
Definition new (roomId name description createdBy : string) (now : nat) : RoomDoc :=
  {| r_roomId := JsString.trim roomId; r_name := JsString.trim name;
     r_description := description;
     r_createdBy := createdBy; r_participants := []; r_admins := [];
     r_maxParticipants := 100; r_lastActivity := now |}.

(** [roomSchema.pre('save')]: the creator is put among the participants
    and the admins. *)
Definition pre_save (room : RoomDoc) : RoomDoc :=
  let participants :=
    if includes (r_createdBy room) (r_participants room)
    then r_participants room
    else r_participants room ++ [r_createdBy room] in
  let admins :=
    if includes (r_createdBy room) (r_admins room)
    then r_admins room
    else r_admins room ++ [r_createdBy room] in
  {| r_roomId := r_roomId room; r_name := r_name room;
     r_description := r_description room; r_createdBy := r_createdBy room;
     r_participants := participants; r_admins := admins;
     r_maxParticipants := r_maxParticipants room;
     r_lastActivity := r_lastActivity room |}.

Definition with_participants (l : list string) (room : RoomDoc) : RoomDoc :=
  {| r_roomId := r_roomId room; r_name := r_name room;
     r_description := r_description room; r_createdBy := r_createdBy room;
     r_participants := l; r_admins := r_admins room;
     r_maxParticipants := r_maxParticipants room;
     r_lastActivity := r_lastActivity room |}.

Definition with_admins (l : list string) (room : RoomDoc) : RoomDoc :=
  {| r_roomId := r_roomId room; r_name := r_name room;
     r_description := r_description room; r_createdBy := r_createdBy room;
     r_participants := r_participants room; r_admins := l;
     r_maxParticipants := r_maxParticipants room;
     r_lastActivity := r_lastActivity room |}.

Definition with_lastActivity (t : nat) (room : RoomDoc) : RoomDoc :=
  {| r_roomId := r_roomId room; r_name := r_name room;
     r_description := r_description room; r_createdBy := r_createdBy room;
     r_participants := r_participants room; r_admins := r_admins room;
     r_maxParticipants := r_maxParticipants room;
     r_lastActivity := t |}.

(** [room.save()]: the hook runs, then the document is written under
    its [roomId]. *)
Definition save (fails : StoreOp → bool) (op : StoreOp) (room : RoomDoc)
  : Async RoomDoc :=
  await fails op;;
  modify (λ s, {| activeUsers := activeUsers s; sids := sids s;
                  users := users s;
                  rooms := <[r_roomId room := pre_save room]> (rooms s);
                  messages := messages s |});;
  ret (pre_save room).

(** [Room.findOne({ roomId })] *)
Definition findOne (fails : StoreOp → bool) (roomId : string)
  : Async (option RoomDoc) :=
  await fails OpRoomFind;;
  s ← get_state;
  ret (rooms s !! roomId).

(** [roomSchema.methods.addParticipant] *)
Definition addParticipant (fails : StoreOp → bool) (now : nat)
    (userId : string) (room : RoomDoc) : Async RoomDoc :=
  if negb (includes userId (r_participants room)) then
    if r_maxParticipants room <=? length (r_participants room) then throw
    else
      save fails OpRoomSave
        (with_lastActivity now
           (with_participants (r_participants room ++ [userId]) room))
  else ret room.

(** [roomSchema.methods.removeParticipant] *)
Definition removeParticipant (fails : StoreOp → bool) (now : nat)
    (userId : string) (room : RoomDoc) : Async RoomDoc :=
  save fails OpRoomSave
    (with_lastActivity now
       (with_admins (filter (λ id, id ≠ userId) (r_admins room))
          (with_participants
             (filter (λ id, id ≠ userId) (r_participants room)) room))).

(** [roomSchema.methods.addAdmin] *)
Definition addAdmin (fails : StoreOp → bool) (userId : string)
    (room : RoomDoc) : Async RoomDoc :=
  if negb (includes userId (r_participants room)) then throw
  else if negb (includes userId (r_admins room)) then
    save fails OpRoomSave (with_admins (r_admins room ++ [userId]) room)
  else ret room.

(** [roomSchema.methods.removeAdmin] *)
Definition removeAdmin (fails : StoreOp → bool) (userId : string)
    (room : RoomDoc) : Async RoomDoc :=
  if bool_decide (userId = r_createdBy room) then throw
  else
    save fails OpRoomSave
      (with_admins (filter (λ id, id ≠ userId) (r_admins room)) room).

(** The invariant of a room document: the creator is a participant and
    an admin, and the participants fit the limit. *)
Definition creator_ok (room : RoomDoc) : Prop :=
  r_createdBy room ∈ r_participants room ∧ r_createdBy room ∈ r_admins room.

Definition within_limit (room : RoomDoc) : Prop :=
  length (r_participants room) ≤ r_maxParticipants room.

Definition invariant (room : RoomDoc) : Prop :=
  creator_ok room ∧ within_limit room.

End Room.

(** ** The message model ([models/Message.js]) *)

(** The validators and the hook that [save()] runs, and the methods of
    a message that work on the arrays of a document; each method then
    saves the document. *)
Module Message.

(** [!this.recipient], [!this.roomId]: the field is missing or empty. *)
Definition absent (o : option string) : bool :=
  match o with
  | None => true
  | Some v => JsString.falsy v
  end.

(** The values of [type] that the schema lists. *)
Definition types : list string := ["text"; "image"; "file"; "system"; "private"].

(** The validators of the schema, which [save()] runs before the hooks:
    [content] and [sender] are required (a required string is not
    empty), [content] has at most 1000 characters, [recipient] is
    required of a private message and [roomId] of any other, and [type]
    is one of the listed values. *)
Definition valid (m : MessageDoc) : bool :=
  negb (JsString.falsy (m_content m))
  && (JsString.length (m_content m) <=? 1000)
  && negb (JsString.falsy (m_sender m))
  && (if bool_decide (m_type m = "private")
      then negb (absent (m_recipient m))
      else negb (absent (m_roomId m)))
  && bool_decide (m_type m ∈ types).

(** [messageSchema.pre('save')]: the error it passes to [next], if any. *)
Definition pre_save (m : MessageDoc) : option string :=
  if bool_decide (m_type m = "text")
     && (JsString.falsy (m_content m)
         || (JsString.length (JsString.trim (m_content m)) =? 0)) then
    Some "Text messages must have content"
  else if bool_decide (m_type m = "private") && absent (m_recipient m) then
    Some "Private messages must have a recipient"
  else if negb (bool_decide (m_type m = "private")) && absent (m_roomId m) then
    Some "Room messages must have a roomId"
  else None.

(** An entry of [metadata.reactions]. *)
Record Reaction := mkReaction {
  rc_userId : string;
  rc_emoji : string;
  rc_createdAt : nat;
}.

(** The user and the emoji of a reaction. *)
Definition reaction_key (reaction : Reaction) : string * string :=
  (rc_userId reaction, rc_emoji reaction).

(** The test of [addReaction] and [removeReaction]. *)
Definition same_reaction (userId emoji : string) (reaction : Reaction) : bool :=
  bool_decide (rc_userId reaction = userId)
  && bool_decide (rc_emoji reaction = emoji).

(** [messageSchema.methods.addReaction]: the array it leaves. *)
Definition addReaction (userId emoji : string) (now : nat)
    (reactions : list Reaction) : list Reaction :=
  match List.find (same_reaction userId emoji) reactions with
  | Some _ => reactions
  | None => reactions ++ [mkReaction userId emoji now]
  end.

(** [messageSchema.methods.removeReaction]: the array it leaves. *)
Definition removeReaction (userId emoji : string) (reactions : list Reaction)
  : list Reaction :=
  List.filter (λ reaction, negb (same_reaction userId emoji reaction)) reactions.

(** What a property of the object [counts] holds: a number, or a value
    that is not a number (a method of [Object.prototype], or the string
    that adding 1 to such a method or to a string gives). *)
Inductive JsValue :=
| VNum (n : nat)
| VOther.

(** The property names that an object literal inherits from
    [Object.prototype]. *)
Definition Object_prototype : list string :=
  ["constructor"; "__defineGetter__"; "__defineSetter__"; "hasOwnProperty";
   "__lookupGetter__"; "__lookupSetter__"; "isPrototypeOf";
   "propertyIsEnumerable"; "toString"; "valueOf"; "__proto__";
   "toLocaleString"].

(** [counts[key]]: the own property, or else the inherited one;
    [None] is [undefined]. *)
Definition get_prop (counts : gmap string JsValue) (key : string)
  : option JsValue :=
  match counts !! key with
  | Some v => Some v
  | None => if bool_decide (key ∈ Object_prototype) then Some VOther else None
  end.

(** [(v || 0) + 1]: [undefined] and [0] are falsy; a value that is not a
    number is truthy, and adding 1 to it gives a string. *)
Definition plus_one (v : option JsValue) : JsValue :=
  match v with
  | None => VNum 1
  | Some (VNum n) => VNum (n + 1)
  | Some VOther => VOther
  end.

(** [counts[key] = v] for a [v] that is a number or a string: an own
    property is written, except that the setter [__proto__] ignores such
    a value. *)
Definition set_prop (key : string) (v : JsValue) (counts : gmap string JsValue)
  : gmap string JsValue :=
  if bool_decide (key = "__proto__") then counts else <[key := v]> counts.

(** The virtual [reactionCounts]: the own properties of the object
    [counts] it returns. *)
Definition reactionCounts (reactions : list Reaction) : gmap string JsValue :=
  foldl (λ counts reaction,
           set_prop (rc_emoji reaction)
             (plus_one (get_prop counts (rc_emoji reaction))) counts)
    ∅ reactions.

(** What [counts[emoji]] holds after [n] reactions with that emoji, from
    what it held before. *)
Definition counted (n : nat) (v : option JsValue) : JsValue :=
  match v with
  | None => VNum n
  | Some (VNum k) => VNum (k + n)
  | Some VOther => VOther
  end.

(** [messageSchema.methods.markAsRead]: the [readBy] array it leaves. *)
Definition markAsRead (userId : string) (now : nat)
    (readBy : list (string * nat)) : list (string * nat) :=
  match List.find (λ read, bool_decide (read.1 = userId)) readBy with
  | Some _ => readBy
  | None => readBy ++ [(userId, now)]
  end.

(** The virtual [readCount]. *)
Definition readCount (readBy : list (string * nat)) : nat := length readBy.

End Message.

(** ** The message and user collections *)

(** The calls of the handlers into the store.  A call is rejected when
    the oracle says so, whatever the cause (a value does not cast, the
    database is away); the save of a message is rejected as well when the
    schema or the hook of the message model refuses the document.  No
    handler of the socket server marks a message as deleted: [messages]
    holds the documents that are not. *)
Module Store.

(** [.sort({ timestamp: -1 })]: newest first.  The database leaves the
    order of documents with equal timestamps open; here the one stored
    last comes first. *)
Fixpoint insert_desc (m : MessageDoc) (l : list MessageDoc) : list MessageDoc :=
  match l with
  | [] => [m]
  | x :: l' =>
      if m_timestamp x <? m_timestamp m then m :: l
      else x :: insert_desc m l'
  end.

Definition sort_desc (l : list MessageDoc) : list MessageDoc :=
  foldr insert_desc [] l.

(** [populate('sender', 'username userId')] on one document of a query
    result: the document and the user name under [sender].  The
    [sender] string is looked up among the [_id]s of the users, and no
    user has it: [sender] is [null]. *)
Definition populated (m : MessageDoc) : MessageDoc * option string :=
  (m, None).

(** [new Message({content, sender, roomId, recipient, type, timestamp})];
    the schema trims the content, the id is fresh. *)
Definition new_Message (s : Server) (content sender : string)
    (roomId recipient : option string) (type : string) (now : nat)
  : MessageDoc :=
  {| m_id := length (messages s); m_content := JsString.trim content;
     m_sender := sender; m_roomId := roomId; m_recipient := recipient;
     m_type := type; m_timestamp := now |}.

(** [message.save()]: the validators of the schema and the hook run
    first, and either refuses the document by rejecting the call. *)
Definition save_message (fails : StoreOp → bool) (m : MessageDoc)
  : Async MessageDoc :=
  (if Message.valid m then ret () else throw);;
  match Message.pre_save m with
  | Some _ => throw
  | None => ret ()
  end;;
  await fails OpMessageSave;;
  modify (λ s, {| activeUsers := activeUsers s; sids := sids s;
                  users := users s; rooms := rooms s;
                  messages := messages s ++ [m] |});;
  ret m.

(** [message.populate('sender', 'username userId')]: what [sender] is
    afterwards.  The call rejects when the [sender] string does not
    cast to an ObjectId (the oracle); when it casts, no user has it as
    [_id], and [sender] is [null] ([None]). *)
Definition populate_sender (fails : StoreOp → bool) (m : MessageDoc)
  : Async (option UserDoc) :=
  await fails OpPopulate;;
  ret None.

(** [Message.find({ roomId }).populate(...).sort({ timestamp: -1 }).limit(50).lean()] *)
Definition find_recent (fails : StoreOp → bool) (roomId : string)
  : Async (list (MessageDoc * option string)) :=
  await fails OpMessageFind;;
  s ← get_state;
  ret (populated
         <$> take 50 (sort_desc
               (filter (λ m, m_roomId m = Some roomId) (messages s)))).

(** [messageSchema.statics.getPrivateMessages]: the documents the query
    yields when it is not rejected; a [limit] of 0 is no limit. *)
Definition getPrivateMessages (userId1 userId2 : string) (limit : nat)
    (s : Server) : list (MessageDoc * option string) :=
  let found :=
    sort_desc
      (filter (λ m,
           ((m_sender m = userId1 ∧ m_recipient m = Some userId2)
            ∨ (m_sender m = userId2 ∧ m_recipient m = Some userId1))
           ∧ m_type m = "private")
         (messages s)) in
  populated <$> (if limit =? 0 then found else take limit found).

(** [User.findOneAndUpdate({ userId }, { username, isOnline: true,
    lastSeen, socketId }, { upsert: true, new: true })]; the schema
    trims [username], in an update as in a document. *)
Definition upsert_online (fails : StoreOp → bool) (userId username : string)
    (now : nat) (sid : string) : Async unit :=
  await fails OpUserUpsert;;
  modify (λ s, {| activeUsers := activeUsers s; sids := sids s;
                  users := <[userId := mkUserDoc (JsString.trim username) true
                                         now (Some sid)]>
                             (users s);
                  rooms := rooms s; messages := messages s |}).

(** [User.findOneAndUpdate({ userId }, { isOnline: false, lastSeen,
    socketId: null })]: no upsert, an unknown user stays unknown. *)
Definition set_offline (fails : StoreOp → bool) (userId : string) (now : nat)
  : Async unit :=
  await fails OpUserOffline;;
  modify (λ s, {| activeUsers := activeUsers s; sids := sids s;
                  users := alter (λ u, mkUserDoc (u_username u) false now None)
                             userId (users s);
                  rooms := rooms s; messages := messages s |}).

End Store.

(** ** The socket handlers ([server.js]) *)

Section Handlers.

(** The socket the handlers were registered for, the clock and the
    store oracle. *)
Variable sid : string.
Variable now : nat.
Variable fails : StoreOp → bool.

(** The [try] block of [socket.on('join-room', ...)], from the payload
    as it arrives.  The destructuring is its first statement: a payload
    that is [undefined] or [null] throws there.  The value of [roomId]
    in the filter of [Room.findOne] is trimmed as the schema says, like
    the [roomId] of a document. *)
Definition join_room_try (payload : option JoinData) : Async unit :=
  match payload with
  | None => throw
  | Some userData =>
      let userId := jd_userId userData in
      let username := jd_username userData in
      let roomId := default "general" (jd_roomId userData) in
      if JsString.falsy userId || JsString.falsy username then
        socket_emit sid (ev_error "Invalid user data")
      else
        activeUsers_set sid (mkSession userId username roomId now);;
        socket_join sid roomId;;
        Store.upsert_online fails userId username now sid;;
        found ← Room.findOne fails (JsString.trim roomId);
        room ← match found with
               | Some room => ret room
               | None =>
                   Room.save fails OpRoomCreate
                     (Room.new roomId
                        (if bool_decide (roomId = "general")
                         then "General Chat" else roomId)
                        "Real-time chat room" userId now)
               end;
        room ← (if negb (includes userId (r_participants room)) then
                  Room.save fails OpRoomSave
                    (Room.with_participants
                       (r_participants room ++ [userId]) room)
                else ret room);
        recentMessages ← Store.find_recent fails roomId;
        (if 0 <? length recentMessages then
           socket_emit sid (ev_recent_messages (reverse recentMessages))
         else ret ());;
        s ← get_state;
        let onlineUsers := onlineUsers_of roomId (activeUsers s) in
        socket_to_emit sid roomId
          (ev_user_joined userId username (username +:+ " joined the chat"));;
        io_to_emit roomId (ev_users_update onlineUsers);;
        socket_emit sid (ev_join_success roomId (r_name room) onlineUsers)
  end.

(** The [try] block for a payload that is an object. *)
Definition join_room_body (userData : JoinData) : Async unit :=
  join_room_try (Some userData).

(** [socket.on('join-room', ...)] for a payload that is an object. *)
Definition join_room (userData : JoinData) : Async unit :=
  try_catch (join_room_body userData)
    (socket_emit sid (ev_error "Failed to join room")).

(** [socket.on('join-room', ...)] *)
Definition on_join_room (payload : option JoinData) : Async unit :=
  try_catch (join_room_try payload)
    (socket_emit sid (ev_error "Failed to join room")).

(** The [try] block of [socket.on('send-message', ...)], from the
    payload as it arrives: the session is tested first, the payload is
    destructured next. *)
Definition send_message_try (payload : option MessageData) : Async unit :=
  userInfo ← activeUsers_get sid;
  match userInfo with
  | None => socket_emit sid (ev_error "User not authenticated")
  | Some userInfo =>
    match payload with
    | None => throw
    | Some messageData =>
      let content := md_content messageData in
      let type := default "text" (md_type messageData) in
      let userId := s_userId userInfo in
      let roomId := s_roomId userInfo in
      if JsString.falsy content
         || (JsString.length (JsString.trim content) =? 0) then
        socket_emit sid (ev_error "Message content cannot be empty")
      else if 1000 <? JsString.length content then
        socket_emit sid (ev_error "Message too long")
      else
        s ← get_state;
        savedMessage ← Store.save_message fails
          (Store.new_Message s (JsString.trim content) userId
             (Some roomId) None type now);
        sender ← Store.populate_sender fails savedMessage;
        match sender with
        | None => throw
        | Some sender =>
            io_to_emit roomId
              (ev_receive_message (m_id savedMessage) (m_content savedMessage)
                 (u_username sender) (m_sender savedMessage)
                 (m_timestamp savedMessage) (m_type savedMessage))
        end
    end
  end.

(** The [try] block for a payload that is an object. *)
Definition send_message_body (messageData : MessageData) : Async unit :=
  send_message_try (Some messageData).

(** [socket.on('send-message', ...)] for a payload that is an object. *)
Definition send_message (messageData : MessageData) : Async unit :=
  try_catch (send_message_body messageData)
    (socket_emit sid (ev_error "Failed to send message")).

(** [socket.on('send-message', ...)] *)
Definition on_send_message (payload : option MessageData) : Async unit :=
  try_catch (send_message_try payload)
    (socket_emit sid (ev_error "Failed to send message")).

(** [socket.on('typing-start', ...)] and [socket.on('typing-stop', ...)]:
    the two differ in the flag only. *)
Definition typing (flag : bool) : Async unit :=
  userInfo ← activeUsers_get sid;
  match userInfo with
  | Some userInfo =>
      socket_to_emit sid (s_roomId userInfo)
        (ev_user_typing (s_userId userInfo) (s_username userInfo) flag)
  | None => ret ()
  end.

Definition typing_start : Async unit := typing true.
Definition typing_stop : Async unit := typing false.

(** The [try] block of [socket.on('private-message', ...)], from the
    payload as it arrives.  The destructuring is its first statement,
    before the test for a session: a payload that is [undefined] or
    [null] throws there. *)
Definition private_message_try (payload : option PrivateData) : Async unit :=
  match payload with
  | None => throw
  | Some data =>
      let recipientUserId := pd_recipientUserId data in
      let content := pd_content data in
      senderInfo ← activeUsers_get sid;
      match senderInfo with
      | None => ret ()
      | Some senderInfo =>
          s ← get_state;
          match JsMap.find
                  (λ e, bool_decide (s_userId e.2 = recipientUserId))
                  (activeUsers s) with
          | Some (recipientSocketId, _) =>
              privateMessage ← Store.save_message fails
                (Store.new_Message s content (s_userId senderInfo) None
                   (Some recipientUserId) "private" now);
              sender ← Store.populate_sender fails privateMessage;
              match sender with
              | None => throw
              | Some sender =>
                  io_to_emit recipientSocketId
                    (ev_private_message (m_id privateMessage)
                       (m_content privateMessage) (u_username sender)
                       (m_sender privateMessage)
                       (m_timestamp privateMessage));;
                  socket_emit sid (ev_message_sent (m_id privateMessage))
              end
          | None => socket_emit sid (ev_error "User is offline")
          end
      end
  end.

(** The [try] block for a payload that is an object. *)
Definition private_message_body (data : PrivateData) : Async unit :=
  private_message_try (Some data).

(** [socket.on('private-message', ...)] for a payload that is an
    object. *)
Definition private_message (data : PrivateData) : Async unit :=
  try_catch (private_message_body data)
    (socket_emit sid (ev_error "Failed to send private message")).

(** [socket.on('private-message', ...)] *)
Definition on_private_message (payload : option PrivateData) : Async unit :=
  try_catch (private_message_try payload)
    (socket_emit sid (ev_error "Failed to send private message")).

(** The [try] block of [socket.on('disconnect', ...)]. *)
Definition disconnect_body : Async unit :=
  userInfo ← activeUsers_get sid;
  match userInfo with
  | Some userInfo =>
      let userId := s_userId userInfo in
      let username := s_username userInfo in
      let roomId := s_roomId userInfo in
      Store.set_offline fails userId now;;
      activeUsers_delete sid;;
      s ← get_state;
      let onlineUsers := onlineUsers_of roomId (activeUsers s) in
      socket_to_emit sid roomId
        (ev_user_left userId username (username +:+ " left the chat"));;
      socket_to_emit sid roomId (ev_users_update onlineUsers)
  | None => ret ()
  end.

(** [socket.on('disconnect', ...)]: the [catch] only logs. *)
Definition disconnect : Async unit :=
  try_catch disconnect_body (ret ()).

End Handlers.

(** ** Inbound events *)

(** The listeners that take their payload apart. *)
Inductive Listener :=
| OnJoinRoom
| OnSendMessage
| OnPrivateMessage.

(** What arrives: a connection, an event with its payload, which is an
    object, or an event of one of the three listeners above with
    [undefined] or [null] for payload ([NoPayload]). *)
Inductive Input :=
| Connect
| JoinRoom (userData : JoinData)
| SendMessage (messageData : MessageData)
| TypingStart
| TypingStop
| PrivateMessage (data : PrivateData)
| Disconnect
| NoPayload (listener : Listener).

(** One inbound event: the socket it arrives on, what it is, the time,
    and how the store behaves while it is handled. *)
Record Action := mkAction {
  a_sid : string;
  a_input : Input;
  a_now : nat;
  a_fails : StoreOp → bool;
}.

(** Socket.IO puts a new socket in the room of its own id; the
    [connection] listener registers the handlers and logs. *)
Definition on_connect (sid : string) : Async unit :=
  modify (λ s, {| activeUsers := activeUsers s;
                  sids := SocketIO.connect sid (sids s);
                  users := users s; rooms := rooms s;
                  messages := messages s |}).

(** Socket.IO takes a closing socket out of all rooms, then runs the
    [disconnect] listener. *)
Definition on_disconnect (sid : string) (now : nat) (fails : StoreOp → bool)
  : Async unit :=
  modify (λ s, {| activeUsers := activeUsers s;
                  sids := SocketIO.leaveAll sid (sids s);
                  users := users s; rooms := rooms s;
                  messages := messages s |});;
  disconnect sid now fails.

Definition handle (a : Action) : Async unit :=
  match a_input a with
  | Connect => on_connect (a_sid a)
  | JoinRoom userData => join_room (a_sid a) (a_now a) (a_fails a) userData
  | SendMessage messageData =>
      send_message (a_sid a) (a_now a) (a_fails a) messageData
  | TypingStart => typing_start (a_sid a)
  | TypingStop => typing_stop (a_sid a)
  | PrivateMessage data => private_message (a_sid a) (a_now a) (a_fails a) data
  | Disconnect => on_disconnect (a_sid a) (a_now a) (a_fails a)
  | NoPayload OnJoinRoom => on_join_room (a_sid a) (a_now a) (a_fails a) None
  | NoPayload OnSendMessage =>
      on_send_message (a_sid a) (a_now a) (a_fails a) None
  | NoPayload OnPrivateMessage =>
      on_private_message (a_sid a) (a_now a) (a_fails a) None
  end.

(** The state after an event and the emits it caused. *)
Definition step (s : Server) (a : Action) : Server * list Emit :=
  run (handle a) s.

(** The state after a sequence of events. *)
Definition run_all (s : Server) (tr : list Action) : Server :=
  foldl (λ s a, (step s a).1) s tr.

(** Socket.IO delivers events of connected sockets only, and gives a new
    socket an id that was not in use. *)
Definition admissible (s : Server) (a : Action) : Prop :=
  match a_input a with
  | Connect =>
      sids s !! a_sid a = None ∧ JsMap.get (a_sid a) (activeUsers s) = None
  | _ => SocketIO.connected (a_sid a) (sids s)
  end.

(** Every event of the sequence [tr], handled from [s] on, satisfies [ok]
    in the state it arrives in. *)
Fixpoint all_ok (ok : Server → Action → Prop) (s : Server) (tr : list Action)
  : Prop :=
  match tr with
  | [] => True
  | a :: tr' => ok s a ∧ all_ok ok (step s a).1 tr'
  end.

(** The states the server can be in. *)
Definition reachable (s : Server) : Prop :=
  ∃ tr, all_ok admissible initial tr ∧ s = run_all initial tr.

(** The session a valid [join-room] stores. *)
Definition joined_session (now : nat) (userData : JoinData) : Session :=
  mkSession (jd_userId userData) (jd_username userData)
    (default "general" (jd_roomId userData)) now.

(** The payload passes the check of [join-room]. *)
Definition join_valid (userData : JoinData) : bool :=
  negb (JsString.falsy (jd_userId userData)
        || JsString.falsy (jd_username userData)).

(** Events in which no connection changes its room and no user update at
    disconnect is rejected: a [join-room] on a connection that holds a
    session names the room of that session. *)
Definition orderly (s : Server) (a : Action) : Prop :=
  admissible s a ∧
  match a_input a with
  | JoinRoom userData =>
      ∀ sess, JsMap.get (a_sid a) (activeUsers s) = Some sess →
              s_roomId sess = default "general" (jd_roomId userData)
  | Disconnect => a_fails a OpUserOffline = false
  | _ => True
  end.

(** An event is an error event. *)
Definition is_error (ev : Event) : bool :=
  match ev with ev_error _ => true | _ => false end.

(** The connections that hold a session in room [r]. *)
Definition sessions_in (r : string) (s : Server) : gset string :=
  list_to_set (filter (λ e, s_roomId e.2 = r) (activeUsers s)).*1.

(** ** The typing indicator of the client ([script.js]) *)

Module Client.

(** What [handleTypingIndicator] and [updateTypingDisplay] read and
    write of a [ChatApp]: the current user's id, the [Set] of typing
    user names in insertion order, the indicator's text and whether the
    indicator is hidden. *)
Record ChatApp := mkChatApp {
  currentUser : option string;
  typingUsers : list string;
  typingText : string;
  hidden : bool;
}.

(** [set.add(x)]: a new element goes to the end. *)
Definition set_add (x : string) (l : list string) : list string :=
  if includes x l then l else l ++ [x].

(** [set.delete(x)] *)
Definition set_delete (x : string) (l : list string) : list string :=
  filter (λ y, y ≠ x) l.

(** [array[i]] in a template literal. *)
Definition at_index (l : list string) (i : nat) : string :=
  default "undefined" (l !! i).

(** The text [updateTypingDisplay] builds from
    [Array.from(this.typingUsers)]. *)
Definition text_of (typingArray : list string) : string :=
  if length typingArray =? 1 then
    at_index typingArray 0 +:+ " is typing..."
  else if length typingArray =? 2 then
    at_index typingArray 0 +:+ " and " +:+ at_index typingArray 1
      +:+ " are typing..."
  else
    at_index typingArray 0 +:+ ", " +:+ at_index typingArray 1 +:+ " and "
      +:+ pretty (length typingArray - 2) +:+ " others are typing...".

Definition updateTypingDisplay (app : ChatApp) : ChatApp :=
  if length (typingUsers app) =? 0 then
    {| currentUser := currentUser app; typingUsers := typingUsers app;
       typingText := typingText app; hidden := true |}
  else
    {| currentUser := currentUser app; typingUsers := typingUsers app;
       typingText := text_of (typingUsers app); hidden := false |}.

Definition handleTypingIndicator (userId username : string) (typing : bool)
    (app : ChatApp) : ChatApp :=
  if bool_decide (Some userId = currentUser app) then app
  else
    updateTypingDisplay
      {| currentUser := currentUser app;
         typingUsers := if typing then set_add username (typingUsers app)
                        else set_delete username (typingUsers app);
         typingText := typingText app; hidden := hidden app |}.

(** A sequence of [user-typing] events, oldest first. *)
Definition handle_all (evs : list (string * string * bool)) (app : ChatApp)
  : ChatApp :=
  foldl (λ app e, handleTypingIndicator e.1.1 e.1.2 e.2 app) app evs.

End Client.

(** ** Invariants and scenarios of the properties *)

(** A connected socket that holds a session is in the room of that
    session. *)
Definition session_in_room (s : Server) : Prop :=
  ∀ c sess rs,
    JsMap.get c (activeUsers s) = Some sess → sids s !! c = Some rs →
    s_roomId sess ∈ rs.

(** The connection [c1] after alice joined the default room. *)
Definition alice_joined : Server :=
  run_all initial
    [mkAction "c1" Connect 0 no_failure;
     mkAction "c1" (JoinRoom (mkJoinData "alice" "Alice" None)) 1 no_failure].

(** The store rejects the user upsert and nothing else. *)
Definition user_upsert_fails : StoreOp → bool :=
  λ op, match op with OpUserUpsert => true | _ => false end.

(** A room for two, created by u1, with u1 and u2 in it. *)
Definition full_room : RoomDoc :=
  mkRoomDoc "team" "Team" "" "u1" ["u1"; "u2"] ["u1"] 2 0.

(** A server whose store holds that room and nothing else. *)
Definition full_room_server : Server :=
  {| activeUsers := []; sids := ∅; users := ∅;
     rooms := {["team" := full_room]}; messages := [] |}.

(** The rooms of a connected socket are the room of its own id and the
    room of its session, if it has one. *)
Definition rooms_follow_session (au : list (string * Session))
    (a : gmap string (gset string)) : Prop :=
  ∀ c rs, a !! c = Some rs →
    ∀ R, R ∈ rs ↔
         R = c ∨ ∃ sess, JsMap.get c au = Some sess ∧ s_roomId sess = R.

(** Only connected sockets hold a session. *)
Definition sessions_connected (au : list (string * Session))
    (a : gmap string (gset string)) : Prop :=
  ∀ c sess, JsMap.get c au = Some sess → SocketIO.connected c a.

(** The invariant of the runs in which no connection changes its room
    and no user update at disconnect is rejected. *)
Definition tidy (s : Server) : Prop :=
  NoDup (activeUsers s).*1
  ∧ rooms_follow_session (activeUsers s) (sids s)
  ∧ sessions_connected (activeUsers s) (sids s).

(** Two connections join the default room, the first one leaves. *)
Definition two_join_one_leaves : list Action :=
  [mkAction "c1" Connect 0 no_failure;
   mkAction "c1" (JoinRoom (mkJoinData "alice" "Alice" None)) 1 no_failure;
   mkAction "c2" Connect 2 no_failure;
   mkAction "c2" (JoinRoom (mkJoinData "bob" "Bob" None)) 3 no_failure;
   mkAction "c1" Disconnect 4 no_failure].

(** What follows after [c1] joined room A: [c1] joins room B, a store
    rejection makes a message of [c1] fail, and [c2] connects and joins
    room A. *)
Definition two_join_after_switch : list Action :=
  [mkAction "c1" (JoinRoom (mkJoinData "alice" "Alice" (Some "B"))) 2 no_failure;
   mkAction "c1" (SendMessage (mkMessageData "hello" None)) 3 (λ _, true);
   mkAction "c2" Connect 4 no_failure;
   mkAction "c2" (JoinRoom (mkJoinData "bob" "Bob" (Some "A"))) 5 no_failure].

(** Alice on [c1] and bob on [c2], both in the default room. *)
Definition alice_and_bob : Server :=
  run_all alice_joined
    [mkAction "c2" Connect 2 no_failure;
     mkAction "c2" (JoinRoom (mkJoinData "bob" "Bob" None)) 3 no_failure].

(** The store rejects the user update of [disconnect] and nothing else. *)
Definition user_offline_fails : StoreOp → bool :=
  λ op, match op with OpUserOffline => true | _ => false end.

(** ** More of the models and routes *)

(** The read-only methods of a room ([models/Room.js]). *)
Module RoomQueries.

(** [roomSchema.methods.isAdmin] *)
Definition isAdmin (userId : string) (room : RoomDoc) : bool :=
  includes userId (r_admins room) || bool_decide (r_createdBy room = userId).

(** [roomSchema.methods.isParticipant] *)
Definition isParticipant (userId : string) (room : RoomDoc) : bool :=
  includes userId (r_participants room).

End RoomQueries.

(** Every room is stored under its own [roomId] (the index on [roomId]
    is unique). *)
Definition rooms_keyed (s : Server) : Prop :=
  ∀ k room, rooms s !! k = Some room → r_roomId room = k.

(** The methods of a user ([models/User.js]) on [joinedRooms], and the
    virtual [isActive]. *)
Module User.

(** [userSchema.methods.joinRoom]: the [joinedRooms] array it leaves. *)
Definition joinRoom (roomId : string) (now : nat)
    (joinedRooms : list (string * nat)) : list (string * nat) :=
  match List.find (λ room, bool_decide (room.1 = roomId)) joinedRooms with
  | Some _ => joinedRooms
  | None => joinedRooms ++ [(roomId, now)]
  end.

(** [userSchema.methods.leaveRoom]: the [joinedRooms] array it leaves. *)
Definition leaveRoom (roomId : string) (joinedRooms : list (string * nat))
  : list (string * nat) :=
  List.filter (λ room, negb (bool_decide (room.1 = roomId))) joinedRooms.

(** The virtual [isActive] at time [now] (milliseconds): online, or seen
    in the last five minutes. *)
Definition isActive (now : nat) (u : UserDoc) : bool :=
  u_isOnline u
  || (Z.of_nat now - 5 * 60 * 1000 <? Z.of_nat (u_lastSeen u))%Z.

End User.

(** The routes [POST /rooms/:roomId/join] and [POST /rooms/:roomId/leave]
    ([routes/chatRoutes.js]), for a request that passed
    [authenticateToken] as the user [userId]; [roomId] is the path
    parameter as the filter of [Room.findOne] holds it, trimmed. *)
Module Rest.

(** Status and message of the JSON response. *)
Record Response := mkResponse {
  status : nat;
  message : string;
}.

(** The store as the routes see it: the collections of the socket server
    and, per user, the [joinedRooms] array of the user document. *)
Record State := mkState {
  server : Server;
  joinedRooms : gmap string (list (string * nat));
}.

(** [POST /rooms/:roomId/join].  [user_save_fails] says whether the
    save of the user document in [joinRoom] is rejected.  The error
    whose message the [catch] tests is the one [addParticipant] throws
    at the limit. *)
Definition join (fails : StoreOp → bool) (user_save_fails : bool) (now : nat)
    (userId roomId : string) (st : State) : Response * State :=
  match Room.findOne fails roomId (server st) with
  | (None, _, _) => (mkResponse 500 "Server error joining room", st)
  | (Some None, _, _) => (mkResponse 404 "Room not found", st)
  | (Some (Some room), _, _) =>
      if RoomQueries.isParticipant userId room then
        (mkResponse 400 "You are already a member of this room", st)
      else
        match Room.addParticipant fails now userId room (server st) with
        | (None, s', _) =>
            (if r_maxParticipants room <=? length (r_participants room)
             then mkResponse 400 "Room has reached maximum participant limit"
             else mkResponse 500 "Server error joining room",
             mkState s' (joinedRooms st))
        | (Some _, s', _) =>
            if user_save_fails then
              (mkResponse 500 "Server error joining room",
               mkState s' (joinedRooms st))
            else
              (mkResponse 200 "Successfully joined the room",
               mkState s'
                 (<[userId := User.joinRoom roomId now
                                (default [] (joinedRooms st !! userId))]>
                    (joinedRooms st)))
        end
  end.


End Rest.

(** What [handleSendMessage] and [handleJoinChat] of the client
    ([script.js]) send to the server. *)
Module ClientSend.

Inductive ClientEmit :=
| emit_join_room (userData : JoinData)
| emit_send_message (messageData : MessageData)
| emit_typing_stop.

(** [handleSendMessage]: the events emitted and the value left in the
    input, from the value of the input and [isConnected]. *)
Definition handleSendMessage (value : string) (isConnected : bool)
  : list ClientEmit * string :=
  let content := JsString.trim value in
  if JsString.falsy content || negb isConnected then ([], value)
  else
    ([emit_send_message (mkMessageData content (Some "user"));
      emit_typing_stop], "").

(** [handleJoinChat] with [joinRoom]: the event emitted, from the value
    of the name input; [stamp] and [rand] are the renderings of
    [Date.now()] and of the random part of the user id. *)
Definition handleJoinChat (value stamp rand : string) : list ClientEmit :=
  let username := JsString.trim value in
  if JsString.length username <? 2 then []
  else
    [emit_join_room
       (mkJoinData ("user_" +:+ stamp +:+ "_" +:+ rand) username None)].

End ClientSend.

(** The sessions of a state carry a user id and a user name. *)
Definition sessions_named (s : Server) : Prop :=
  ∀ c sess, JsMap.get c (activeUsers s) = Some sess →
            s_userId sess ≠ "" ∧ s_username sess ≠ "".

(** A connected socket is in the room of its own id. *)
Definition own_room (s : Server) : Prop :=
  ∀ c rs, sids s !! c = Some rs → c ∈ rs.

(** Newest first. *)
Definition newer_first (a b : MessageDoc) : Prop :=
  m_timestamp b ≤ m_timestamp a.

(** Nothing of the store is lost from [s] to [s']: the messages of [s]
    are the first messages of [s'], the users of [s] are users of [s'],
    and every room of [s] is a room of [s'] with the same creator and
    limit and at least the same participants. *)
Definition store_grows (s s' : Server) : Prop :=
  messages s `prefix_of` messages s'
  ∧ dom (users s) ⊆ dom (users s')
  ∧ ∀ k room, rooms s !! k = Some room →
      ∃ room', rooms s' !! k = Some room'
               ∧ r_createdBy room' = r_createdBy room
               ∧ r_maxParticipants room' = r_maxParticipants room
               ∧ r_participants room ⊆ r_participants room'.

(** The room a join leaves for the joiner, and the rooms stored then. *)
Definition joined_room (now : nat) (userData : JoinData) (s : Server)
  : RoomDoc * gmap string RoomDoc :=
  let userId := jd_userId userData in
  let roomId := default "general" (jd_roomId userData) in
  match rooms s !! JsString.trim roomId with
  | Some found =>
      if includes userId (r_participants found) then (found, rooms s)
      else
        let saved := Room.pre_save
                       (Room.with_participants
                          (r_participants found ++ [userId]) found) in
        (saved, <[r_roomId found := saved]> (rooms s))
  | None =>
      let created := Room.pre_save
                       (Room.new roomId
                          (if bool_decide (roomId = "general")
                           then "General Chat" else roomId)
                          "Real-time chat room" userId now) in
      (created, <[JsString.trim roomId := created]> (rooms s))
  end.


(** [alice_and_bob] after alice said hello and bob answered: each is
    told that the message failed, and each message is stored. *)
Definition two_in_general : Server :=
  run_all alice_and_bob
    [mkAction "c1" (SendMessage (mkMessageData " hello " None)) 5 no_failure;
     mkAction "c2" (SendMessage (mkMessageData "later" None)) 7 no_failure].

(** Unfolding the handlers and splitting on what they test. *)
Ltac async_unfold :=
  cbv [step run handle on_connect on_disconnect
       join_room join_room_body join_room_try on_join_room
       send_message send_message_body send_message_try on_send_message
       typing_start typing_stop typing
       private_message private_message_body private_message_try
       on_private_message disconnect disconnect_body
       try_catch mbind Async_bind bind ret throw modify get_state await
       socket_emit io_to_emit socket_to_emit socket_join
       activeUsers_get activeUsers_set activeUsers_delete
       Room.save Room.findOne Store.save_message Store.populate_sender
       Store.find_recent Store.upsert_online Store.set_offline].

Ltac async_cases := repeat (case_match; simpl in *; simplify_eq); try done.

(** * Properties *)

(** ** The insertion-ordered map *)

Module JsMapFacts.
Section Facts.
Context {V : Type}.
Implicit Types (m : list (string * V)) (k : string) (v : V).

Lemma get_set_eq k v m : JsMap.get k (JsMap.set k v m) = Some v.
Proof.
  induction m as [|[k' v'] m IH]; simpl.
  - by rewrite decide_True.
  - destruct (decide (k = k')) as [->|Hne]; simpl.
    + by rewrite decide_True.
    + by rewrite decide_False.
Qed.

Lemma get_set_ne k k' v m :
  k ≠ k' → JsMap.get k' (JsMap.set k v m) = JsMap.get k' m.
Proof.
  intros Hne. induction m as [|[k0 v0] m IH]; simpl.
  - by rewrite decide_False.
  - destruct (decide (k = k0)) as [->|Hk]; simpl.
    + by rewrite !decide_False.
    + by rewrite IH.
Qed.

Lemma get_delete_eq k m : JsMap.get k (JsMap.delete k m) = None.
Proof.
  induction m as [|[k0 v0] m IH]; simpl; [done|].
  destruct (decide (k = k0)); simpl; [done|]. by rewrite decide_False.
Qed.

Lemma get_delete_ne k k' m :
  k ≠ k' → JsMap.get k' (JsMap.delete k m) = JsMap.get k' m.
Proof.
  intros Hne. induction m as [|[k0 v0] m IH]; simpl; [done|].
  destruct (decide (k = k0)) as [->|Hk]; simpl.
  - by rewrite decide_False.
  - by rewrite IH.
Qed.

Lemma delete_absent k m : JsMap.get k m = None → JsMap.delete k m = m.
Proof.
  induction m as [|[k0 v0] m IH]; simpl; [done|].
  destruct (decide (k = k0)); [done|]. intros H. by rewrite IH.
Qed.

Lemma get_None_keys k m : JsMap.get k m = None ↔ k ∉ m.*1.
Proof.
  induction m as [|[k0 v0] m IH]; simpl.
  - split; [intros _; apply not_elem_of_nil | done].
  - rewrite not_elem_of_cons. destruct (decide (k = k0)) as [->|Hne].
    + split; [done | by intros [? _]].
    + rewrite IH. split; [by intros ? | by intros [_ ?]].
Qed.

Lemma keys_set k v m :
  JsMap.get k m = None → (JsMap.set k v m).*1 = m.*1 ++ [k].
Proof.
  induction m as [|[k0 v0] m IH]; simpl; [done|].
  destruct (decide (k = k0)); [done|]. intros H. simpl. f_equal. by apply IH.
Qed.

Lemma keys_set_present k v m :
  is_Some (JsMap.get k m) → (JsMap.set k v m).*1 = m.*1.
Proof.
  induction m as [|[k0 v0] m IH]; simpl.
  - by intros [? ?].
  - destruct (decide (k = k0)) as [->|]; [done|].
    intros H. simpl. f_equal. by apply IH.
Qed.

Lemma NoDup_set k v m : NoDup m.*1 → NoDup (JsMap.set k v m).*1.
Proof.
  intros Hnd. destruct (JsMap.get k m) eqn:Hk.
  - by rewrite keys_set_present.
  - rewrite keys_set; [|done]. apply NoDup_app. split_and!; [done| |].
    + intros x Hx ->%list_elem_of_singleton. by apply get_None_keys in Hk.
    + apply NoDup_singleton.
Qed.

Lemma keys_delete k m : (JsMap.delete k m).*1 = filter (λ x, x ≠ k) m.*1.
Proof.
  induction m as [|[k0 v0] m IH]; simpl; [done|].
  destruct (decide (k = k0)) as [->|Hne].
  - rewrite filter_cons_False; [done|]. simpl. by intros ?.
  - rewrite filter_cons_True; [|simpl; congruence]. simpl. f_equal. apply IH.
Qed.

Lemma NoDup_delete k m : NoDup m.*1 → NoDup (JsMap.delete k m).*1.
Proof. intros. rewrite keys_delete. by apply NoDup_filter. Qed.

(** With distinct keys, the entries are the graph of [get]. *)
Lemma elem_of_get k v m :
  NoDup m.*1 → (k, v) ∈ m ↔ JsMap.get k m = Some v.
Proof.
  induction m as [|[k0 v0] m IH]; simpl.
  - intros _. split; [by intros ?%elem_of_nil | done].
  - intros [Hk0 Hnd]%NoDup_cons. rewrite elem_of_cons.
    destruct (decide (k = k0)) as [->|Hne].
    + split.
      * intros [Heq|Hin]; [by inversion Heq|].
        exfalso. apply Hk0. apply list_elem_of_fmap. by exists (k0, v).
      * intros Heq. left. by inversion Heq.
    + rewrite <- (IH Hnd). split.
      * intros [Heq|Hin]; [|done]. inversion Heq. congruence.
      * intros Hin. by right.
Qed.

Lemma find_None (p : string * V → bool) m :
  JsMap.find p m = None ↔ ∀ e, e ∈ m → p e = false.
Proof.
  induction m as [|e m IH]; simpl.
  - split; [intros _ ? ?%elem_of_nil; done | done].
  - destruct (p e) eqn:He.
    + split; [done|]. intros H. specialize (H e (list_elem_of_here _ _)).
      congruence.
    + rewrite IH. split.
      * intros H e' [->|?]%elem_of_cons; auto.
      * intros H e' ?. apply H. by apply list_elem_of_further.
Qed.

End Facts.
End JsMapFacts.

Lemma includes_true (x : string) (l : list string) :
  includes x l = true ↔ x ∈ l.
Proof. unfold includes. apply bool_decide_eq_true. Qed.

Lemma includes_false (x : string) (l : list string) :
  includes x l = false ↔ x ∉ l.
Proof. unfold includes. apply bool_decide_eq_false. Qed.

(** ** Room membership *)

Lemma elem_of_members (c r : string) (a : gmap string (gset string)) :
  c ∈ SocketIO.members r a ↔ ∃ rs, a !! c = Some rs ∧ r ∈ rs.
Proof.
  unfold SocketIO.members. rewrite elem_of_dom. split.
  - intros [rs [? ?]%map_lookup_filter_Some]. by exists rs.
  - intros (rs & ? & ?). exists rs. by apply map_lookup_filter_Some.
Qed.

Lemma members_connected (c r : string) (a : gmap string (gset string)) :
  c ∈ SocketIO.members r a → SocketIO.connected c a.
Proof. intros (rs & ? & ?)%elem_of_members. by exists rs. Qed.

Lemma elem_of_sessions_in (c r : string) (s : Server) :
  NoDup (activeUsers s).*1 →
  c ∈ sessions_in r s ↔
  ∃ sess, JsMap.get c (activeUsers s) = Some sess ∧ s_roomId sess = r.
Proof.
  intros Hnd. unfold sessions_in. rewrite elem_of_list_to_set, list_elem_of_fmap.
  split.
  - intros ([c' sess] & -> & [Hr Hin]%list_elem_of_filter). simpl in *.
    exists sess. split; [|done]. by apply JsMapFacts.elem_of_get.
  - intros (sess & Hget & Hr). exists (c, sess). split; [done|].
    apply list_elem_of_filter. split; [done|]. by apply JsMapFacts.elem_of_get.
Qed.

(** ** What the handlers do to the session map and to the rooms *)

Lemma join_room_memory sid now fails userData s :
  let s' := (run (join_room sid now fails userData) s).1 in
  activeUsers s' =
    (if join_valid userData
     then JsMap.set sid (joined_session now userData) (activeUsers s)
     else activeUsers s)
  ∧ sids s' =
    (if join_valid userData
     then SocketIO.join sid (default "general" (jd_roomId userData)) (sids s)
     else sids s).
Proof.
  unfold join_valid, joined_session. async_unfold.
  destruct (JsString.falsy (jd_userId userData)
            || JsString.falsy (jd_username userData)); simpl; [done|].
  async_cases.
Qed.

Lemma send_message_memory sid now fails messageData s :
  let s' := (run (send_message sid now fails messageData) s).1 in
  activeUsers s' = activeUsers s ∧ sids s' = sids s.
Proof. async_unfold. async_cases. Qed.

Lemma typing_memory sid flag s : run (typing sid flag) s = (s,
  match JsMap.get sid (activeUsers s) with
  | Some userInfo =>
      [mkEmit (SocketIO.members (s_roomId userInfo) (sids s) ∖ {[sid]})
         (ev_user_typing (s_userId userInfo) (s_username userInfo) flag)]
  | None => []
  end).
Proof. async_unfold. async_cases. Qed.

Lemma private_message_memory sid now fails data s :
  let s' := (run (private_message sid now fails data) s).1 in
  activeUsers s' = activeUsers s ∧ sids s' = sids s.
Proof. async_unfold. async_cases. Qed.

Lemma on_disconnect_memory sid now fails s :
  let s' := (run (on_disconnect sid now fails) s).1 in
  activeUsers s' =
    match JsMap.get sid (activeUsers s) with
    | Some _ => if fails OpUserOffline then activeUsers s
                else JsMap.delete sid (activeUsers s)
    | None => activeUsers s
    end
  ∧ sids s' = SocketIO.leaveAll sid (sids s).
Proof. async_unfold. async_cases. Qed.

(** An event without payload is answered with an error, to the socket
    it came from, and changes nothing. *)
Lemma no_payload_memory sid now fails listener s :
  ∃ message,
    run match listener with
        | OnJoinRoom => on_join_room sid now fails None
        | OnSendMessage => on_send_message sid now fails None
        | OnPrivateMessage => on_private_message sid now fails None
        end s = (s, [mkEmit {[sid]} (ev_error message)]).
Proof.
  destruct listener; async_unfold; [by eexists| |by eexists].
  destruct (JsMap.get sid (activeUsers s)); by eexists.
Qed.

(** The keys of [activeUsers] stay distinct. *)
Lemma step_NoDup s a :
  NoDup (activeUsers s).*1 → NoDup (activeUsers (step s a).1).*1.
Proof.
  intros Hnd. unfold step, handle. destruct (a_input a).
  - done.
  - destruct (join_room_memory (a_sid a) (a_now a) (a_fails a) userData s)
      as [-> _].
    destruct (join_valid userData); [by apply JsMapFacts.NoDup_set | done].
  - by destruct (send_message_memory (a_sid a) (a_now a) (a_fails a)
                   messageData s) as [-> _].
  - unfold typing_start. by rewrite typing_memory.
  - unfold typing_stop. by rewrite typing_memory.
  - by destruct (private_message_memory (a_sid a) (a_now a) (a_fails a)
                   data s) as [-> _].
  - destruct (on_disconnect_memory (a_sid a) (a_now a) (a_fails a) s)
      as [-> _].
    repeat case_match; try done. by apply JsMapFacts.NoDup_delete.
  - cbv iota.
    by destruct (no_payload_memory (a_sid a) (a_now a) (a_fails a) listener s)
      as [? ->].
Qed.

Lemma run_all_NoDup s tr :
  NoDup (activeUsers s).*1 → NoDup (activeUsers (run_all s tr)).*1.
Proof.
  revert s. induction tr as [|a tr IH]; intros s Hnd; simpl; [done|].
  apply IH. by apply step_NoDup.
Qed.

(** *** A connected socket is in the room of its session *)

Lemma step_session_in_room s a :
  admissible s a → session_in_room s → session_in_room (step s a).1.
Proof.
  intros Hadm Hinv c sess rs. unfold step, handle, admissible in *.
  destruct (a_input a).
  - simpl. unfold SocketIO.connect. destruct Hadm as [Hfree Hnone].
    destruct (decide (a_sid a = c)) as [<-|Hne].
    + by rewrite Hnone.
    + rewrite lookup_insert_ne by done. apply Hinv.
  - destruct (join_room_memory (a_sid a) (a_now a) (a_fails a) userData s)
      as [-> ->].
    destruct (join_valid userData); [|apply Hinv]. unfold SocketIO.join.
    destruct (decide (a_sid a = c)) as [<-|Hne].
    + rewrite JsMapFacts.get_set_eq, lookup_insert_eq.
      intros [= <-] [= <-]. simpl. set_solver.
    + rewrite JsMapFacts.get_set_ne, lookup_insert_ne by done. apply Hinv.
  - destruct (send_message_memory (a_sid a) (a_now a) (a_fails a)
                messageData s) as [-> ->]. apply Hinv.
  - unfold typing_start. rewrite typing_memory. apply Hinv.
  - unfold typing_stop. rewrite typing_memory. apply Hinv.
  - destruct (private_message_memory (a_sid a) (a_now a) (a_fails a)
                data s) as [-> ->]. apply Hinv.
  - destruct (on_disconnect_memory (a_sid a) (a_now a) (a_fails a) s)
      as [-> ->]. unfold SocketIO.leaveAll.
    destruct (decide (a_sid a = c)) as [<-|Hne].
    + by rewrite lookup_delete_eq.
    + rewrite lookup_delete_ne by done. intros Hget. apply Hinv.
      repeat case_match; try done.
      by rewrite JsMapFacts.get_delete_ne in Hget.
  - cbv iota.
    destruct (no_payload_memory (a_sid a) (a_now a) (a_fails a) listener s)
      as [? ->]. apply Hinv.
Qed.

Lemma run_all_session_in_room s tr :
  all_ok admissible s tr → session_in_room s → session_in_room (run_all s tr).
Proof.
  revert s. induction tr as [|a tr IH]; intros s Hok Hinv; simpl; [done|].
  destruct Hok as [Ha Hok]. apply IH; [done|]. by apply step_session_in_room.
Qed.

Lemma reachable_session_in_room s : reachable s → session_in_room s.
Proof.
  intros (tr & Hok & ->). apply run_all_session_in_room; [done|].
  intros c sess rs Hget. done.
Qed.

(** In a reachable state a connected socket that holds a session is
    reached by the emits to the room of that session. *)
Lemma reachable_session_member s c sess :
  reachable s → SocketIO.connected c (sids s) →
  JsMap.get c (activeUsers s) = Some sess →
  c ∈ SocketIO.members (s_roomId sess) (sids s).
Proof.
  intros Hr [rs Hrs] Hget. apply elem_of_members. exists rs. split; [done|].
  by eapply reachable_session_in_room.
Qed.

(** ** Events on a connection without a session *)

(** C10, as stated, fails: a [private-message] that arrives without a
    payload on the connection [c1], which has no session, is answered
    with an error event. *)
Lemma private_message_without_payload :
  let s0 := run_all initial [mkAction "c1" Connect 0 no_failure] in
  JsMap.get "c1" (activeUsers s0) = None
  ∧ step s0 (mkAction "c1" (NoPayload OnPrivateMessage) 1 no_failure)
    = (s0, [mkEmit {["c1"]} (ev_error "Failed to send private message")]).
Proof. by vm_compute. Qed.

(** C10, amended.  On a connection that has no session in [activeUsers],
    a [typing-start] or [typing-stop] event, and a [private-message]
    event whose payload is an object, emit nothing, not even an error,
    and leave the whole state (session map, rooms and the three
    collections) as it was.  A [private-message] event without payload
    leaves the state as it was too, but is answered with the error
    "Failed to send private message", to that connection only: the
    payload is taken apart before the session is looked up. *)
Theorem no_session_silent (s : Server) (sid : string) (now : nat)
    (fails : StoreOp → bool) (payload : option PrivateData) :
  JsMap.get sid (activeUsers s) = None →
  run (typing_start sid) s = (s, [])
  ∧ run (typing_stop sid) s = (s, [])
  ∧ run (on_private_message sid now fails payload) s
    = (s, match payload with
          | Some _ => []
          | None =>
              [mkEmit {[sid]} (ev_error "Failed to send private message")]
          end).
Proof.
  intros Hnone. unfold typing_start, typing_stop.
  rewrite !typing_memory, Hnone. split_and!; [done..|].
  destruct payload as [data|]; async_unfold; [|done]. by rewrite Hnone.
Qed.

Lemma no_session_silent_witness :
  run (typing_start "c1") initial = (initial, [])
  ∧ run (typing_stop "c1") initial = (initial, [])
  ∧ run (on_private_message "c1" 7 no_failure (Some (mkPrivateData "bob" "hi")))
      initial
    = (initial, [])
  ∧ run (on_private_message "c1" 7 no_failure None) initial
    = (initial, [mkEmit {["c1"]} (ev_error "Failed to send private message")]).
Proof.
  destruct (no_session_silent initial "c1" 7 no_failure
              (Some (mkPrivateData "bob" "hi")) eq_refl) as (H1 & H2 & H3).
  destruct (no_session_silent initial "c1" 7 no_failure None eq_refl)
    as (_ & _ & H4).
  split_and!; [exact H1 | exact H2 | exact H3 | exact H4].
Defined.

(** ** Typing events *)

(** C7.  A [typing-start] ([flag = true]) or [typing-stop]
    ([flag = false]) event on a connection with a session in room [R]
    causes exactly one emit, [user-typing {userId, username, typing}],
    whose recipients are the sockets of room [R] without the originating
    socket: the originator is not among them, every other socket of the
    room is, and so is, in a reachable state, every other connected
    socket that holds a session in [R].  The state, hence the message
    collection, is unchanged. *)
Theorem typing_reaches_others_only (s : Server) (sid : string) (flag : bool)
    (userInfo : Session) :
  JsMap.get sid (activeUsers s) = Some userInfo →
  let recipients := SocketIO.members (s_roomId userInfo) (sids s) ∖ {[sid]} in
  run (if flag then typing_start sid else typing_stop sid) s =
    (s, [mkEmit recipients
           (ev_user_typing (s_userId userInfo) (s_username userInfo) flag)])
  ∧ (sid ∉ recipients)
  ∧ (∀ c, c ≠ sid → c ∈ SocketIO.members (s_roomId userInfo) (sids s) →
          c ∈ recipients)
  ∧ (reachable s →
     ∀ c sess, c ≠ sid → SocketIO.connected c (sids s) →
               JsMap.get c (activeUsers s) = Some sess →
               s_roomId sess = s_roomId userInfo → c ∈ recipients).
Proof.
  intros Hget recipients. split_and!.
  - unfold typing_start, typing_stop.
    destruct flag; by rewrite typing_memory, Hget.
  - intros [_ Hsid]%elem_of_difference. apply Hsid. by apply elem_of_singleton.
  - intros c Hne Hc. apply elem_of_difference. split; [done|].
    by intros ?%elem_of_singleton.
  - intros Hr c sess Hne Hconn Hc Hroom.
    apply elem_of_difference. split; [|by intros ?%elem_of_singleton].
    rewrite <- Hroom. by apply reachable_session_member.
Qed.

Lemma typing_reaches_others_only_witness :
  let recipients := SocketIO.members "general" (sids alice_and_bob) ∖ {["c1"]} in
  recipients = {["c2"]}
  ∧ run (typing_start "c1") alice_and_bob =
      (alice_and_bob,
       [mkEmit recipients (ev_user_typing "alice" "Alice" true)])
  ∧ "c1" ∉ recipients.
Proof.
  intros recipients. split; [by vm_compute|].
  destruct (typing_reaches_others_only alice_and_bob "c1" true
              (mkSession "alice" "Alice" "general" 1) eq_refl)
    as (Hrun & Hnot & _).
  split; [exact Hrun | exact Hnot].
Defined.

(** ** The typing indicator *)

Section TypingDisplay.
Import Client.

Lemma set_add_fresh (x : string) (l : list string) :
  x ∉ l → set_add x l = l ++ [x].
Proof.
  intros Hx. unfold set_add, includes. by rewrite bool_decide_eq_false_2.
Qed.

(** Typing events of other users, one per name and all names distinct,
    leave the names in the set in the order of arrival, and the text
    is the one built from them. *)
Lemma handle_all_typers (app : ChatApp) (evs : list (string * string)) :
  (∀ e, e ∈ evs → Some e.1 ≠ currentUser app) →
  NoDup (typingUsers app ++ evs.*2) →
  evs ≠ [] →
  handle_all ((λ e, (e.1, e.2, true)) <$> evs) app =
    mkChatApp (currentUser app) (typingUsers app ++ evs.*2)
      (text_of (typingUsers app ++ evs.*2)) false.
Proof.
  induction evs as [|e evs IH] using rev_ind; intros Hother Hnd Hne; [done|].
  rewrite !fmap_app in *. simpl in *. unfold handle_all in *.
  rewrite foldl_snoc. simpl.
  rewrite app_assoc in Hnd. apply NoDup_app in Hnd as (Hnd & Hfresh & _).
  assert (Hother' : ∀ e', e' ∈ evs → Some e'.1 ≠ currentUser app).
  { intros e' He'. apply Hother. apply elem_of_app. by left. }
  assert (He : Some e.1 ≠ currentUser app).
  { apply Hother. apply elem_of_app. right. apply list_elem_of_here. }
  assert (Hx : e.2 ∉ typingUsers app ++ evs.*2).
  { intros Hin. apply (Hfresh _ Hin). apply list_elem_of_here. }
  assert (Hcons : ∃ x l, (typingUsers app ++ evs.*2) ++ [e.2] = x :: l).
  { destruct ((typingUsers app ++ evs.*2) ++ [e.2]) as [|x l] eqn:Hl.
    - by apply app_eq_nil in Hl as [_ ?].
    - by exists x, l. }
  destruct Hcons as (x & l & Hcons).
  assert (Hevs : evs = [] ∨ evs ≠ []) by (destruct evs; [by left | by right]).
  destruct Hevs as [-> | Hevs].
  - simpl in *. unfold handleTypingIndicator.
    rewrite bool_decide_eq_false_2 by done. rewrite app_nil_r in *.
    rewrite set_add_fresh by done. unfold updateTypingDisplay. simpl.
    by rewrite Hcons.
  - rewrite (IH Hother' Hnd Hevs). unfold handleTypingIndicator. simpl.
    rewrite bool_decide_eq_false_2 by done.
    rewrite set_add_fresh by done. unfold updateTypingDisplay. simpl.
    rewrite Hcons. simpl. by rewrite <- Hcons, <- !app_assoc.
Qed.

(** C8.  When the typers arrive in the order [names] (distinct names,
    none of them the current user, nobody typing before), the set holds
    them in that order, and the indicator reads: for one typer [x],
    "x is typing..."; for two, "x and y are typing..."; for N of them,
    N at least 3, "x, y and N-2 others are typing..." with [x] and [y]
    the first two to arrive.  (With no typer the indicator stays as it
    was.) *)
Theorem typing_display_text (app : ChatApp) (evs : list (string * string)) :
  typingUsers app = [] →
  (∀ e, e ∈ evs → Some e.1 ≠ currentUser app) →
  NoDup evs.*2 →
  let names := evs.*2 in
  let app' := handle_all ((λ e, (e.1, e.2, true)) <$> evs) app in
  match names with
  | [] => app' = app
  | [x] =>
      typingUsers app' = names ∧ hidden app' = false
      ∧ typingText app' = x +:+ " is typing..."
  | [x; y] =>
      typingUsers app' = names ∧ hidden app' = false
      ∧ typingText app' = x +:+ " and " +:+ y +:+ " are typing..."
  | x :: y :: _ =>
      typingUsers app' = names ∧ hidden app' = false
      ∧ typingText app' =
          x +:+ ", " +:+ y +:+ " and " +:+ pretty (length names - 2)
            +:+ " others are typing..."
  end.
Proof.
  intros Hempty Hother Hnd names app'. subst names app'.
  destruct evs as [|e1 evs]; [done|].
  rewrite handle_all_typers; [|done|by rewrite Hempty|done].
  rewrite Hempty. simpl. by destruct evs as [|e2 [|e3 evs]].
Qed.

Lemma typing_display_text_witness :
  let app := mkChatApp (Some "me") [] "" true in
  let app' := handle_all [("a", "Alice", true); ("b", "Bob", true);
                          ("c", "Carol", true)] app in
  typingUsers app' = ["Alice"; "Bob"; "Carol"] ∧ hidden app' = false
  ∧ typingText app' = "Alice, Bob and 1 others are typing...".
Proof.
  apply (typing_display_text (mkChatApp (Some "me") [] "" true)
           [("a", "Alice"); ("b", "Bob"); ("c", "Carol")]).
  - reflexivity.
  - intros e He. apply (bool_decide_unpack _). revert e He.
    apply Forall_forall. repeat constructor.
  - apply (bool_decide_unpack _). by vm_compute.
Defined.

End TypingDisplay.

(** ** Private messages to a user who is not connected *)

(** C2, as stated, fails: alice sends a private message to carol, who has
    no session.  Alice gets the error, but no message is saved, and the
    history of alice and carol is empty afterwards. *)
Lemma offline_private_message_is_dropped :
  let r := step alice_joined
             (mkAction "c1" (PrivateMessage (mkPrivateData "carol" "hello"))
                2 no_failure) in
  r.2 = [mkEmit {["c1"]} (ev_error "User is offline")]
  ∧ messages r.1 = []
  ∧ Store.getPrivateMessages "alice" "carol" 50 r.1 = [].
Proof. vm_compute. done. Qed.

(** C2, amended.  A [private-message] from a connection with a session to
    a [recipientUserId] that no session has emits the error "User is
    offline" to the sender and nothing else, and leaves the state as it
    was: the message is not saved, and every history query answers as
    before. *)
Theorem offline_private_message (s : Server) (sid : string) (now : nat)
    (fails : StoreOp → bool) (data : PrivateData) (senderInfo : Session) :
  JsMap.get sid (activeUsers s) = Some senderInfo →
  (∀ e, e ∈ activeUsers s → s_userId e.2 ≠ pd_recipientUserId data) →
  let r := run (private_message sid now fails data) s in
  r = (s, [mkEmit {[sid]} (ev_error "User is offline")])
  ∧ messages r.1 = messages s
  ∧ ∀ userId1 userId2 limit,
      Store.getPrivateMessages userId1 userId2 limit r.1
      = Store.getPrivateMessages userId1 userId2 limit s.
Proof.
  intros Hget Hoff r.
  assert (Hr : r = (s, [mkEmit {[sid]} (ev_error "User is offline")])).
  { subst r. async_unfold. rewrite Hget.
    assert (JsMap.find
              (λ e : string * Session,
                 bool_decide (s_userId e.2 = pd_recipientUserId data))
              (activeUsers s) = None) as ->; [|done].
    apply JsMapFacts.find_None. intros e He.
    apply bool_decide_eq_false_2. by apply Hoff. }
  by rewrite Hr.
Qed.

Lemma offline_private_message_witness :
  let r := run (private_message "c1" 2 no_failure
                  (mkPrivateData "carol" "hello")) alice_joined in
  r = (alice_joined, [mkEmit {["c1"]} (ev_error "User is offline")])
  ∧ messages r.1 = messages alice_joined
  ∧ ∀ userId1 userId2 limit,
      Store.getPrivateMessages userId1 userId2 limit r.1
      = Store.getPrivateMessages userId1 userId2 limit alice_joined.
Proof.
  apply (offline_private_message alice_joined "c1" 2 no_failure
           (mkPrivateData "carol" "hello")
           (mkSession "alice" "Alice" "general" 1)).
  - reflexivity.
  - apply Forall_forall. vm_compute. repeat constructor. discriminate.
Defined.

(** ** A second join on the same connection *)

(** C5, as stated, fails: [c1] joins room A as alice and then room B.  The
    second join emits no error, and the session now names room B. *)
Lemma second_join_is_accepted :
  let s1 := run_all initial
              [mkAction "c1" Connect 0 no_failure;
               mkAction "c1" (JoinRoom (mkJoinData "alice" "Alice" (Some "A")))
                 1 no_failure] in
  let r := step s1
             (mkAction "c1" (JoinRoom (mkJoinData "alice" "Alice" (Some "B")))
                2 no_failure) in
  JsMap.get "c1" (activeUsers s1) = Some (mkSession "alice" "Alice" "A" 1)
  ∧ forallb (λ e, negb (is_error (event e))) r.2 = true
  ∧ JsMap.get "c1" (activeUsers r.1) = Some (mkSession "alice" "Alice" "B" 2).
Proof. vm_compute. done. Qed.

(** C5, amended.  A [join-room] with a user id and a user name, on a
    connection that already holds a session, is handled like a first
    join: the session of the connection is replaced by the new one.  The
    only error event a join with such a payload can emit is "Failed to
    join room", and without a store failure it emits no error event. *)
Theorem second_join_replaces_session (s : Server) (sid : string) (now : nat)
    (fails : StoreOp → bool) (userData : JoinData) (old : Session) :
  JsMap.get sid (activeUsers s) = Some old →
  join_valid userData = true →
  let r := run (join_room sid now fails userData) s in
  JsMap.get sid (activeUsers r.1) = Some (joined_session now userData)
  ∧ Forall (λ e, is_error (event e) = true →
                 event e = ev_error "Failed to join room") r.2
  ∧ ((∀ op, fails op = false) →
     Forall (λ e, is_error (event e) = false) r.2).
Proof.
  intros _ Hvalid r. subst r. split_and!.
  - destruct (join_room_memory sid now fails userData s) as [-> _].
    rewrite Hvalid. apply JsMapFacts.get_set_eq.
  - unfold join_valid in Hvalid. apply negb_true_iff in Hvalid.
    async_unfold. rewrite Hvalid. simpl.
    async_cases; repeat constructor; simpl; done.
  - intros Hnf. unfold join_valid in Hvalid. apply negb_true_iff in Hvalid.
    async_unfold. rewrite Hvalid, !Hnf. simpl.
    async_cases; repeat constructor; simpl; done.
Qed.

Lemma second_join_replaces_session_witness :
  let s1 := run_all initial
              [mkAction "c1" Connect 0 no_failure;
               mkAction "c1" (JoinRoom (mkJoinData "alice" "Alice" (Some "A")))
                 1 no_failure] in
  let r := run (join_room "c1" 2 no_failure
                  (mkJoinData "alice" "Alice" (Some "B"))) s1 in
  JsMap.get "c1" (activeUsers r.1) = Some (mkSession "alice" "Alice" "B" 2)
  ∧ Forall (λ e, is_error (event e) = true →
                 event e = ev_error "Failed to join room") r.2
  ∧ ((∀ op, no_failure op = false) →
     Forall (λ e, is_error (event e) = false) r.2).
Proof.
  apply (second_join_replaces_session _ "c1" 2 no_failure
           (mkJoinData "alice" "Alice" (Some "B"))
           (mkSession "alice" "Alice" "A" 1)); reflexivity.
Defined.

(** ** A join whose store calls fail *)

(** C3, as stated, fails: the user upsert of alice's join is rejected.  The
    connection gets "Failed to join room", and its session is still in
    [activeUsers]. *)
Lemma failed_join_keeps_session :
  let s0 := run_all initial [mkAction "c1" Connect 0 no_failure] in
  let r := step s0
             (mkAction "c1" (JoinRoom (mkJoinData "alice" "Alice" None))
                1 user_upsert_fails) in
  r.2 = [mkEmit {["c1"]} (ev_error "Failed to join room")]
  ∧ JsMap.get "c1" (activeUsers r.1)
    = Some (mkSession "alice" "Alice" "general" 1).
Proof. vm_compute. done. Qed.

(** The [try] block of a join with a user id and a user name throws when
    the store rejects the user upsert, the room lookup, the creation of a
    missing room, the save of the new participant, or the fetch of the
    recent messages. *)
Lemma join_room_failure_steps (s : Server) (sid : string) (now : nat)
    (fails : StoreOp → bool) (userData : JoinData) :
  join_valid userData = true →
  let roomId := default "general" (jd_roomId userData) in
  let thrown := (join_room_body sid now fails userData s).1.1 = None in
  (fails OpUserUpsert = true → thrown)
  ∧ (fails OpUserUpsert = false → fails OpRoomFind = true → thrown)
  ∧ (fails OpUserUpsert = false → fails OpRoomFind = false →
     rooms s !! JsString.trim roomId = None →
     fails OpRoomCreate = true → thrown)
  ∧ (fails OpUserUpsert = false → fails OpRoomFind = false →
     ∀ room, rooms s !! JsString.trim roomId = Some room →
             jd_userId userData ∉ r_participants room →
             fails OpRoomSave = true → thrown)
  ∧ (fails OpUserUpsert = false → fails OpRoomFind = false →
     fails OpRoomCreate = false → fails OpRoomSave = false →
     fails OpMessageFind = true → thrown).
Proof.
  intros Hvalid roomId thrown. subst thrown roomId.
  unfold join_valid in Hvalid. apply negb_true_iff in Hvalid.
  split_and!.
  - intros H1. async_unfold. by rewrite Hvalid, H1.
  - intros H1 H2. async_unfold. by rewrite Hvalid, H1, H2.
  - intros H1 H2 Hroom H3. async_unfold. rewrite Hvalid, H1, H2. simpl.
    by rewrite Hroom, H3.
  - intros H1 H2 room Hroom Hin%includes_false H3. async_unfold.
    rewrite Hvalid, H1, H2. simpl. by rewrite Hroom, Hin, H3.
  - intros H1 H2 H3 H4 H5. async_unfold. rewrite Hvalid, H1, H2, H3, H4, H5.
    simpl. async_cases.
Qed.

(** C3, amended.  When a [join-room] with a user id and a user name fails
    at a store call (the [try] block throws), the session it stored stays
    in [activeUsers], the socket stays in the room, and the last event
    emitted is the error "Failed to join room", to the connection. *)
Theorem failed_join_stays_registered (s : Server) (sid : string) (now : nat)
    (fails : StoreOp → bool) (userData : JoinData) :
  join_valid userData = true →
  (join_room_body sid now fails userData s).1.1 = None →
  let r := run (join_room sid now fails userData) s in
  JsMap.get sid (activeUsers r.1) = Some (joined_session now userData)
  ∧ sid ∈ SocketIO.members (default "general" (jd_roomId userData)) (sids r.1)
  ∧ last r.2 = Some (mkEmit {[sid]} (ev_error "Failed to join room")).
Proof.
  intros Hvalid Hthrown r. subst r.
  destruct (join_room_memory sid now fails userData s) as [Hau Hsids].
  simpl in Hau, Hsids. rewrite Hvalid in Hau, Hsids. split_and!.
  - rewrite Hau. apply JsMapFacts.get_set_eq.
  - rewrite Hsids. apply elem_of_members. unfold SocketIO.join.
    eexists. rewrite lookup_insert_eq. split; [done|].
    apply elem_of_union_l. by apply elem_of_singleton.
  - unfold join_room, try_catch, run, socket_emit.
    destruct (join_room_body sid now fails userData s) as [[[a|] s'] o];
      [done|]. simpl. apply last_snoc.
Qed.

Lemma failed_join_stays_registered_witness :
  let s0 := run_all initial [mkAction "c1" Connect 0 no_failure] in
  let r := run (join_room "c1" 1 user_upsert_fails
                  (mkJoinData "alice" "Alice" None)) s0 in
  JsMap.get "c1" (activeUsers r.1)
  = Some (mkSession "alice" "Alice" "general" 1)
  ∧ "c1" ∈ SocketIO.members "general" (sids r.1)
  ∧ last r.2 = Some (mkEmit {["c1"]} (ev_error "Failed to join room")).
Proof.
  apply (failed_join_stays_registered _ "c1" 1 user_upsert_fails
           (mkJoinData "alice" "Alice" None)); reflexivity.
Defined.

(** ** Disconnecting twice *)

(** C6, as stated, fails: the store rejects the user update of the first
    [disconnect] of alice's connection.  The first [disconnect] then
    emits nothing and keeps the session; the second one removes the
    session, sets alice offline and tells bob, who is in her room. *)
Lemma second_disconnect_is_heard :
  let r1 := run (on_disconnect "c1" 5 user_offline_fails) alice_and_bob in
  let r2 := run (on_disconnect "c1" 6 no_failure) r1.1 in
  r1.2 = []
  ∧ JsMap.get "c1" (activeUsers r1.1)
    = Some (mkSession "alice" "Alice" "general" 1)
  ∧ users r1.1 !! "alice" = Some (mkUserDoc "Alice" true 1 (Some "c1"))
  ∧ r2.2 = [mkEmit {["c2"]}
              (ev_user_left "alice" "Alice" "Alice left the chat");
            mkEmit {["c2"]} (ev_users_update [mkOnlineUser "bob" "Bob" 3])]
  ∧ JsMap.get "c1" (activeUsers r2.1) = None
  ∧ users r2.1 !! "alice" = Some (mkUserDoc "Alice" false 6 None).
Proof. by vm_compute. Qed.

(** C6, amended.  When the user update of the first [disconnect] is not
    rejected, a second [disconnect] on the same connection, at any time
    and however the store behaves then, throws nothing, emits nothing
    and leaves the state (session map, rooms, user documents and the
    rest) exactly as the first left it.  This holds for the listener
    alone and for the listener preceded by Socket.IO's leaving of all
    rooms. *)
Theorem disconnect_twice (s : Server) (sid : string) (now1 now2 : nat)
    (fails1 fails2 : StoreOp → bool) :
  fails1 OpUserOffline = false →
  (let r1 := run (disconnect sid now1 fails1) s in
   JsMap.get sid (activeUsers r1.1) = None
   ∧ disconnect_body sid now2 fails2 r1.1 = (Some (), r1.1, [])
   ∧ run (disconnect sid now2 fails2) r1.1 = (r1.1, []))
  ∧ (let r1 := run (on_disconnect sid now1 fails1) s in
     JsMap.get sid (activeUsers r1.1) = None
     ∧ run (on_disconnect sid now2 fails2) r1.1 = (r1.1, [])).
Proof.
  intros Hok. split.
  - async_unfold. rewrite Hok.
    destruct (JsMap.get sid (activeUsers s)) as [userInfo|] eqn:Hget; simpl.
    + rewrite JsMapFacts.get_delete_eq. done.
    + rewrite Hget. done.
  - async_unfold. simpl. rewrite Hok.
    destruct (JsMap.get sid (activeUsers s)) as [userInfo|] eqn:Hget; simpl.
    + rewrite JsMapFacts.get_delete_eq. simpl. split; [done|].
      unfold SocketIO.leaveAll. by rewrite delete_delete_eq.
    + rewrite Hget. simpl. split; [done|].
      unfold SocketIO.leaveAll. by rewrite delete_delete_eq.
Qed.

Lemma disconnect_twice_witness :
  (let r1 := run (disconnect "c1" 5 no_failure) alice_joined in
   JsMap.get "c1" (activeUsers r1.1) = None
   ∧ disconnect_body "c1" 6 user_offline_fails r1.1 = (Some (), r1.1, [])
   ∧ run (disconnect "c1" 6 user_offline_fails) r1.1 = (r1.1, []))
  ∧ (let r1 := run (on_disconnect "c1" 5 no_failure) alice_joined in
     JsMap.get "c1" (activeUsers r1.1) = None
     ∧ run (on_disconnect "c1" 6 user_offline_fails) r1.1 = (r1.1, [])).
Proof. apply disconnect_twice. reflexivity. Defined.

(** On [alice_joined] the first [disconnect] does remove a session, sets
    the user offline and tells the room. *)
Example disconnect_once_example :
  let r1 := run (on_disconnect "c1" 5 no_failure) alice_joined in
  JsMap.get "c1" (activeUsers alice_joined)
  = Some (mkSession "alice" "Alice" "general" 1)
  ∧ users r1.1 !! "alice" = Some (mkUserDoc "Alice" false 5 None)
  ∧ event <$> r1.2 = [ev_user_left "alice" "Alice" "Alice left the chat";
                      ev_users_update []].
Proof. vm_compute. done. Qed.

(** ** The participant limit of a room *)

Section RoomInvariant.
Import Room.

(** After the hook the creator is a participant and an admin. *)
Lemma pre_save_creator_ok (room : RoomDoc) : creator_ok (pre_save room).
Proof.
  unfold creator_ok, pre_save. simpl. split.
  - destruct (includes _ (r_participants room)) eqn:H.
    + by apply includes_true.
    + apply elem_of_app. right. apply list_elem_of_here.
  - destruct (includes _ (r_admins room)) eqn:H.
    + by apply includes_true.
    + apply elem_of_app. right. apply list_elem_of_here.
Qed.

(** The hook changes nothing when the creator is already both. *)
Lemma pre_save_id (room : RoomDoc) : creator_ok room → pre_save room = room.
Proof.
  intros [Hp Ha]. unfold pre_save.
  apply includes_true in Hp, Ha. rewrite Hp, Ha. by destruct room.
Qed.

(** [addParticipant] keeps the invariant: the room it returns, which is
    the room it saved if it saved one, has the creator among the
    participants and the admins and is within its limit. *)
Lemma addParticipant_invariant (fails : StoreOp → bool) (now : nat)
    (userId : string) (room room' : RoomDoc) (s s' : Server)
    (out : list Emit) :
  invariant room →
  addParticipant fails now userId room s = (Some room', s', out) →
  invariant room'
  ∧ (s' = s ∨ rooms s' !! r_roomId room = Some room').
Proof.
  intros [[Hp Ha] Hlim]. unfold addParticipant. unfold within_limit in Hlim.
  destruct (includes userId (r_participants room)) eqn:Hin; simpl.
  - intros [= <- <- <-]. split; [done | by left].
  - destruct (r_maxParticipants room <=? length (r_participants room))
      eqn:Hfull; [done|].
    apply Nat.leb_gt in Hfull.
    async_unfold. destruct (fails OpRoomSave); [done|]. simpl.
    intros [= <- <- <-]. split; [|right; simpl; by rewrite lookup_insert_eq].
    rewrite pre_save_id.
    + split; [split|]; simpl.
      * apply elem_of_app. by left.
      * done.
      * unfold within_limit. simpl. rewrite length_app. simpl. lia.
    + split; simpl; [apply elem_of_app; by left | done].
Qed.

(** At the limit [addParticipant] throws and writes nothing. *)
Lemma addParticipant_full (fails : StoreOp → bool) (now : nat)
    (userId : string) (room : RoomDoc) (s : Server) :
  userId ∉ r_participants room →
  r_maxParticipants room ≤ length (r_participants room) →
  addParticipant fails now userId room s = (None, s, []).
Proof.
  intros Hin%includes_false Hfull%Nat.leb_le. unfold addParticipant.
  by rewrite Hin, Hfull.
Qed.

End RoomInvariant.

(** C9: the code does not do what the claim says.  The room [full_room]
    satisfies the invariant and is at its limit of 2.  [addParticipant]
    rejects a third user and writes nothing, but a [join-room] of user u3
    on a socket pushes u3 onto the participants and saves: the stored
    room then has 3 participants for a limit of 2.  (The creator stays a
    participant and an admin.) *)
Theorem socket_join_exceeds_limit :
  Room.invariant full_room
  ∧ Room.addParticipant no_failure 1 "u3" full_room full_room_server
    = (None, full_room_server, [])
  ∧ let s := run_all full_room_server
               [mkAction "c3" Connect 0 no_failure;
                mkAction "c3"
                  (JoinRoom (mkJoinData "u3" "Carol" (Some "team")))
                  1 no_failure] in
    ∃ room, rooms s !! "team" = Some room
            ∧ r_participants room = ["u1"; "u2"; "u3"]
            ∧ r_maxParticipants room = 2
            ∧ Room.creator_ok room
            ∧ ¬ Room.within_limit room.
Proof.
  split_and!.
  - unfold Room.invariant, Room.creator_ok, Room.within_limit. simpl.
    split_and!; [apply list_elem_of_here .. | lia].
  - reflexivity.
  - eexists. split_and!; [by vm_compute | reflexivity | reflexivity | |].
    + unfold Room.creator_ok. simpl. split; apply list_elem_of_here.
    + unfold Room.within_limit. simpl. lia.
Qed.

(** ** Sending a message *)

Section Trim.
Import JsString.

Lemma trim_start_blank (s : string) : all_space s = true → trim_start s = "".
Proof.
  induction s as [|c s IH]; simpl; [done|].
  destruct (is_space c); simpl; [done | discriminate].
Qed.

(** What is left of a string that is not blank starts with a character
    that is not white space. *)
Lemma trim_start_nonblank (s : string) :
  all_space s = false →
  ∃ c s', trim_start s = String c s' ∧ is_space c = false.
Proof.
  induction s as [|c s IH]; simpl; [discriminate|].
  destruct (is_space c) eqn:Hc; simpl; [done|].
  intros _. by exists c, s.
Qed.

Lemma trim_end_head (c : ascii) (s : string) :
  is_space c = false → ∃ t, trim_end (String c s) = String c t.
Proof.
  intros Hc. simpl. destruct (trim_end s) as [|d t].
  - rewrite Hc. by exists "".
  - by exists (String d t).
Qed.

Lemma trim_end_idem (s : string) : trim_end (trim_end s) = trim_end s.
Proof.
  induction s as [|c s IH]; simpl; [done|].
  destruct (trim_end s) as [|d t] eqn:Ht.
  - destruct (is_space c) eqn:Hc; simpl; [done|]. by rewrite Hc.
  - change (trim_end (String c (String d t))) with
      (match trim_end (String d t) with
       | "" => if is_space c then "" else String c ""
       | t' => String c t'
       end).
    by rewrite IH.
Qed.

Lemma trim_blank (s : string) : all_space s = true → trim s = "".
Proof. intros H. unfold trim. by rewrite trim_start_blank. Qed.

Lemma trim_nonblank (s : string) : all_space s = false → trim s ≠ "".
Proof.
  intros (c & s' & Hs & Hc)%trim_start_nonblank. unfold trim. rewrite Hs.
  destruct (trim_end_head c s' Hc) as [t ->]. done.
Qed.

(** Trimming twice is trimming once. *)
Lemma trim_idem (s : string) : trim (trim s) = trim s.
Proof.
  unfold trim. destruct (all_space s) eqn:Hs.
  - by rewrite (trim_start_blank s Hs).
  - destruct (trim_start_nonblank s Hs) as (c & s' & -> & Hc).
    destruct (trim_end_head c s' Hc) as [t Ht]. rewrite Ht.
    simpl trim_start. rewrite Hc. rewrite <- Ht. apply trim_end_idem.
Qed.

(** The emptiness check of [send-message] is the test that every
    character is white space. *)
Lemma empty_check (content : string) :
  falsy content || (length (trim content) =? 0) = all_space content.
Proof.
  destruct (all_space content) eqn:Hs.
  - rewrite trim_blank by done. simpl. apply orb_true_r.
  - pose proof (trim_nonblank content Hs).
    destruct content; [done|]. simpl falsy.
    destruct (trim (String a content)); done.
Qed.

Lemma length_replicate (n : nat) (c : ascii) : length (replicate n c) = n.
Proof. unfold length. induction n; simpl; [done|]. by f_equal. Qed.

End Trim.

(** The two checks of [send-message] on the content, in the order in
    which the handler makes them: content that is empty or white space
    only is answered "Message content cannot be empty", longer content
    of more than 1000 characters "Message too long"; both go to the
    sender only and leave the state as it was. *)
Lemma send_message_content_checks (s : Server) (sid : string) (now : nat)
    (fails : StoreOp → bool) (messageData : MessageData) (userInfo : Session) :
  JsMap.get sid (activeUsers s) = Some userInfo →
  let content := md_content messageData in
  let r := run (send_message sid now fails messageData) s in
  (JsString.all_space content = true →
   r = (s, [mkEmit {[sid]} (ev_error "Message content cannot be empty")]))
  ∧ (JsString.all_space content = false → 1000 < JsString.length content →
     r = (s, [mkEmit {[sid]} (ev_error "Message too long")])).
Proof.
  intros Hget content r. subst r content. split.
  - intros Hblank. async_unfold. rewrite Hget, empty_check, Hblank. done.
  - intros Hblank Hlong. async_unfold. rewrite Hget, empty_check, Hblank.
    apply Nat.ltb_lt in Hlong. by rewrite Hlong.
Qed.

(** C4: the code does not do what the claim says.  No [send-message]
    succeeds.  Whatever the state, the payload and the store do, every
    event a [send-message] causes is an error event that goes to the
    sender alone: [receive-message] is never emitted.  On the input of
    the claim, 1000 characters from alice, who is in the room [general]
    with bob, and a store that rejects nothing, the message is saved,
    and then alice is told "Failed to send message" and bob is told
    nothing: the sender of the saved message is looked up by [_id] and
    found to be nobody, and reading the name of nobody throws. *)
Theorem send_message_never_broadcasts :
  (∀ s sid now fails messageData,
     Forall (λ e, is_error (event e) = true ∧ to e = {[sid]})
       (run (send_message sid now fails messageData) s).2)
  ∧ let content := JsString.replicate 1000 "a" in
    let r := run (send_message "c1" 5 no_failure (mkMessageData content None))
               alice_and_bob in
    SocketIO.members "general" (sids alice_and_bob) = {["c1"; "c2"]}
    ∧ messages r.1
      = [mkMessageDoc 0 content "alice" (Some "general") None "text" 5]
    ∧ r.2 = [mkEmit {["c1"]} (ev_error "Failed to send message")].
Proof.
  split.
  - intros s sid now fails messageData. async_unfold.
    async_cases; repeat constructor.
  - split_and!; vm_compute; reflexivity.
Qed.

Lemma alice_joined_reachable : reachable alice_joined.
Proof.
  eexists. split; [|reflexivity]. simpl. split_and!; try done.
  eexists. by vm_compute.
Qed.

(** ** Room membership and sessions *)

(** C1, as stated, fails: [c1] joins room A and then room B.  Its only
    session is in B, yet it is still in the membership of A, so it is in
    two rooms at once, and an emit to room A reaches it: when [c2] then
    joins A, the [user-joined] notice for A is delivered to [c1]. *)
Lemma room_switch_keeps_old_membership :
  let s := run_all initial
             [mkAction "c1" Connect 0 no_failure;
              mkAction "c1" (JoinRoom (mkJoinData "alice" "Alice" (Some "A")))
                1 no_failure;
              mkAction "c1" (JoinRoom (mkJoinData "alice" "Alice" (Some "B")))
                2 no_failure;
              mkAction "c2" Connect 3 no_failure] in
  let r := step s (mkAction "c2" (JoinRoom (mkJoinData "bob" "Bob" (Some "A")))
                     4 no_failure) in
  JsMap.get "c1" (activeUsers s) = Some (mkSession "alice" "Alice" "B" 2)
  ∧ sessions_in "A" s = ∅
  ∧ SocketIO.members "A" (sids s) = {["c1"]}
  ∧ SocketIO.members "B" (sids s) = {["c1"]}
  ∧ mkEmit {["c1"]} (ev_user_joined "bob" "Bob" "Bob joined the chat") ∈ r.2.
Proof.
  split_and!; try (by vm_compute).
  vm_compute. apply list_elem_of_here.
Qed.

(** *** The invariant of orderly runs *)

Lemma tidy_initial : tidy initial.
Proof.
  split_and!.
  - apply NoDup_nil_2.
  - intros c rs Hc. simpl in Hc. by rewrite lookup_empty in Hc.
  - intros c sess Hc. done.
Qed.

Lemma tidy_connect (sid : string) au a :
  a !! sid = None → JsMap.get sid au = None →
  rooms_follow_session au a ∧ sessions_connected au a →
  rooms_follow_session au (SocketIO.connect sid a)
  ∧ sessions_connected au (SocketIO.connect sid a).
Proof.
  intros Hfree Hnone [Hrooms Hconn]. unfold SocketIO.connect. split.
  - intros c rs. destruct (decide (sid = c)) as [<-|Hne].
    + rewrite lookup_insert_eq. intros [= <-] R.
      rewrite elem_of_singleton, Hnone. split; [by left|].
      intros [?|(sess & ? & _)]; done.
    + rewrite lookup_insert_ne by done. apply Hrooms.
  - intros c sess Hc. unfold SocketIO.connected.
    destruct (decide (sid = c)) as [<-|Hne]; [congruence|].
    rewrite lookup_insert_ne by done. by eapply Hconn.
Qed.

Lemma tidy_join (sid : string) (sess0 : Session) au a :
  SocketIO.connected sid a →
  (∀ sess, JsMap.get sid au = Some sess → s_roomId sess = s_roomId sess0) →
  rooms_follow_session au a ∧ sessions_connected au a →
  rooms_follow_session (JsMap.set sid sess0 au)
    (SocketIO.join sid (s_roomId sess0) a)
  ∧ sessions_connected (JsMap.set sid sess0 au)
      (SocketIO.join sid (s_roomId sess0) a).
Proof.
  intros [rs0 Hrs0] Hsame [Hrooms Hconn]. unfold SocketIO.join. split.
  - intros c rs. destruct (decide (sid = c)) as [<-|Hne].
    + rewrite lookup_insert_eq, Hrs0, JsMapFacts.get_set_eq. simpl.
      intros [= <-] R. rewrite elem_of_union, elem_of_singleton.
      rewrite (Hrooms sid rs0 Hrs0 R). split.
      * intros [->|[->|(sess & Hsess & <-)]].
        -- right. by exists sess0.
        -- by left.
        -- right. exists sess0. split; [done|]. symmetry. by apply Hsame.
      * intros [->|(sess & [= <-] & <-)]; [right; by left | by left].
    + rewrite lookup_insert_ne, JsMapFacts.get_set_ne by done. apply Hrooms.
  - intros c sess. unfold SocketIO.connected.
    destruct (decide (sid = c)) as [<-|Hne].
    + by rewrite lookup_insert_eq.
    + rewrite lookup_insert_ne, JsMapFacts.get_set_ne by done. apply Hconn.
Qed.

Lemma tidy_disconnect (sid : string) au a :
  rooms_follow_session au a ∧ sessions_connected au a →
  rooms_follow_session (JsMap.delete sid au) (SocketIO.leaveAll sid a)
  ∧ sessions_connected (JsMap.delete sid au) (SocketIO.leaveAll sid a).
Proof.
  intros [Hrooms Hconn]. unfold SocketIO.leaveAll. split.
  - intros c rs. destruct (decide (sid = c)) as [<-|Hne].
    + by rewrite lookup_delete_eq.
    + rewrite lookup_delete_ne, JsMapFacts.get_delete_ne by done.
      apply Hrooms.
  - intros c sess. unfold SocketIO.connected.
    destruct (decide (sid = c)) as [<-|Hne].
    + by rewrite JsMapFacts.get_delete_eq.
    + rewrite lookup_delete_ne, JsMapFacts.get_delete_ne by done.
      apply Hconn.
Qed.

Lemma step_tidy s a : orderly s a → tidy s → tidy (step s a).1.
Proof.
  intros [Hadm Hord] (Hnd & Hinv). split; [by apply step_NoDup|].
  unfold step, handle, admissible in *. destruct (a_input a).
  - simpl. destruct Hadm. by apply tidy_connect.
  - destruct (join_room_memory (a_sid a) (a_now a) (a_fails a) userData s)
      as [-> ->].
    destruct (join_valid userData); [|done].
    by apply (tidy_join (a_sid a) (joined_session (a_now a) userData)).
  - by destruct (send_message_memory (a_sid a) (a_now a) (a_fails a)
                   messageData s) as [-> ->].
  - unfold typing_start. by rewrite typing_memory.
  - unfold typing_stop. by rewrite typing_memory.
  - by destruct (private_message_memory (a_sid a) (a_now a) (a_fails a)
                   data s) as [-> ->].
  - destruct (on_disconnect_memory (a_sid a) (a_now a) (a_fails a) s)
      as [-> ->]. rewrite Hord.
    destruct (JsMap.get (a_sid a) (activeUsers s)) eqn:Hget.
    + by apply tidy_disconnect.
    + rewrite <- (JsMapFacts.delete_absent (a_sid a) (activeUsers s)) at 1 2
        by done.
      by apply tidy_disconnect.
  - cbv iota.
    by destruct (no_payload_memory (a_sid a) (a_now a) (a_fails a) listener s)
      as [? ->].
Qed.

Lemma run_all_tidy s tr : all_ok orderly s tr → tidy s → tidy (run_all s tr).
Proof.
  revert s. induction tr as [|a tr IH]; intros s Hok Hinv; simpl; [done|].
  destruct Hok as [Ha Hok]. apply IH; [done|]. by apply step_tidy.
Qed.

(** Whatever arrives, a socket stays in a room it is in, as long as it
    does not disconnect (and its id is not given to a new connection):
    no handler takes a socket out of a room. *)
Lemma step_keeps_member (s : Server) (a : Action) (c A : string) :
  c ∈ SocketIO.members A (sids s) →
  (a_sid a = c → a_input a ≠ Connect ∧ a_input a ≠ Disconnect) →
  c ∈ SocketIO.members A (sids (step s a).1).
Proof.
  intros (rs & Hrs & HA)%elem_of_members Hstays. apply elem_of_members.
  unfold step, handle. destruct (a_input a).
  - simpl. unfold SocketIO.connect. exists rs. split; [|done].
    rewrite lookup_insert_ne; [done|]. intros Hc. by destruct (Hstays Hc).
  - destruct (join_room_memory (a_sid a) (a_now a) (a_fails a) userData s)
      as [_ ->].
    destruct (join_valid userData); [|by exists rs]. unfold SocketIO.join.
    destruct (decide (a_sid a = c)) as [->|Hne].
    + eexists. rewrite lookup_insert_eq. split; [done|]. rewrite Hrs. simpl.
      by apply elem_of_union_r.
    + exists rs. by rewrite lookup_insert_ne.
  - destruct (send_message_memory (a_sid a) (a_now a) (a_fails a)
                messageData s) as [_ ->]. by exists rs.
  - unfold typing_start. rewrite typing_memory. by exists rs.
  - unfold typing_stop. rewrite typing_memory. by exists rs.
  - destruct (private_message_memory (a_sid a) (a_now a) (a_fails a)
                data s) as [_ ->]. by exists rs.
  - destruct (on_disconnect_memory (a_sid a) (a_now a) (a_fails a) s)
      as [_ ->]. unfold SocketIO.leaveAll. exists rs. split; [|done].
    rewrite lookup_delete_ne; [done|]. intros Hc. by destruct (Hstays Hc).
  - cbv iota.
    destruct (no_payload_memory (a_sid a) (a_now a) (a_fails a) listener s)
      as [? ->]. by exists rs.
Qed.

Lemma run_all_keeps_member (s : Server) (tr : list Action) (c A : string) :
  c ∈ SocketIO.members A (sids s) →
  Forall (λ a, a_sid a = c → a_input a ≠ Connect ∧ a_input a ≠ Disconnect) tr →
  c ∈ SocketIO.members A (sids (run_all s tr)).
Proof.
  intros Hin Htr. revert s Hin.
  induction Htr as [|a tr Ha Htr IH]; intros s Hin; simpl; [done|].
  apply IH. by apply step_keeps_member.
Qed.

(** C1, amended.  Take any sequence of events, starting from the empty
    server, in which no connection joins a second, different room and no
    user update at disconnect is rejected.  Afterwards, for every room
    name [R] that is not the id of a connected socket, the sockets an
    emit to room [R] reaches are exactly the connections whose session
    names [R]; and every connection is in at most one room apart from
    the room of its own id.

    Without that condition: a connection that joins a room is put in it,
    and a connection that is in a room [A] stays in it through every
    sequence of events, whatever the store does, in which the connection
    does not disconnect, its later joins of other rooms included.  So a
    connection that joins [A] and then [B] is in both, and the emits to
    [A] go on reaching it. *)
Theorem membership_follows_sessions (tr : list Action) :
  (all_ok orderly initial tr →
   let s := run_all initial tr in
   (∀ R, ¬ SocketIO.connected R (sids s) →
         SocketIO.members R (sids s) = sessions_in R s)
   ∧ (∀ c R1 R2,
        c ∈ SocketIO.members R1 (sids s) → c ∈ SocketIO.members R2 (sids s) →
        R1 ≠ c → R2 ≠ c → R1 = R2))
  ∧ (∀ s c now fails userData,
       join_valid userData = true →
       c ∈ SocketIO.members (default "general" (jd_roomId userData))
             (sids (run (join_room c now fails userData) s).1))
  ∧ (∀ s c A,
       c ∈ SocketIO.members A (sids s) →
       Forall (λ a, a_sid a = c →
                    a_input a ≠ Connect ∧ a_input a ≠ Disconnect) tr →
       c ∈ SocketIO.members A (sids (run_all s tr))).
Proof.
  split_and!.
  - intros Hok s.
    destruct (run_all_tidy initial tr Hok tidy_initial)
      as (Hnd & Hrooms & Hconn).
    fold s in Hnd, Hrooms, Hconn. split.
    + intros R HR. apply set_eq. intros c.
      rewrite elem_of_members, elem_of_sessions_in by done. split.
      * intros (rs & Hc & [->|Hsess]%(Hrooms c rs Hc)); [|done].
        exfalso. apply HR. by exists rs.
      * intros (sess & Hsess & Hroom).
        destruct (Hconn c sess Hsess) as [rs Hc]. exists rs. split; [done|].
        apply (Hrooms c rs Hc). right. by exists sess.
    + intros c R1 R2 (rs1 & Hc1 & H1)%elem_of_members
        (rs2 & Hc2 & H2)%elem_of_members Hne1 Hne2.
      apply (Hrooms c rs1 Hc1) in H1 as [?|(sess1 & Hs1 & <-)]; [done|].
      apply (Hrooms c rs2 Hc2) in H2 as [?|(sess2 & Hs2 & <-)]; [done|].
      congruence.
  - intros s c now fails userData Hvalid.
    destruct (join_room_memory c now fails userData s) as [_ ->].
    rewrite Hvalid. apply elem_of_members. unfold SocketIO.join.
    eexists. rewrite lookup_insert_eq. split; [done|].
    apply elem_of_union_l. by apply elem_of_singleton.
  - intros s c A. apply run_all_keeps_member.
Qed.

Lemma membership_follows_sessions_witness :
  (let s := run_all initial two_join_one_leaves in
   (∀ R, ¬ SocketIO.connected R (sids s) →
         SocketIO.members R (sids s) = sessions_in R s)
   ∧ (∀ c R1 R2,
        c ∈ SocketIO.members R1 (sids s) → c ∈ SocketIO.members R2 (sids s) →
        R1 ≠ c → R2 ≠ c → R1 = R2))
  ∧ let in_A := (run (join_room "c1" 1 no_failure
                        (mkJoinData "alice" "Alice" (Some "A")))
                   (run_all initial [mkAction "c1" Connect 0 no_failure])).1 in
    let s := run_all in_A two_join_after_switch in
    "c1" ∈ SocketIO.members "A" (sids in_A)
    ∧ "c1" ∈ SocketIO.members "A" (sids s)
    ∧ JsMap.get "c1" (activeUsers s) = Some (mkSession "alice" "Alice" "B" 2).
Proof.
  split.
  - apply (membership_follows_sessions two_join_one_leaves).
    simpl. unfold orderly, admissible, SocketIO.connected. simpl.
    split_and!; try done; try (eexists; by vm_compute); try (by vm_compute).
  - intros in_A s.
    destruct (membership_follows_sessions two_join_after_switch)
      as (_ & Hjoin & Hstays).
    assert (Hin : "c1" ∈ SocketIO.members "A" (sids in_A)).
    { apply (Hjoin _ "c1" 1 no_failure (mkJoinData "alice" "Alice" (Some "A"))).
      reflexivity. }
    split_and!; [exact Hin | | by vm_compute].
    apply (Hstays in_A "c1" "A" Hin).
    repeat constructor; simpl; intros; done.
Defined.

Example membership_example :
  let s := run_all initial two_join_one_leaves in
  SocketIO.members "general" (sids s) = {["c2"]}
  ∧ sessions_in "general" s = {["c2"]}.
Proof. by vm_compute. Qed.

(** The two conditions of the amended statement are needed.  When the
    user update of a [disconnect] is rejected, the session stays although
    the socket has left its rooms. *)
Example rejected_offline_update_keeps_session :
  let s := run_all initial
             [mkAction "c1" Connect 0 no_failure;
              mkAction "c1" (JoinRoom (mkJoinData "alice" "Alice" None))
                1 no_failure;
              mkAction "c1" Disconnect 2 user_offline_fails] in
  SocketIO.members "general" (sids s) = ∅
  ∧ sessions_in "general" s = {["c1"]}.
Proof. by vm_compute. Qed.

(** And a room named like a connected socket holds that socket, whatever
    its session. *)
Example room_named_like_a_socket :
  let tr := [mkAction "c1" Connect 0 no_failure;
             mkAction "c2" Connect 1 no_failure;
             mkAction "c2" (JoinRoom (mkJoinData "bob" "Bob" (Some "c1")))
               2 no_failure] in
  let s := run_all initial tr in
  SocketIO.members "c1" (sids s) = {["c1"; "c2"]}
  ∧ sessions_in "c1" s = {["c2"]}.
Proof. by vm_compute. Qed.

(** * More properties *)

(** ** The methods of a room *)

Section RoomMethods.
Import Room.

Lemma save_result (fails : StoreOp → bool) (op : StoreOp) (room : RoomDoc)
    (s : Server) :
  save fails op room s =
    if fails op then (None, s, [])
    else (Some (pre_save room),
          mkServer (activeUsers s) (sids s) (users s)
            (<[r_roomId room := pre_save room]> (rooms s)) (messages s),
          []).
Proof. async_unfold. by destruct (fails op). Qed.

Lemma pre_save_participants (room : RoomDoc) :
  r_createdBy room ∈ r_participants room →
  r_participants (pre_save room) = r_participants room.
Proof. intros H%includes_true. unfold pre_save. simpl. by rewrite H. Qed.

Lemma pre_save_admins (room : RoomDoc) :
  r_createdBy room ∈ r_admins room →
  r_admins (pre_save room) = r_admins room.
Proof. intros H%includes_true. unfold pre_save. simpl. by rewrite H. Qed.

Lemma addParticipant_cases (fails : StoreOp → bool) (now : nat)
    (userId : string) (room : RoomDoc) (s : Server) :
  invariant room →
  match addParticipant fails now userId room s with
  | (Some room', s', out) =>
      invariant room' ∧ userId ∈ r_participants room' ∧ out = []
      ∧ (userId ∈ r_participants room → room' = room ∧ s' = s)
      ∧ (userId ∉ r_participants room →
         r_participants room' = r_participants room ++ [userId]
         ∧ length (r_participants room) < r_maxParticipants room
         ∧ rooms s' = <[r_roomId room := room']> (rooms s))
  | (None, s', out) => s' = s ∧ out = [] ∧ userId ∉ r_participants room
  end
  ∧ (userId ∉ r_participants room →
     r_maxParticipants room ≤ length (r_participants room) →
     addParticipant fails now userId room s = (None, s, [])).
Proof.
  intros [[Hp Ha] Hlim]. unfold within_limit in Hlim. split.
  - unfold addParticipant.
    destruct (includes userId (r_participants room)) eqn:Hin; simpl.
    + apply includes_true in Hin. split_and!; try done.
    + apply includes_false in Hin.
      destruct (r_maxParticipants room <=? length (r_participants room))
        eqn:Hfull; [done|].
      apply Nat.leb_gt in Hfull. rewrite save_result.
      destruct (fails OpRoomSave); [done|].
      rewrite pre_save_id.
      2: { split; simpl; [apply elem_of_app; by left | done]. }
      split_and!; simpl; try done.
      * split; [split|]; simpl; [apply elem_of_app; by left | done |].
        unfold within_limit. simpl. rewrite length_app. simpl. lia.
      * apply elem_of_app. right. apply list_elem_of_here.
  - intros Hin Hfull. by apply addParticipant_full.
Qed.

(** X1.  [addParticipant] never takes a room over its limit.  On a room
    that satisfies the invariant, a call that returns gives a room that
    satisfies it and has the user among the participants: the same room,
    with nothing written, when the user was one already, and otherwise
    the room with the user appended, written to the store.  When the
    user is new and the room is at its limit the call throws and writes
    nothing. *)
Theorem addParticipant_within_limit (fails : StoreOp → bool) (now : nat)
    (userId : string) (room : RoomDoc) (s : Server) :
  invariant room →
  match addParticipant fails now userId room s with
  | (Some room', s', out) =>
      invariant room' ∧ userId ∈ r_participants room' ∧ out = []
      ∧ (userId ∈ r_participants room → room' = room ∧ s' = s)
      ∧ (userId ∉ r_participants room →
         r_participants room' = r_participants room ++ [userId]
         ∧ length (r_participants room) < r_maxParticipants room
         ∧ rooms s' = <[r_roomId room := room']> (rooms s))
  | (None, s', out) => s' = s ∧ out = [] ∧ userId ∉ r_participants room
  end
  ∧ (userId ∉ r_participants room →
     r_maxParticipants room ≤ length (r_participants room) →
     addParticipant fails now userId room s = (None, s, [])).
Proof. apply addParticipant_cases. Qed.

Lemma addParticipant_within_limit_witness :
  let room := mkRoomDoc "team" "Team" "" "u1" ["u1"] ["u1"] 2 0 in
  match addParticipant no_failure 1 "u2" room initial with
  | (Some room', s', out) =>
      invariant room' ∧ "u2" ∈ r_participants room' ∧ out = []
      ∧ ("u2" ∈ r_participants room → room' = room ∧ s' = initial)
      ∧ ("u2" ∉ r_participants room →
         r_participants room' = r_participants room ++ ["u2"]
         ∧ length (r_participants room) < r_maxParticipants room
         ∧ rooms s' = <[r_roomId room := room']> (rooms initial))
  | (None, s', out) => s' = initial ∧ out = [] ∧ "u2" ∉ r_participants room
  end
  ∧ ("u2" ∉ r_participants room →
     r_maxParticipants room ≤ length (r_participants room) →
     addParticipant no_failure 1 "u2" room initial = (None, initial, [])).
Proof.
  apply (addParticipant_within_limit no_failure 1 "u2"
           (mkRoomDoc "team" "Team" "" "u1" ["u1"] ["u1"] 2 0) initial).
  unfold invariant, creator_ok, within_limit. simpl.
  split_and!; [apply list_elem_of_here .. | lia].
Defined.

(** What [removeParticipant] saves: the user is filtered out of the
    participants and the admins, and the hook puts the creator back. *)
Lemma removeParticipant_result (fails : StoreOp → bool) (now : nat)
    (userId : string) (room room' : RoomDoc) (s s' : Server)
    (out : list Emit) :
  removeParticipant fails now userId room s = (Some room', s', out) →
  room' = pre_save
            (with_lastActivity now
               (with_admins (filter (λ id, id ≠ userId) (r_admins room))
                  (with_participants
                     (filter (λ id, id ≠ userId) (r_participants room))
                     room)))
  ∧ rooms s' = <[r_roomId room := room']> (rooms s)
  ∧ out = [].
Proof.
  unfold removeParticipant. rewrite save_result.
  destruct (fails OpRoomSave); [done|]. by intros [= <- <- <-].
Qed.

Lemma removeParticipant_other (fails : StoreOp → bool) (now : nat)
    (userId : string) (room room' : RoomDoc) (s s' : Server)
    (out : list Emit) :
  invariant room →
  userId ≠ r_createdBy room →
  removeParticipant fails now userId room s = (Some room', s', out) →
  (userId ∉ r_participants room') ∧ (userId ∉ r_admins room')
  ∧ (∀ u, u ≠ userId →
          (u ∈ r_participants room' ↔ u ∈ r_participants room)
          ∧ (u ∈ r_admins room' ↔ u ∈ r_admins room))
  ∧ invariant room'
  ∧ rooms s' !! r_roomId room = Some room'.
Proof.
  intros [[Hp Ha] Hlim] Hne (-> & Hrooms & _)%removeParticipant_result.
  assert (Hp' : r_createdBy room
                ∈ filter (λ id, id ≠ userId) (r_participants room)).
  { apply list_elem_of_filter. split; [congruence | done]. }
  assert (Ha' : r_createdBy room
                ∈ filter (λ id, id ≠ userId) (r_admins room)).
  { apply list_elem_of_filter. split; [congruence | done]. }
  rewrite pre_save_id by (split; simpl; done). simpl. split_and!.
  - intros [? _]%list_elem_of_filter. done.
  - intros [? _]%list_elem_of_filter. done.
  - intros u Hu. rewrite !list_elem_of_filter.
    split; (split; [by intros [_ ?] | by intros ?]).
  - split; [split; simpl; done|]. unfold within_limit in *. simpl.
    pose proof (length_filter (λ id, id ≠ userId) (r_participants room)). lia.
  - rewrite Hrooms. rewrite pre_save_id by (split; simpl; done).
    simpl. by rewrite lookup_insert_eq.
Qed.

(** X2.  [removeParticipant] of a user who is not the creator, on a room
    that satisfies the invariant: the room saved has the user neither
    among the participants nor among the admins, keeps everybody else,
    and satisfies the invariant. *)
Theorem removeParticipant_removes (fails : StoreOp → bool) (now : nat)
    (userId : string) (room room' : RoomDoc) (s s' : Server)
    (out : list Emit) :
  invariant room →
  userId ≠ r_createdBy room →
  removeParticipant fails now userId room s = (Some room', s', out) →
  (userId ∉ r_participants room') ∧ (userId ∉ r_admins room')
  ∧ (∀ u, u ≠ userId →
          (u ∈ r_participants room' ↔ u ∈ r_participants room)
          ∧ (u ∈ r_admins room' ↔ u ∈ r_admins room))
  ∧ invariant room'
  ∧ rooms s' !! r_roomId room = Some room'.
Proof. apply removeParticipant_other. Qed.

Lemma removeParticipant_removes_witness :
  let room := mkRoomDoc "team" "Team" "" "u1" ["u1"; "u2"] ["u1"; "u2"] 2 0 in
  let room' := mkRoomDoc "team" "Team" "" "u1" ["u1"] ["u1"] 2 9 in
  removeParticipant no_failure 9 "u2" room full_room_server
  = (Some room',
     mkServer [] ∅ ∅ (<["team" := room']> (rooms full_room_server)) [], [])
  ∧ ("u2" ∉ r_participants room') ∧ ("u2" ∉ r_admins room').
Proof.
  intros room room'.
  assert (Hrun : removeParticipant no_failure 9 "u2" room full_room_server
                 = (Some room',
                    mkServer [] ∅ ∅
                      (<["team" := room']> (rooms full_room_server)) [], []))
    by (by vm_compute).
  split; [exact Hrun|].
  destruct (removeParticipant_removes no_failure 9 "u2" room room'
              full_room_server
              (mkServer [] ∅ ∅
                 (<["team" := room']> (rooms full_room_server)) []) [])
    as (H1 & H2 & _); [| |exact Hrun|by split].
  - unfold invariant, creator_ok, within_limit. simpl.
    split_and!; [apply list_elem_of_here .. | lia].
  - discriminate.
Defined.

Lemma removeParticipant_creator (fails : StoreOp → bool) (now : nat)
    (room room' : RoomDoc) (s s' : Server) (out : list Emit) :
  invariant room →
  removeParticipant fails now (r_createdBy room) room s
  = (Some room', s', out) →
  RoomQueries.isParticipant (r_createdBy room) room' = true
  ∧ RoomQueries.isAdmin (r_createdBy room) room' = true
  ∧ (∀ u, u ∈ r_participants room' ↔ u ∈ r_participants room)
  ∧ invariant room'.
Proof.
  intros [[Hp Ha] Hlim] (-> & Hrooms & _)%removeParticipant_result.
  set (saved := pre_save _).
  assert (Hok : creator_ok saved) by apply pre_save_creator_ok.
  assert (Hcreator : r_createdBy saved = r_createdBy room) by done.
  assert (Hparts : r_participants saved
                   = filter (λ id, id ≠ r_createdBy room) (r_participants room)
                     ++ [r_createdBy room]).
  { subst saved. unfold pre_save. simpl.
    rewrite (proj2 (includes_false _ _)); [done|].
    intros [? _]%list_elem_of_filter. done. }
  destruct Hok as [Hp' Ha']. rewrite Hcreator in Hp', Ha'. split_and!.
  - by apply includes_true.
  - unfold RoomQueries.isAdmin. apply orb_true_iff. left.
    by apply includes_true.
  - intros u. rewrite Hparts, elem_of_app, list_elem_of_filter,
      list_elem_of_singleton.
    destruct (decide (u = r_createdBy room)) as [->|Hu].
    + split; [done | by right].
    + split; [by intros [[_ ?]|?] | by intros ?; left].
  - split; [split; by rewrite Hcreator|]. unfold within_limit in *.
    rewrite Hparts, length_app. simpl.
    change (r_maxParticipants saved) with (r_maxParticipants room).
    assert (length (filter (λ id, id ≠ r_createdBy room) (r_participants room))
            < length (r_participants room)); [|lia].
    apply (length_filter_lt _ _ (r_createdBy room)); [done|]. by intros ?.
Qed.

(** X3.  The creator cannot be taken out of a room: [removeParticipant]
    of the creator saves a room in which the creator is still a
    participant and an admin (the hook puts the creator back), with the
    other participants as before and within the limit. *)
Theorem removeParticipant_keeps_creator (fails : StoreOp → bool) (now : nat)
    (room room' : RoomDoc) (s s' : Server) (out : list Emit) :
  invariant room →
  removeParticipant fails now (r_createdBy room) room s
  = (Some room', s', out) →
  RoomQueries.isParticipant (r_createdBy room) room' = true
  ∧ RoomQueries.isAdmin (r_createdBy room) room' = true
  ∧ (∀ u, u ∈ r_participants room' ↔ u ∈ r_participants room)
  ∧ invariant room'.
Proof. apply removeParticipant_creator. Qed.

Lemma removeParticipant_keeps_creator_witness :
  let room := mkRoomDoc "solo" "Solo" "" "u1" ["u1"] ["u1"] 2 0 in
  let room' := mkRoomDoc "solo" "Solo" "" "u1" ["u1"] ["u1"] 2 9 in
  removeParticipant no_failure 9 "u1" room initial
  = (Some room', mkServer [] ∅ ∅ {["solo" := room']} [], [])
  ∧ RoomQueries.isParticipant "u1" room' = true.
Proof.
  intros room room'.
  assert (Hrun : removeParticipant no_failure 9 "u1" room initial
                 = (Some room', mkServer [] ∅ ∅ {["solo" := room']} [], []))
    by (by vm_compute).
  split; [exact Hrun|].
  destruct (removeParticipant_keeps_creator no_failure 9 room room'
              initial (mkServer [] ∅ ∅ {["solo" := room']} []) [])
    as (H1 & _); [|exact Hrun|exact H1].
  unfold invariant, creator_ok, within_limit. simpl.
  split_and!; [apply list_elem_of_here .. | lia].
Defined.

End RoomMethods.

Section RoomAdmins.
Import Room.

(** X4.  [addAdmin] makes admins of participants only.  For a user who is
    not a participant it throws and writes nothing.  For a participant
    of a room that satisfies the invariant, a call that returns gives a
    room in which the user is an admin, with the same participants,
    still satisfying the invariant; when the user was an admin already
    the room is returned as it is and nothing is written. *)
Theorem addAdmin_effect (fails : StoreOp → bool) (userId : string)
    (room : RoomDoc) (s : Server) :
  (userId ∉ r_participants room → addAdmin fails userId room s = (None, s, []))
  ∧ (invariant room → userId ∈ r_participants room →
     match addAdmin fails userId room s with
     | (Some room', s', out) =>
         RoomQueries.isAdmin userId room' = true
         ∧ r_participants room' = r_participants room
         ∧ invariant room'
         ∧ (userId ∈ r_admins room → room' = room ∧ s' = s)
         ∧ (userId ∉ r_admins room →
            r_admins room' = r_admins room ++ [userId]
            ∧ rooms s' = <[r_roomId room := room']> (rooms s))
     | (None, s', out) => s' = s ∧ out = []
     end).
Proof.
  split.
  - intros Hin%includes_false. unfold addAdmin. by rewrite Hin.
  - intros [[Hp Ha] Hlim] Hin. unfold addAdmin.
    rewrite (proj2 (includes_true _ _) Hin). simpl.
    destruct (includes userId (r_admins room)) eqn:Hadm; simpl.
    + apply includes_true in Hadm. split_and!; try done.
      unfold RoomQueries.isAdmin. by rewrite (proj2 (includes_true _ _) Hadm).
    + apply includes_false in Hadm. rewrite save_result.
      destruct (fails OpRoomSave); [done|].
      rewrite pre_save_id.
      2: { split; simpl; [done | apply elem_of_app; by left]. }
      simpl. split_and!; try done.
      * unfold RoomQueries.isAdmin. simpl. apply orb_true_iff. left.
        apply includes_true, elem_of_app. right. apply list_elem_of_here.
      * split; [split; simpl; [done | apply elem_of_app; by left] | done].
Qed.

(** X5.  [removeAdmin] never removes the creator: for the creator it
    throws and writes nothing.  For another user, on a room in which the
    creator is a participant and an admin, a call that returns saves a
    room in which the user is no admin any more ([isAdmin] is false),
    the creator still is, and the participants are as before. *)
Theorem removeAdmin_effect (fails : StoreOp → bool) (userId : string)
    (room : RoomDoc) (s : Server) :
  (userId = r_createdBy room →
   removeAdmin fails userId room s = (None, s, []))
  ∧ (creator_ok room → userId ≠ r_createdBy room →
     match removeAdmin fails userId room s with
     | (Some room', s', out) =>
         RoomQueries.isAdmin userId room' = false
         ∧ RoomQueries.isAdmin (r_createdBy room) room' = true
         ∧ (∀ u, u ≠ userId → (u ∈ r_admins room' ↔ u ∈ r_admins room))
         ∧ r_participants room' = r_participants room
         ∧ rooms s' = <[r_roomId room := room']> (rooms s)
     | (None, s', out) => s' = s ∧ out = []
     end).
Proof.
  split.
  - intros ->. unfold removeAdmin. by rewrite bool_decide_eq_true_2.
  - intros [Hp Ha] Hne. unfold removeAdmin.
    rewrite bool_decide_eq_false_2 by done. rewrite save_result.
    destruct (fails OpRoomSave); [done|].
    rewrite pre_save_id.
    2: { split; simpl; [done|]. apply list_elem_of_filter. split; [congruence|done]. }
    simpl. split_and!; try done.
    + unfold RoomQueries.isAdmin. simpl. apply orb_false_iff. split.
      * apply includes_false. by intros [? _]%list_elem_of_filter.
      * apply bool_decide_eq_false_2. congruence.
    + unfold RoomQueries.isAdmin. simpl. apply orb_true_iff. right.
      by apply bool_decide_eq_true_2.
    + intros u Hu. rewrite list_elem_of_filter.
      split; [by intros [_ ?] | by intros ?].
Qed.

(** X6.  The save hook puts the creator among the participants and the
    admins, adds nobody else, and running it again changes nothing. *)
Theorem pre_save_settles (room : RoomDoc) :
  creator_ok (pre_save room)
  ∧ pre_save (pre_save room) = pre_save room
  ∧ (∀ u, u ∈ r_participants (pre_save room) ↔
          u ∈ r_participants room ∨ u = r_createdBy room)
  ∧ (∀ u, u ∈ r_admins (pre_save room) ↔
          u ∈ r_admins room ∨ u = r_createdBy room).
Proof.
  split_and!.
  - apply pre_save_creator_ok.
  - apply pre_save_id, pre_save_creator_ok.
  - intros u. unfold pre_save. simpl.
    destruct (includes _ (r_participants room)) eqn:Hin.
    + apply includes_true in Hin. split; [by left|]. by intros [?| ->].
    + rewrite elem_of_app, list_elem_of_singleton. done.
  - intros u. unfold pre_save. simpl.
    destruct (includes _ (r_admins room)) eqn:Hin.
    + apply includes_true in Hin. split; [by left|]. by intros [?| ->].
    + rewrite elem_of_app, list_elem_of_singleton. done.
Qed.

End RoomAdmins.

Lemma addAdmin_effect_witness :
  Room.addAdmin no_failure "u3" full_room full_room_server
  = (None, full_room_server, [])
  ∧ match Room.addAdmin no_failure "u2" full_room full_room_server with
    | (Some room', _, _) =>
        RoomQueries.isAdmin "u2" room' = true
        ∧ r_admins room' = ["u1"; "u2"]
    | _ => False
    end.
Proof.
  destruct (addAdmin_effect no_failure "u3" full_room full_room_server)
    as [Hout _].
  destruct (addAdmin_effect no_failure "u2" full_room full_room_server)
    as [_ Hin].
  split.
  - apply Hout. apply (bool_decide_unpack _). by vm_compute.
  - assert (Hinv : Room.invariant full_room).
    { unfold Room.invariant, Room.creator_ok, Room.within_limit. simpl.
      split_and!; [apply list_elem_of_here .. | lia]. }
    specialize (Hin Hinv ltac:(apply (bool_decide_unpack _); by vm_compute)).
    vm_compute in Hin |- *. destruct Hin as (H1 & _). split; [exact H1 | done].
Defined.

Lemma removeAdmin_effect_witness :
  let room := mkRoomDoc "team" "Team" "" "u1" ["u1"; "u2"] ["u1"; "u2"] 2 0 in
  Room.removeAdmin no_failure "u1" room full_room_server
  = (None, full_room_server, [])
  ∧ match Room.removeAdmin no_failure "u2" room full_room_server with
    | (Some room', _, _) =>
        RoomQueries.isAdmin "u2" room' = false ∧ r_admins room' = ["u1"]
    | _ => False
    end.
Proof.
  intros room.
  destruct (removeAdmin_effect no_failure "u1" room full_room_server)
    as [Hcreator _].
  destruct (removeAdmin_effect no_failure "u2" room full_room_server)
    as [_ Hother].
  split.
  - by apply Hcreator.
  - assert (Hok : Room.creator_ok room).
    { unfold Room.creator_ok. simpl. split; apply list_elem_of_here. }
    specialize (Hother Hok ltac:(discriminate)).
    vm_compute in Hother |- *. destruct Hother as (H1 & _).
    split; [exact H1 | done].
Defined.

(** ** Message queries *)

Section MessageOrder.
Import Store.

Lemma insert_desc_perm (m : MessageDoc) (l : list MessageDoc) :
  insert_desc m l ≡ₚ m :: l.
Proof.
  induction l as [|x l IH]; simpl; [done|].
  destruct (m_timestamp x <? m_timestamp m); [done|].
  rewrite IH. apply Permutation_swap.
Qed.

Lemma sort_desc_perm (l : list MessageDoc) : sort_desc l ≡ₚ l.
Proof.
  unfold sort_desc. induction l as [|x l IH]; simpl; [done|].
  by rewrite insert_desc_perm, IH.
Qed.

Lemma insert_desc_sorted (m : MessageDoc) (l : list MessageDoc) :
  StronglySorted newer_first l → StronglySorted newer_first (insert_desc m l).
Proof.
  induction 1 as [|x l Hl IH Hx]; simpl.
  - repeat constructor.
  - destruct (m_timestamp x <? m_timestamp m) eqn:Hlt.
    + apply Nat.ltb_lt in Hlt. constructor; [by constructor|].
      constructor; [unfold newer_first; lia|].
      eapply Forall_impl; [exact Hx|]. unfold newer_first. intros; simpl in *; lia.
    + apply Nat.ltb_ge in Hlt. constructor; [done|].
      rewrite insert_desc_perm. constructor; [done | done].
Qed.

Lemma sort_desc_sorted (l : list MessageDoc) :
  StronglySorted newer_first (sort_desc l).
Proof.
  unfold sort_desc. induction l as [|x l IH]; simpl; [constructor|].
  by apply insert_desc_sorted.
Qed.

Lemma StronglySorted_take {A} (R : relation A) (n : nat) (l : list A) :
  StronglySorted R l → StronglySorted R (take n l).
Proof.
  intros H. rewrite <- (take_drop n l) in H.
  by apply StronglySorted_app_1_l in H.
Qed.

(** X7.  The recent messages of a room, as [join-room] asks for them:
    when the query is not rejected it returns at most 50 documents, each
    a stored message of that room, the newest first, all the messages of
    the room when there are at most 50, and it writes and emits
    nothing; when it is rejected it throws and changes nothing. *)
Theorem find_recent_result (fails : StoreOp → bool) (roomId : string)
    (s : Server) :
  match find_recent fails roomId s with
  | (Some l, s', out) =>
      fails OpMessageFind = false ∧ s' = s ∧ out = []
      ∧ length l ≤ 50
      ∧ StronglySorted newer_first l.*1
      ∧ (∀ m, m ∈ l.*1 → m ∈ messages s ∧ m_roomId m = Some roomId)
      ∧ (length (filter (λ m, m_roomId m = Some roomId) (messages s)) ≤ 50 →
         ∀ m, m ∈ messages s → m_roomId m = Some roomId → m ∈ l.*1)
  | (None, s', out) => fails OpMessageFind = true ∧ s' = s ∧ out = []
  end.
Proof.
  async_unfold. destruct (fails OpMessageFind); simpl; [done|].
  set (found := filter (λ m, m_roomId m = Some roomId) (messages s)).
  assert (Hfst : (populated <$> take 50 (sort_desc found)).*1
                 = take 50 (sort_desc found)).
  { rewrite <- list_fmap_compose. apply list_fmap_id. }
  rewrite Hfst. split_and!; try done.
  - rewrite length_fmap, length_take. lia.
  - apply StronglySorted_take, sort_desc_sorted.
  - intros m Hm%subseteq_take. rewrite sort_desc_perm in Hm.
    apply list_elem_of_filter in Hm as [? ?]. done.
  - intros Hfew m Hm Hroom. rewrite take_ge.
    + rewrite sort_desc_perm. by apply list_elem_of_filter.
    + by rewrite sort_desc_perm.
Qed.

Lemma find_recent_result_witness :
  match find_recent no_failure "general" two_in_general with
  | (Some l, _, _) =>
      l.*1 = [mkMessageDoc 1 "later" "bob" (Some "general") None "text" 7;
              mkMessageDoc 0 "hello" "alice" (Some "general") None "text" 5]
      ∧ length l ≤ 50 ∧ StronglySorted newer_first l.*1
  | _ => False
  end.
Proof.
  pose proof (find_recent_result no_failure "general" two_in_general) as H.
  destruct (find_recent no_failure "general" two_in_general)
    as [[[l|] s'] out] eqn:Hrun.
  - destruct H as (_ & _ & _ & Hlen & Hsorted & _).
    split_and!; [|done|done].
    assert (Hl : (λ r, match r with
                       | (Some l, _, _) => l.*1
                       | _ => []
                       end) (find_recent no_failure "general" two_in_general)
                 = [mkMessageDoc 1 "later" "bob" (Some "general") None "text" 7;
                    mkMessageDoc 0 "hello" "alice" (Some "general") None
                      "text" 5]) by (by vm_compute).
    by rewrite Hrun in Hl.
  - by destruct H as [H _].
Defined.

End MessageOrder.

(** ** What the handlers keep of the store *)

Lemma store_grows_refl (s : Server) : store_grows s s.
Proof.
  split_and!; [done | done |]. intros k room Hk. by exists room.
Qed.

Lemma store_grows_trans (s1 s2 s3 : Server) :
  store_grows s1 s2 → store_grows s2 s3 → store_grows s1 s3.
Proof.
  intros (Hm1 & Hu1 & Hr1) (Hm2 & Hu2 & Hr2). split_and!.
  - by etrans.
  - by etrans.
  - intros k room Hk.
    destruct (Hr1 k room Hk) as (room2 & Hk2 & Hc2 & Hl2 & Hp2).
    destruct (Hr2 k room2 Hk2) as (room3 & Hk3 & Hc3 & Hl3 & Hp3).
    exists room3. split_and!; [done | congruence | congruence | by etrans].
Qed.

(** Saving a room that extends the stored one loses nothing. *)
Lemma rooms_insert_grows (rs : gmap string RoomDoc) (room' : RoomDoc)
    (k : string) (room : RoomDoc) :
  (∀ old, rs !! r_roomId room' = Some old →
          r_createdBy room' = r_createdBy old
          ∧ r_maxParticipants room' = r_maxParticipants old
          ∧ r_participants old ⊆ r_participants room') →
  rs !! k = Some room →
  ∃ room'', <[r_roomId room' := room']> rs !! k = Some room''
            ∧ r_createdBy room'' = r_createdBy room
            ∧ r_maxParticipants room'' = r_maxParticipants room
            ∧ r_participants room ⊆ r_participants room''.
Proof.
  intros Hold Hk. destruct (decide (r_roomId room' = k)) as [<-|Hne].
  - exists room'. rewrite lookup_insert_eq.
    destruct (Hold room Hk) as (? & ? & ?). done.
  - exists room. by rewrite lookup_insert_ne.
Qed.

Lemma rooms_insert_keyed (rs : gmap string RoomDoc) (room' : RoomDoc) :
  (∀ k room, rs !! k = Some room → r_roomId room = k) →
  ∀ k room, <[r_roomId room' := room']> rs !! k = Some room →
            r_roomId room = k.
Proof.
  intros Hkeyed k room. destruct (decide (r_roomId room' = k)) as [<-|Hne].
  - rewrite lookup_insert_eq. by intros [= <-].
  - rewrite lookup_insert_ne by done. apply Hkeyed.
Qed.

Lemma pre_save_participants_subseteq (room : RoomDoc) :
  r_participants room ⊆ r_participants (Room.pre_save room).
Proof.
  unfold Room.pre_save. simpl. destruct (includes _ _); [done|].
  intros u Hu. apply elem_of_app. by left.
Qed.

(** The store after a join: the messages are untouched, at most one
    user document is written, and at most one room is written, which is
    either the room found with the user appended or a new room. *)
Lemma join_room_store_shape (sid : string) (now : nat)
    (fails : StoreOp → bool) (userData : JoinData) (s : Server) :
  let s' := (run (join_room sid now fails userData) s).1 in
  let userId := jd_userId userData in
  let roomId := default "general" (jd_roomId userData) in
  messages s' = messages s
  ∧ (users s' = users s
     ∨ users s' = <[userId := mkUserDoc (JsString.trim (jd_username userData))
                                true now (Some sid)]> (users s))
  ∧ (rooms s' = rooms s
     ∨ (∃ found, rooms s !! JsString.trim roomId = Some found
                 ∧ rooms s' =
                   <[r_roomId found :=
                       Room.pre_save
                         (Room.with_participants
                            (r_participants found ++ [userId]) found)]>
                     (rooms s))
     ∨ (rooms s !! JsString.trim roomId = None
        ∧ rooms s' =
          <[JsString.trim roomId :=
              Room.pre_save
                (Room.new roomId
                   (if bool_decide (roomId = "general")
                    then "General Chat" else roomId)
                   "Real-time chat room" userId now)]> (rooms s))).
Proof.
  async_unfold.
  destruct (JsString.falsy (jd_userId userData)
            || JsString.falsy (jd_username userData)); simpl.
  { split_and!; [done | by left | by left]. }
  destruct (fails OpUserUpsert); simpl.
  { split_and!; [done | by left | by left]. }
  destruct (fails OpRoomFind); simpl.
  { split_and!; [done | by right | by left]. }
  destruct (rooms s !! JsString.trim (default "general" (jd_roomId userData)))
    as [found|] eqn:Hfound; simpl.
  - destruct (includes (jd_userId userData) (r_participants found)); simpl.
    + async_cases; (split_and!; [done | by right | by left]).
    + destruct (fails OpRoomSave); simpl.
      { split_and!; [done | by right | by left]. }
      async_cases;
        (split_and!; [done | by right | right; left; by exists found]).
  - destruct (fails OpRoomCreate); cbn -[Room.pre_save JsString.trim].
    { split_and!; [done | by right | by left]. }
    set (created := Room.pre_save _).
    assert (includes (jd_userId userData) (r_participants created) = true)
      as ->.
    { apply includes_true. subst created. vm_compute r_participants.
      apply list_elem_of_here. }
    cbn -[Room.pre_save JsString.trim].
    repeat (case_match; cbn -[Room.pre_save JsString.trim] in *; simplify_eq);
      (split_and!; [done | by right | right; right; done]).
Qed.

Lemma join_room_store (sid : string) (now : nat) (fails : StoreOp → bool)
    (userData : JoinData) (s : Server) :
  rooms_keyed s →
  let s' := (run (join_room sid now fails userData) s).1 in
  rooms_keyed s' ∧ store_grows s s'.
Proof.
  intros Hkeyed s'.
  destruct (join_room_store_shape sid now fails userData s)
    as (Hm & Hu & Hr). fold s' in Hm, Hu, Hr.
  assert (Husers : dom (users s) ⊆ dom (users s')).
  { destruct Hu as [-> | ->]; [done|]. rewrite dom_insert_L.
    apply union_subseteq_r. }
  unfold rooms_keyed, store_grows. rewrite Hm.
  destruct Hr as [-> | [(found & Hfound & ->) | (Hnone & ->)]].
  - split; [exact Hkeyed|]. split_and!; [done | done |].
    intros k room Hk. by exists room.
  - set (saved := Room.pre_save _).
    assert (Hnew : ∀ old, rooms s !! r_roomId saved = Some old →
              r_createdBy saved = r_createdBy old
              ∧ r_maxParticipants saved = r_maxParticipants old
              ∧ r_participants old ⊆ r_participants saved).
    { intros old Hold. change (r_roomId saved) with (r_roomId found) in Hold.
      rewrite (Hkeyed _ _ Hfound) in Hold.
      assert (old = found) as -> by congruence. split_and!; [done..|].
      etrans; [|apply pre_save_participants_subseteq]. simpl.
      intros u Hu'. apply elem_of_app. by left. }
    split; [apply (rooms_insert_keyed (rooms s) saved Hkeyed)|].
    split_and!; [done | done |]. intros k room Hk.
    apply (rooms_insert_grows (rooms s) saved k room Hnew Hk).
  - set (created := Room.pre_save _).
    assert (Hnew : ∀ old, rooms s !! r_roomId created = Some old →
              r_createdBy created = r_createdBy old
              ∧ r_maxParticipants created = r_maxParticipants old
              ∧ r_participants old ⊆ r_participants created).
    { intros old Hold. simpl in Hold. congruence. }
    split; [apply (rooms_insert_keyed (rooms s) created Hkeyed)|].
    split_and!; [done | done |]. intros k room Hk.
    apply (rooms_insert_grows (rooms s) created k room Hnew Hk).
Qed.

Lemma send_message_store (sid : string) (now : nat) (fails : StoreOp → bool)
    (messageData : MessageData) (s : Server) :
  let s' := (run (send_message sid now fails messageData) s).1 in
  users s' = users s ∧ rooms s' = rooms s
  ∧ (messages s' = messages s ∨ ∃ m, messages s' = messages s ++ [m]).
Proof.
  async_unfold. async_cases;
    (split_and!; [done | done | first [by left | right; by eexists]]).
Qed.

Lemma private_message_store (sid : string) (now : nat)
    (fails : StoreOp → bool) (data : PrivateData) (s : Server) :
  let s' := (run (private_message sid now fails data) s).1 in
  users s' = users s ∧ rooms s' = rooms s
  ∧ (messages s' = messages s ∨ ∃ m, messages s' = messages s ++ [m]).
Proof.
  async_unfold. async_cases;
    (split_and!; [done | done | first [by left | right; by eexists]]).
Qed.

Lemma on_disconnect_store (sid : string) (now : nat) (fails : StoreOp → bool)
    (s : Server) :
  let s' := (run (on_disconnect sid now fails) s).1 in
  messages s' = messages s ∧ rooms s' = rooms s
  ∧ dom (users s') = dom (users s).
Proof.
  async_unfold. async_cases; (split_and!; [done | done |]); try done.
  apply dom_alter_L.
Qed.

Lemma step_store (s : Server) (a : Action) :
  rooms_keyed s → rooms_keyed (step s a).1 ∧ store_grows s (step s a).1.
Proof.
  intros Hkeyed. unfold step, handle. destruct (a_input a).
  - split; [exact Hkeyed|]. split_and!; [done | done |].
    intros k room Hk. by exists room.
  - by apply join_room_store.
  - destruct (send_message_store (a_sid a) (a_now a) (a_fails a)
                messageData s) as (Hu & Hr & Hm).
    unfold rooms_keyed, store_grows. rewrite Hu, Hr.
    split; [exact Hkeyed|]. split_and!; [|done|].
    + destruct Hm as [-> | [m ->]]; [done | by apply prefix_app_r].
    + intros k room Hk. by exists room.
  - unfold typing_start. rewrite typing_memory.
    split; [exact Hkeyed | apply store_grows_refl].
  - unfold typing_stop. rewrite typing_memory.
    split; [exact Hkeyed | apply store_grows_refl].
  - destruct (private_message_store (a_sid a) (a_now a) (a_fails a) data s)
      as (Hu & Hr & Hm).
    unfold rooms_keyed, store_grows. rewrite Hu, Hr.
    split; [exact Hkeyed|]. split_and!; [|done|].
    + destruct Hm as [-> | [m ->]]; [done | by apply prefix_app_r].
    + intros k room Hk. by exists room.
  - destruct (on_disconnect_store (a_sid a) (a_now a) (a_fails a) s)
      as (Hm & Hr & Hu).
    unfold rooms_keyed, store_grows. rewrite Hm, Hr, Hu.
    split; [exact Hkeyed|]. split_and!; [done | done |].
    intros k room Hk. by exists room.
  - cbv iota.
    destruct (no_payload_memory (a_sid a) (a_now a) (a_fails a) listener s)
      as [? ->]. split; [exact Hkeyed | apply store_grows_refl].
Qed.

Lemma rooms_keyed_initial : rooms_keyed initial.
Proof. intros k room Hk. simpl in Hk. by rewrite lookup_empty in Hk. Qed.

Lemma run_all_store (s : Server) (tr : list Action) :
  rooms_keyed s →
  store_grows s (run_all s tr) ∧ rooms_keyed (run_all s tr).
Proof.
  revert s. induction tr as [|a tr IH]; intros s Hkeyed; simpl.
  - split; [apply store_grows_refl | done].
  - destruct (step_store s a Hkeyed) as [Hkeyed' Hgrows].
    destruct (IH _ Hkeyed') as [Hgrows' Hkeyed''].
    split; [by eapply store_grows_trans | done].
Qed.

(** X9.  The socket handlers never take anything out of the store.
    Whatever events arrive, in whatever state of the connections and
    however the store calls fail, the messages stored before are the
    first messages stored after, every user stored before is stored
    after, and every room stored before is stored after with the same
    creator, the same limit and at least the same participants; rooms
    stay stored under their [roomId]. *)
Theorem store_never_shrinks (s : Server) (tr : list Action) :
  rooms_keyed s →
  store_grows s (run_all s tr) ∧ rooms_keyed (run_all s tr).
Proof. apply run_all_store. Qed.

Lemma store_never_shrinks_witness :
  let tr := two_join_one_leaves
            ++ [mkAction "c2" (SendMessage (mkMessageData "hello" None))
                  5 no_failure;
                mkAction "c2" Disconnect 6 user_offline_fails] in
  store_grows initial (run_all initial tr)
  ∧ rooms_keyed (run_all initial tr).
Proof.
  apply store_never_shrinks. apply rooms_keyed_initial.
Defined.

(** ** Invariants of the reachable states *)

Lemma falsy_false (v : string) : JsString.falsy v = false ↔ v ≠ "".
Proof. by destruct v. Qed.

Lemma join_valid_named (now : nat) (userData : JoinData) :
  join_valid userData = true →
  s_userId (joined_session now userData) ≠ ""
  ∧ s_username (joined_session now userData) ≠ "".
Proof.
  unfold join_valid. intros [H1 H2]%negb_true_iff%orb_false_iff.
  split; by apply falsy_false.
Qed.

Lemma step_sessions_named (s : Server) (a : Action) :
  sessions_named s → sessions_named (step s a).1.
Proof.
  intros Hinv c sess. unfold step, handle. destruct (a_input a).
  - apply Hinv.
  - destruct (join_room_memory (a_sid a) (a_now a) (a_fails a) userData s)
      as [-> _].
    destruct (join_valid userData) eqn:Hvalid; [|apply Hinv].
    destruct (decide (a_sid a = c)) as [<-|Hne].
    + rewrite JsMapFacts.get_set_eq. intros [= <-].
      by apply join_valid_named.
    + rewrite JsMapFacts.get_set_ne by done. apply Hinv.
  - destruct (send_message_memory (a_sid a) (a_now a) (a_fails a)
                messageData s) as [-> _]. apply Hinv.
  - unfold typing_start. rewrite typing_memory. apply Hinv.
  - unfold typing_stop. rewrite typing_memory. apply Hinv.
  - destruct (private_message_memory (a_sid a) (a_now a) (a_fails a)
                data s) as [-> _]. apply Hinv.
  - destruct (on_disconnect_memory (a_sid a) (a_now a) (a_fails a) s)
      as [-> _].
    repeat case_match; try apply Hinv.
    destruct (decide (a_sid a = c)) as [<-|Hne].
    + by rewrite JsMapFacts.get_delete_eq.
    + rewrite JsMapFacts.get_delete_ne by done. apply Hinv.
  - cbv iota.
    destruct (no_payload_memory (a_sid a) (a_now a) (a_fails a) listener s)
      as [? ->]. apply Hinv.
Qed.

Lemma step_own_room (s : Server) (a : Action) :
  admissible s a → own_room s → own_room (step s a).1.
Proof.
  intros Hadm Hinv c rs. unfold step, handle, admissible in *.
  destruct (a_input a).
  - simpl. unfold SocketIO.connect.
    destruct (decide (a_sid a = c)) as [<-|Hne].
    + rewrite lookup_insert_eq. intros [= <-]. by apply elem_of_singleton.
    + rewrite lookup_insert_ne by done. apply Hinv.
  - destruct (join_room_memory (a_sid a) (a_now a) (a_fails a) userData s)
      as [_ ->].
    destruct (join_valid userData); [|apply Hinv]. unfold SocketIO.join.
    destruct (decide (a_sid a = c)) as [<-|Hne].
    + rewrite lookup_insert_eq. intros [= <-]. destruct Hadm as [rs0 Hrs0].
      rewrite Hrs0. simpl. apply elem_of_union_r. by apply (Hinv _ _ Hrs0).
    + rewrite lookup_insert_ne by done. apply Hinv.
  - destruct (send_message_memory (a_sid a) (a_now a) (a_fails a)
                messageData s) as [_ ->]. apply Hinv.
  - unfold typing_start. rewrite typing_memory. apply Hinv.
  - unfold typing_stop. rewrite typing_memory. apply Hinv.
  - destruct (private_message_memory (a_sid a) (a_now a) (a_fails a)
                data s) as [_ ->]. apply Hinv.
  - destruct (on_disconnect_memory (a_sid a) (a_now a) (a_fails a) s)
      as [_ ->]. unfold SocketIO.leaveAll.
    destruct (decide (a_sid a = c)) as [<-|Hne].
    + by rewrite lookup_delete_eq.
    + rewrite lookup_delete_ne by done. apply Hinv.
  - cbv iota.
    destruct (no_payload_memory (a_sid a) (a_now a) (a_fails a) listener s)
      as [? ->]. apply Hinv.
Qed.

Lemma run_all_reachable_invariants (s : Server) (tr : list Action) :
  all_ok admissible s tr →
  sessions_named s ∧ own_room s →
  sessions_named (run_all s tr) ∧ own_room (run_all s tr).
Proof.
  revert s. induction tr as [|a tr IH]; intros s Hok [H1 H2]; simpl; [done|].
  destruct Hok as [Ha Hok]. apply IH; [done|].
  split; [by apply step_sessions_named | by apply step_own_room].
Qed.

Lemma reachable_sessions_named (s : Server) : reachable s → sessions_named s.
Proof.
  intros (tr & Hok & ->).
  apply (run_all_reachable_invariants initial tr Hok). split.
  - intros c sess Hc. done.
  - intros c rs Hc. simpl in Hc. by rewrite lookup_empty in Hc.
Qed.

Lemma reachable_own_room (s : Server) : reachable s → own_room s.
Proof.
  intros (tr & Hok & ->).
  apply (run_all_reachable_invariants initial tr Hok). split.
  - intros c sess Hc. done.
  - intros c rs Hc. simpl in Hc. by rewrite lookup_empty in Hc.
Qed.

Lemma reachable_NoDup (s : Server) : reachable s → NoDup (activeUsers s).*1.
Proof. intros (tr & Hok & ->). apply run_all_NoDup. apply NoDup_nil_2. Qed.

(** X10.  In every state the server can reach: a socket has at most one
    session; every session carries a non-empty user id and user name; a
    connected socket that holds a session is reached by the emits to the
    room of that session and by the emits to the room of its own id; and
    every stored room is stored under its [roomId]. *)
Theorem reachable_invariants (s : Server) :
  reachable s →
  NoDup (activeUsers s).*1
  ∧ (∀ c sess, JsMap.get c (activeUsers s) = Some sess →
       s_userId sess ≠ "" ∧ s_username sess ≠ ""
       ∧ (SocketIO.connected c (sids s) →
          c ∈ SocketIO.members (s_roomId sess) (sids s)))
  ∧ (∀ c, SocketIO.connected c (sids s) → c ∈ SocketIO.members c (sids s))
  ∧ rooms_keyed s.
Proof.
  intros Hr. split_and!.
  - by apply reachable_NoDup.
  - intros c sess Hc.
    destruct (reachable_sessions_named s Hr c sess Hc) as [? ?].
    split_and!; [done | done |]. intros Hconn.
    by apply reachable_session_member.
  - intros c [rs Hrs]. apply elem_of_members. exists rs. split; [done|].
    by apply (reachable_own_room s Hr c rs).
  - destruct Hr as (tr & _ & ->).
    apply (run_all_store initial tr rooms_keyed_initial).
Qed.

Lemma alice_and_bob_reachable : reachable alice_and_bob.
Proof.
  exists [mkAction "c1" Connect 0 no_failure;
          mkAction "c1" (JoinRoom (mkJoinData "alice" "Alice" None))
            1 no_failure;
          mkAction "c2" Connect 2 no_failure;
          mkAction "c2" (JoinRoom (mkJoinData "bob" "Bob" None)) 3 no_failure].
  split; [|reflexivity]. simpl. unfold admissible, SocketIO.connected. simpl.
  split_and!; try done; try (eexists; by vm_compute); by vm_compute.
Qed.

Lemma reachable_invariants_witness :
  NoDup (activeUsers alice_and_bob).*1
  ∧ (∀ c sess, JsMap.get c (activeUsers alice_and_bob) = Some sess →
       s_userId sess ≠ "" ∧ s_username sess ≠ ""
       ∧ (SocketIO.connected c (sids alice_and_bob) →
          c ∈ SocketIO.members (s_roomId sess) (sids alice_and_bob)))
  ∧ (∀ c, SocketIO.connected c (sids alice_and_bob) →
          c ∈ SocketIO.members c (sids alice_and_bob))
  ∧ rooms_keyed alice_and_bob.
Proof. apply reachable_invariants. apply alice_and_bob_reachable. Defined.

(** ** More of the socket handlers *)

Lemma get_Some_elem {V} (k : string) (v : V) (m : list (string * V)) :
  JsMap.get k m = Some v → (k, v) ∈ m.
Proof.
  induction m as [|[k0 v0] m IH]; simpl; [done|].
  destruct (decide (k = k0)) as [->|Hne].
  - intros [= ->]. apply list_elem_of_here.
  - intros H. apply list_elem_of_further. by apply IH.
Qed.

Lemma find_Some {V} (p : string * V → bool) (m : list (string * V))
    (e : string * V) :
  JsMap.find p m = Some e →
  p e = true
  ∧ ∃ before after, m = before ++ e :: after
                     ∧ Forall (λ x, p x = false) before.
Proof.
  induction m as [|x m IH]; simpl; [done|].
  destruct (p x) eqn:Hx.
  - intros [= ->]. split; [done|]. by exists [], m.
  - intros (He & before & after & -> & Hbefore)%IH. split; [done|].
    exists (x :: before), after. split; [done|]. by constructor.
Qed.

(** X11.  Requests that are refused before anything happens.  A
    [send-message] on a connection without a session gets the error
    "User not authenticated", whatever its payload, even none.  A
    [join-room] whose payload lacks the user id or the user name gets
    "Invalid user data"; a [join-room] without payload gets "Failed to
    join room", because the payload is taken apart before it is
    looked at.  Each error goes to the requesting socket only, and the
    state stays as it was (no session is stored, no room is joined, no
    store call is made). *)
Theorem refused_requests (s : Server) (sid : string) (now : nat)
    (fails : StoreOp → bool) :
  (∀ payload,
     JsMap.get sid (activeUsers s) = None →
     run (on_send_message sid now fails payload) s
     = (s, [mkEmit {[sid]} (ev_error "User not authenticated")]))
  ∧ (∀ userData,
       jd_userId userData = "" ∨ jd_username userData = "" →
       run (on_join_room sid now fails (Some userData)) s
       = (s, [mkEmit {[sid]} (ev_error "Invalid user data")]))
  ∧ run (on_join_room sid now fails None) s
    = (s, [mkEmit {[sid]} (ev_error "Failed to join room")]).
Proof.
  split_and!.
  - intros payload Hnone. async_unfold. by rewrite Hnone.
  - intros userData Hmissing. async_unfold.
    assert (JsString.falsy (jd_userId userData)
            || JsString.falsy (jd_username userData) = true) as ->; [|done].
    destruct Hmissing as [-> | ->]; [done|]. apply orb_true_r.
  - done.
Qed.

Lemma refused_requests_witness :
  run (on_send_message "c9" 7 no_failure (Some (mkMessageData "hi" None)))
    alice_joined
  = (alice_joined, [mkEmit {["c9"]} (ev_error "User not authenticated")])
  ∧ run (on_send_message "c9" 7 no_failure None) alice_joined
    = (alice_joined, [mkEmit {["c9"]} (ev_error "User not authenticated")])
  ∧ run (on_join_room "c9" 7 no_failure (Some (mkJoinData "" "Zed" None)))
      alice_joined
    = (alice_joined, [mkEmit {["c9"]} (ev_error "Invalid user data")])
  ∧ run (on_join_room "c9" 7 no_failure None) alice_joined
    = (alice_joined, [mkEmit {["c9"]} (ev_error "Failed to join room")]).
Proof.
  destruct (refused_requests alice_joined "c9" 7 no_failure)
    as (Hsend & Hjoin & Hnone).
  split_and!; [by apply Hsend | by apply Hsend | apply Hjoin; by left
              | exact Hnone].
Defined.

Lemma join_room_no_failure (s : Server) (sid : string) (now : nat)
    (fails : StoreOp → bool) (userData : JoinData) :
  join_valid userData = true →
  (∀ op, fails op = false) →
  let userId := jd_userId userData in
  let username := jd_username userData in
  let roomId := default "general" (jd_roomId userData) in
  let au := JsMap.set sid (joined_session now userData) (activeUsers s) in
  let a := SocketIO.join sid roomId (sids s) in
  let us := <[userId := mkUserDoc (JsString.trim username) true now
                          (Some sid)]> (users s) in
  let recent := Store.populated
                  <$> take 50 (Store.sort_desc
                        (filter (λ m, m_roomId m = Some roomId) (messages s))) in
  run (join_room sid now fails userData) s =
    (mkServer au a us (joined_room now userData s).2 (messages s),
     (if 0 <? length recent
      then [mkEmit {[sid]} (ev_recent_messages (reverse recent))] else [])
     ++ [mkEmit (SocketIO.members roomId a ∖ {[sid]})
           (ev_user_joined userId username (username +:+ " joined the chat"));
         mkEmit (SocketIO.members roomId a)
           (ev_users_update (onlineUsers_of roomId au));
         mkEmit {[sid]}
           (ev_join_success roomId (r_name (joined_room now userData s).1)
              (onlineUsers_of roomId au))]).
Proof.
  intros Hvalid Hnf userId username roomId au a us recent.
  subst recent us a au username.
  unfold join_valid in Hvalid. apply negb_true_iff in Hvalid.
  unfold joined_room. async_unfold. rewrite Hvalid, !Hnf.
  cbn -[Room.pre_save JsString.trim]. fold userId roomId.
  destruct (rooms s !! JsString.trim roomId) as [found|] eqn:Hfound;
    cbn -[Room.pre_save JsString.trim].
  - destruct (includes userId (r_participants found));
      cbn -[Room.pre_save JsString.trim]; by destruct (length _).
  - set (created := Room.pre_save _).
    assert (includes userId (r_participants created) = true) as ->.
    { apply includes_true. vm_compute r_participants.
      apply list_elem_of_here. }
    cbn -[Room.pre_save JsString.trim]. by destruct (length _).
Qed.

Lemma joined_room_has_user (now : nat) (userData : JoinData) (s : Server) :
  rooms_keyed s →
  let userId := jd_userId userData in
  let roomId := default "general" (jd_roomId userData) in
  let room := (joined_room now userData s).1 in
  (joined_room now userData s).2 !! JsString.trim roomId = Some room
  ∧ userId ∈ r_participants room
  ∧ (rooms s !! JsString.trim roomId = None →
     r_roomId room = JsString.trim roomId
     ∧ r_name room = JsString.trim (if bool_decide (roomId = "general")
                                    then "General Chat" else roomId)
     ∧ r_createdBy room = userId ∧ r_participants room = [userId]
     ∧ r_admins room = [userId] ∧ r_maxParticipants room = 100).
Proof.
  intros Hkeyed userId roomId. unfold joined_room. fold userId roomId.
  destruct (rooms s !! JsString.trim roomId) as [found|] eqn:Hfound.
  - destruct (includes userId (r_participants found)) eqn:Hin;
      cbn -[Room.pre_save JsString.trim].
    + apply includes_true in Hin. done.
    + rewrite (Hkeyed _ _ Hfound), lookup_insert_eq. split_and!; [done| |done].
      apply pre_save_participants_subseteq. simpl.
      apply elem_of_app. right. apply list_elem_of_here.
  - cbn -[Room.pre_save JsString.trim]. rewrite lookup_insert_eq.
    split_and!; [done | |].
    + vm_compute r_participants. apply list_elem_of_here.
    + intros _. split_and!; try done; by vm_compute.
Qed.

(** X12.  A join that no store call rejects, into a room that has no
    message yet and whose name the room schema accepts (not empty once
    trimmed, at most 50 characters).  The session is stored, the user
    document says online at [now] on this socket, under the trimmed
    name; the room is stored under the trimmed [roomId] with the user
    among its participants (a room that did not exist is created by the
    user, who is its only participant and admin, with the limit 100 and
    the trimmed name); and the socket is in the Socket.IO room [roomId].
    The events are [user-joined] to the others in the room,
    [users-update] to the whole room and [join-success] to the joiner,
    and the list of online users they carry, taken from the sessions,
    names the joiner. *)
Theorem join_room_succeeds (s : Server) (sid : string) (now : nat)
    (fails : StoreOp → bool) (userData : JoinData) :
  join_valid userData = true →
  (∀ op, fails op = false) →
  rooms_keyed s →
  let userId := jd_userId userData in
  let username := jd_username userData in
  let roomId := default "general" (jd_roomId userData) in
  JsString.trim roomId ≠ "" →
  JsString.length (JsString.trim roomId) ≤ 50 →
  Forall (λ m, m_roomId m ≠ Some roomId) (messages s) →
  let r := run (join_room sid now fails userData) s in
  let onlineUsers := onlineUsers_of roomId (activeUsers r.1) in
  JsMap.get sid (activeUsers r.1) = Some (joined_session now userData)
  ∧ users r.1 !! userId
    = Some (mkUserDoc (JsString.trim username) true now (Some sid))
  ∧ sid ∈ SocketIO.members roomId (sids r.1)
  ∧ mkOnlineUser userId username now ∈ onlineUsers
  ∧ ∃ room,
      rooms r.1 !! JsString.trim roomId = Some room
      ∧ userId ∈ r_participants room
      ∧ (rooms s !! JsString.trim roomId = None →
         r_roomId room = JsString.trim roomId
         ∧ r_name room = JsString.trim (if bool_decide (roomId = "general")
                                        then "General Chat" else roomId)
         ∧ r_createdBy room = userId ∧ r_participants room = [userId]
         ∧ r_admins room = [userId] ∧ r_maxParticipants room = 100)
      ∧ r.2 = [mkEmit (SocketIO.members roomId (sids r.1) ∖ {[sid]})
                 (ev_user_joined userId username
                    (username +:+ " joined the chat"));
               mkEmit (SocketIO.members roomId (sids r.1))
                 (ev_users_update onlineUsers);
               mkEmit {[sid]}
                 (ev_join_success roomId (r_name room) onlineUsers)].
Proof.
  intros Hvalid Hnf Hkeyed userId username roomId _ _ Hnone r onlineUsers.
  subst onlineUsers r.
  rewrite (join_room_no_failure s sid now fails userData Hvalid Hnf).
  cbn -[joined_room JsString.trim]. fold userId username roomId.
  destruct (joined_room_has_user now userData s Hkeyed) as (Hroom & Hin & Hnew).
  assert (Hempty : filter (λ m, m_roomId m = Some roomId) (messages s) = []).
  { clear -Hnone. induction Hnone as [|m l Hm Hl IH]; [done|].
    by rewrite filter_cons_False. }
  split_and!.
  - apply JsMapFacts.get_set_eq.
  - by rewrite lookup_insert_eq.
  - apply elem_of_members. unfold SocketIO.join.
    eexists. rewrite lookup_insert_eq. split; [done|].
    apply elem_of_union_l. by apply elem_of_singleton.
  - unfold onlineUsers_of. apply list_elem_of_fmap.
    exists (joined_session now userData). split; [done|].
    apply list_elem_of_filter. split; [done|]. unfold JsMap.values.
    apply list_elem_of_fmap. exists (sid, joined_session now userData).
    split; [done|]. apply get_Some_elem, JsMapFacts.get_set_eq.
  - exists (joined_room now userData s).1. split_and!; [done..|].
    by rewrite Hempty.
Qed.

Lemma join_room_succeeds_witness :
  let r := run (join_room "c2" 3 no_failure
                  (mkJoinData "bob" " Bob " (Some " lobby ")))
             (run_all alice_joined [mkAction "c2" Connect 2 no_failure]) in
  JsMap.get "c2" (activeUsers r.1) = Some (mkSession "bob" " Bob " " lobby " 3)
  ∧ users r.1 !! "bob" = Some (mkUserDoc "Bob" true 3 (Some "c2"))
  ∧ "c2" ∈ SocketIO.members " lobby " (sids r.1)
  ∧ rooms r.1 !! "lobby"
    = Some (mkRoomDoc "lobby" "lobby" "Real-time chat room" "bob" ["bob"]
              ["bob"] 100 3).
Proof.
  intros r.
  destruct (join_room_succeeds
              (run_all alice_joined [mkAction "c2" Connect 2 no_failure])
              "c2" 3 no_failure (mkJoinData "bob" " Bob " (Some " lobby ")))
    as (H1 & H2 & H3 & _ & _);
    [reflexivity | done | | by vm_compute | vm_compute; lia
     | by vm_compute | ].
  - apply (run_all_store initial
             [mkAction "c1" Connect 0 no_failure;
              mkAction "c1" (JoinRoom (mkJoinData "alice" "Alice" None))
                1 no_failure;
              mkAction "c2" Connect 2 no_failure] rooms_keyed_initial).
  - split_and!; [exact H1 | exact H2 | exact H3 | by vm_compute].
Defined.

(** X13.  A [send-message] causes exactly one emit and touches nothing
    but the message collection.  Either the emit is an error, to the
    sender only, and then the state is unchanged or (the save was
    accepted and the sender could not be resolved) one message was
    appended; or it is [receive-message] to the room of the sender's
    session, and then the message it carries was appended to the
    collection first.  So no failure ever reaches the room, and nothing
    is broadcast that is not stored. *)
Theorem send_message_outcome (s : Server) (sid : string) (now : nat)
    (fails : StoreOp → bool) (messageData : MessageData) :
  let r := run (send_message sid now fails messageData) s in
  activeUsers r.1 = activeUsers s ∧ sids r.1 = sids s
  ∧ users r.1 = users s ∧ rooms r.1 = rooms s
  ∧ ∃ e, r.2 = [e]
         ∧ ((is_error (event e) = true ∧ to e = {[sid]}
             ∧ (r.1 = s
                ∨ (fails OpMessageSave = false
                   ∧ ∃ m, messages r.1 = messages s ++ [m])))
            ∨ (∃ sess m username,
                 JsMap.get sid (activeUsers s) = Some sess
                 ∧ messages r.1 = messages s ++ [m]
                 ∧ m_sender m = s_userId sess
                 ∧ m_roomId m = Some (s_roomId sess)
                 ∧ e = mkEmit (SocketIO.members (s_roomId sess) (sids s))
                         (ev_receive_message (m_id m) (m_content m) username
                            (m_sender m) (m_timestamp m) (m_type m)))).
Proof.
  async_unfold.
  destruct (JsMap.get sid (activeUsers s)) as [sess|] eqn:Hget; simpl.
  2: { split_and!; try done. eexists. split; [done|]. left.
       split_and!; [done | done | by left]. }
  destruct (JsString.falsy (md_content messageData)
            || (JsString.length (JsString.trim (md_content messageData)) =? 0));
    simpl.
  { split_and!; try done. eexists. split; [done|]. left.
    split_and!; [done | done | by left]. }
  destruct (1000 <? JsString.length (md_content messageData)); simpl.
  { split_and!; try done. eexists. split; [done|]. left.
    split_and!; [done | done | by left]. }
  destruct (Message.valid _); simpl.
  2: { split_and!; try done. eexists. split; [done|]. left.
       split_and!; [done | done | by left]. }
  destruct (Message.pre_save _); simpl.
  { split_and!; try done. eexists. split; [done|]. left.
    split_and!; [done | done | by left]. }
  destruct (fails OpMessageSave) eqn:Hsave; simpl.
  { split_and!; try done. eexists. split; [done|]. left.
    split_and!; [done | done | by left]. }
  destruct (fails OpPopulate); simpl.
  - split_and!; try done. eexists. split; [done|]. left.
    split_and!; [done | done | right; split; [done | by eexists]].
  - split_and!; try done. eexists. split; [done|]. left.
    split_and!; [done | done | right; split; [done | by eexists]].
Qed.

(** A document that [private-message] builds in a reachable state for a
    user who has a session passes the validators and the hook when its
    content is not blank and has, trimmed, at most 1000 characters. *)
Lemma private_document_valid (s : Server) (now : nat) (content : string)
    (senderInfo : Session) (sid recipientUserId recipientSocketId : string)
    (recipientInfo : Session) :
  reachable s →
  JsMap.get sid (activeUsers s) = Some senderInfo →
  JsMap.find (λ e, bool_decide (s_userId e.2 = recipientUserId))
    (activeUsers s) = Some (recipientSocketId, recipientInfo) →
  JsString.all_space content = false →
  JsString.length (JsString.trim content) ≤ 1000 →
  let m := Store.new_Message s content (s_userId senderInfo) None
             (Some recipientUserId) "private" now in
  Message.valid m = true ∧ Message.pre_save m = None.
Proof.
  intros Hr Hget Hfind Hblank Hfits m.
  destruct (reachable_sessions_named s Hr sid senderInfo Hget) as [Hsender _].
  apply find_Some in Hfind as (Hp%bool_decide_eq_true_1 & before & after
                               & Hau & _).
  assert (Hnamed : recipientUserId ≠ "").
  { rewrite <- Hp. simpl.
    apply (reachable_sessions_named s Hr recipientSocketId recipientInfo).
    apply JsMapFacts.elem_of_get; [by apply reachable_NoDup|].
    rewrite Hau. apply elem_of_app. right. apply list_elem_of_here. }
  subst m. unfold Message.valid, Message.pre_save, Store.new_Message. simpl.
  apply trim_nonblank in Hblank. apply Nat.leb_le in Hfits.
  rewrite Hfits.
  apply falsy_false in Hblank, Hsender, Hnamed.
  rewrite Hblank, Hsender, Hnamed. done.
Qed.

(** X15.  No private message is delivered.  A [private-message] from a
    connection with a session changes nothing but the message
    collection and causes exactly one emit, an error to the sender: "User
    is offline" when no session has the recipient's user id, and
    otherwise "Failed to send private message".  In the second case the
    message is not saved when the schema, the hook or the store refuses
    it; when they accept it, it is saved, with type [private], the
    recipient's user id and no room, and yet neither [private-message]
    nor [message-sent] is emitted.  In a reachable state a message whose
    content is not blank and has, trimmed, at most 1000 characters is
    accepted by the schema and the hook. *)
Theorem private_message_never_delivered (s : Server) (sid : string)
    (now : nat) (fails : StoreOp → bool) (data : PrivateData)
    (senderInfo : Session) :
  JsMap.get sid (activeUsers s) = Some senderInfo →
  let r := run (private_message sid now fails data) s in
  let found := JsMap.find
                 (λ e, bool_decide (s_userId e.2 = pd_recipientUserId data))
                 (activeUsers s) in
  let saved := Store.new_Message s (pd_content data) (s_userId senderInfo)
                 None (Some (pd_recipientUserId data)) "private" now in
  let accepted := Message.valid saved
                  && bool_decide (Message.pre_save saved = None)
                  && negb (fails OpMessageSave) in
  activeUsers r.1 = activeUsers s ∧ sids r.1 = sids s
  ∧ users r.1 = users s ∧ rooms r.1 = rooms s
  ∧ (found = None →
     r = (s, [mkEmit {[sid]} (ev_error "User is offline")]))
  ∧ (is_Some found →
     r.2 = [mkEmit {[sid]} (ev_error "Failed to send private message")]
     ∧ messages r.1
       = (if accepted then messages s ++ [saved] else messages s)
     ∧ (reachable s →
        JsString.all_space (pd_content data) = false →
        JsString.length (JsString.trim (pd_content data)) ≤ 1000 →
        Message.valid saved = true ∧ Message.pre_save saved = None)).
Proof.
  intros Hget r found saved accepted. subst r accepted.
  split_and!.
  - by destruct (private_message_memory sid now fails data s) as [-> _].
  - by destruct (private_message_memory sid now fails data s) as [_ ->].
  - async_unfold. async_cases.
  - async_unfold. async_cases.
  - intros Hnone. subst found. async_unfold. by rewrite Hget, Hnone.
  - intros [[recipientSocketId recipientInfo] Hfound]. subst found.
    split_and!.
    + async_unfold. rewrite Hget, Hfound. simpl. async_cases.
    + async_unfold. rewrite Hget, Hfound. simpl. fold saved.
      destruct (Message.valid saved); simpl; [|done].
      destruct (Message.pre_save saved); simpl; [done|].
      destruct (fails OpMessageSave); simpl; [done|].
      by destruct (fails OpPopulate).
    + intros Hr Hblank Hfits.
      by apply (private_document_valid s now (pd_content data) senderInfo sid
                  (pd_recipientUserId data) recipientSocketId recipientInfo).
Qed.

(** X16.  A disconnect of a connection that holds a session.  When the
    user update is accepted: the session of this connection is removed
    and no other session changes; the user document, if there is one, is
    set offline at [now] with no socket, whether or not another session
    of the same user remains; and [user-left] and then [users-update],
    with the users of the remaining sessions of the room, are emitted to
    the room without this connection.  When the user update is rejected
    nothing is emitted and the session stays. *)
Theorem disconnect_effects (s : Server) (sid : string) (now : nat)
    (fails : StoreOp → bool) (userInfo : Session) :
  JsMap.get sid (activeUsers s) = Some userInfo →
  let r := run (on_disconnect sid now fails) s in
  let recipients :=
    SocketIO.members (s_roomId userInfo) (SocketIO.leaveAll sid (sids s))
      ∖ {[sid]} in
  (fails OpUserOffline = false →
   activeUsers r.1 = JsMap.delete sid (activeUsers s)
   ∧ JsMap.get sid (activeUsers r.1) = None
   ∧ (∀ c, c ≠ sid →
           JsMap.get c (activeUsers r.1) = JsMap.get c (activeUsers s))
   ∧ users r.1 !! s_userId userInfo
     = (λ u, mkUserDoc (u_username u) false now None)
         <$> users s !! s_userId userInfo
   ∧ (∀ u, u ≠ s_userId userInfo → users r.1 !! u = users s !! u)
   ∧ r.2 = [mkEmit recipients
              (ev_user_left (s_userId userInfo) (s_username userInfo)
                 (s_username userInfo +:+ " left the chat"));
            mkEmit recipients
              (ev_users_update
                 (onlineUsers_of (s_roomId userInfo)
                    (JsMap.delete sid (activeUsers s))))]
   ∧ sid ∉ recipients)
  ∧ (fails OpUserOffline = true →
     r.2 = [] ∧ activeUsers r.1 = activeUsers s ∧ users r.1 = users s).
Proof.
  intros Hget r recipients. split.
  - intros Hok. subst r recipients. async_unfold. simpl. rewrite Hget. simpl.
    rewrite Hok. simpl. split_and!; try done.
    + apply JsMapFacts.get_delete_eq.
    + intros c Hc. by apply JsMapFacts.get_delete_ne.
    + by rewrite lookup_alter_eq.
    + intros u Hu. by rewrite lookup_alter_ne.
    + intros [_ Hsid]%elem_of_difference. apply Hsid.
      by apply elem_of_singleton.
  - intros Hfail. subst r. async_unfold. simpl. rewrite Hget. simpl.
    by rewrite Hfail.
Qed.

Lemma private_message_never_delivered_witness :
  let r := run (private_message "c1" 9 no_failure (mkPrivateData "bob" "hi bob"))
             alice_and_bob in
  r.2 = [mkEmit {["c1"]} (ev_error "Failed to send private message")]
  ∧ messages r.1
    = [mkMessageDoc 0 "hi bob" "alice" None (Some "bob") "private" 9]
  ∧ run (private_message "c1" 9 no_failure (mkPrivateData "carol" "hi"))
      alice_and_bob
    = (alice_and_bob, [mkEmit {["c1"]} (ev_error "User is offline")]).
Proof.
  intros r.
  destruct (private_message_never_delivered alice_and_bob "c1" 9 no_failure
              (mkPrivateData "bob" "hi bob")
              (mkSession "alice" "Alice" "general" 1) eq_refl)
    as (_ & _ & _ & _ & _ & Hon).
  destruct (Hon ltac:(by eexists)) as (Hout & Hsaved & _).
  destruct (private_message_never_delivered alice_and_bob "c1" 9 no_failure
              (mkPrivateData "carol" "hi")
              (mkSession "alice" "Alice" "general" 1) eq_refl)
    as (_ & _ & _ & _ & Hoff & _).
  split_and!.
  - exact Hout.
  - etrans; [exact Hsaved | by vm_compute].
  - by apply Hoff.
Defined.

Lemma disconnect_effects_witness :
  let r := run (on_disconnect "c1" 9 no_failure) alice_and_bob in
  JsMap.get "c1" (activeUsers r.1) = None
  ∧ JsMap.get "c2" (activeUsers r.1) = Some (mkSession "bob" "Bob" "general" 3)
  ∧ users r.1 !! "alice" = Some (mkUserDoc "Alice" false 9 None)
  ∧ r.2 = [mkEmit {["c2"]}
             (ev_user_left "alice" "Alice" "Alice left the chat");
           mkEmit {["c2"]}
             (ev_users_update [mkOnlineUser "bob" "Bob" 3])].
Proof.
  intros r.
  destruct (disconnect_effects alice_and_bob "c1" 9 no_failure
              (mkSession "alice" "Alice" "general" 1) eq_refl)
    as [Hok _].
  destruct (Hok eq_refl) as (_ & Hgone & Hothers & Huser & _ & Hout & _).
  split_and!.
  - exact Hgone.
  - etrans; [apply Hothers; discriminate | by vm_compute].
  - etrans; [apply Huser | by vm_compute].
  - etrans; [apply Hout | by vm_compute].
Defined.

(** ** The save hook of a message and the messages the handlers build *)

Lemma all_space_trim (content : string) :
  JsString.all_space content = false →
  JsString.all_space (JsString.trim content) = false.
Proof.
  intros Hblank. destruct (JsString.all_space (JsString.trim content)) eqn:H;
    [|done].
  apply trim_blank in H. rewrite trim_idem in H.
  by apply trim_nonblank in Hblank.
Qed.

(** X17.  Which messages of the handlers the save hook of the message
    model lets through.  A message built by [send-message] from content
    that passed the emptiness check is refused when its type is
    [private] (it has no recipient) and when the room id of the session
    is empty, and accepted otherwise.  A message built by
    [private-message] in a reachable state, for a recipient who has a
    session, is always accepted. *)
Theorem hook_on_handler_messages (s : Server) (now : nat) :
  (∀ content userId roomId type,
     JsString.all_space content = false →
     Message.pre_save
       (Store.new_Message s (JsString.trim content) userId (Some roomId)
          None type now)
     = if bool_decide (type = "private")
       then Some "Private messages must have a recipient"
       else if bool_decide (roomId = "")
            then Some "Room messages must have a roomId"
            else None)
  ∧ (reachable s →
     ∀ content senderId recipientUserId recipientSocketId recipientInfo,
       JsMap.find (λ e, bool_decide (s_userId e.2 = recipientUserId))
         (activeUsers s) = Some (recipientSocketId, recipientInfo) →
       Message.pre_save
         (Store.new_Message s content senderId None (Some recipientUserId)
            "private" now) = None).
Proof.
  split.
  - intros content userId roomId type Hblank.
    unfold Message.pre_save, Store.new_Message. simpl.
    rewrite trim_idem, empty_check, (all_space_trim content Hblank).
    rewrite andb_false_r.
    destruct (bool_decide (type = "private")); simpl; [done|].
    by destruct roomId.
  - intros Hr content senderId recipientUserId c' sess' Hfind.
    apply find_Some in Hfind as (Hp%bool_decide_eq_true_1 & before & after
                                 & Hau & _).
    assert (Hnamed : recipientUserId ≠ "").
    { rewrite <- Hp. simpl.
      apply (reachable_sessions_named s Hr c' sess').
      apply JsMapFacts.elem_of_get; [by apply reachable_NoDup|].
      rewrite Hau. apply elem_of_app. right. apply list_elem_of_here. }
    unfold Message.pre_save, Store.new_Message. simpl.
    by destruct recipientUserId.
Qed.

Lemma hook_on_handler_messages_witness :
  Message.pre_save
    (Store.new_Message alice_and_bob (JsString.trim " hello ") "alice"
       (Some "general") None "text" 9) = None
  ∧ Message.pre_save
      (Store.new_Message alice_and_bob (JsString.trim " hello ") "alice"
         (Some "general") None "private" 9)
    = Some "Private messages must have a recipient"
  ∧ Message.pre_save
      (Store.new_Message alice_and_bob "hi bob" "alice" None (Some "bob")
         "private" 9) = None.
Proof.
  destruct (hook_on_handler_messages alice_and_bob 9) as [Hsend Hprivate].
  split_and!.
  - by rewrite Hsend.
  - by rewrite Hsend.
  - apply (Hprivate alice_and_bob_reachable "hi bob" "alice" "bob" "c2"
             (mkSession "bob" "Bob" "general" 3)). reflexivity.
Defined.

(** ** Reactions and read marks of a message *)

Section Reactions.
Import Message.

Lemma same_reaction_key (userId emoji : string) (reaction : Reaction) :
  same_reaction userId emoji reaction = true ↔
  Message.reaction_key reaction = (userId, emoji).
Proof.
  unfold same_reaction, Message.reaction_key.
  rewrite andb_true_iff, !bool_decide_eq_true. split.
  - by intros [-> ->].
  - by intros [= -> ->].
Qed.

Lemma find_reaction_None (userId emoji : string) (reactions : list Reaction) :
  List.find (same_reaction userId emoji) reactions = None ↔
  (userId, emoji) ∉ Message.reaction_key <$> reactions.
Proof.
  induction reactions as [|x l IH]; simpl.
  - split; [intros _; apply not_elem_of_nil | done].
  - rewrite not_elem_of_cons.
    destruct (same_reaction userId emoji x) eqn:Hx.
    + apply same_reaction_key in Hx. split; [done|]. by intros [? _].
    + rewrite IH. split; [|by intros [_ ?]]. intros Hl. split; [|done].
      intros Heq. symmetry in Heq. apply same_reaction_key in Heq. congruence.
Qed.

(** X18.  Reactions of a message.  [addReaction] leaves the user's
    reaction with that emoji in the array, adds nothing when it is there
    already (a second call changes nothing) and keeps the reactions
    distinct per user and emoji; [removeReaction] takes exactly that
    reaction out and leaves the others; removing what was just added to
    an array that did not have it gives the array back. *)
Theorem reactions_add_remove (userId emoji : string) (now now' : nat)
    (reactions : list Reaction) :
  ((userId, emoji) ∈ Message.reaction_key <$> addReaction userId emoji now reactions)
  ∧ addReaction userId emoji now' (addReaction userId emoji now reactions)
    = addReaction userId emoji now reactions
  ∧ (NoDup (Message.reaction_key <$> reactions) →
     NoDup (Message.reaction_key <$> addReaction userId emoji now reactions))
  ∧ ((userId, emoji) ∉ Message.reaction_key <$> removeReaction userId emoji reactions)
  ∧ (∀ reaction, Message.reaction_key reaction ≠ (userId, emoji) →
       (reaction ∈ removeReaction userId emoji reactions ↔
        reaction ∈ reactions))
  ∧ ((userId, emoji) ∉ Message.reaction_key <$> reactions →
     removeReaction userId emoji (addReaction userId emoji now reactions)
     = reactions).
Proof.
  assert (Hadd : (userId, emoji)
                 ∈ Message.reaction_key <$> addReaction userId emoji now reactions).
  { unfold addReaction.
    destruct (List.find _ reactions) eqn:Hfind.
    - destruct (decide ((userId, emoji) ∈ Message.reaction_key <$> reactions));
        [done|].
      apply find_reaction_None in n. congruence.
    - rewrite fmap_app. apply elem_of_app. right. apply list_elem_of_here. }
  split_and!.
  - done.
  - unfold addReaction at 1.
    destruct (List.find _ (addReaction _ _ _ _)) eqn:Hfind; [done|].
    apply find_reaction_None in Hfind. done.
  - intros Hnd. unfold addReaction.
    destruct (List.find _ reactions) eqn:Hfind; [done|].
    apply find_reaction_None in Hfind. rewrite fmap_app.
    apply NoDup_app. split_and!; [done | | apply NoDup_singleton].
    intros k Hk ->%list_elem_of_singleton. done.
  - unfold removeReaction.
    intros (x & Hkey & Hin)%list_elem_of_fmap.
    apply list_elem_of_In, List.filter_In in Hin as [_ Hx].
    apply negb_true_iff in Hx. symmetry in Hkey.
    apply same_reaction_key in Hkey. congruence.
  - intros x Hx. unfold removeReaction.
    rewrite !list_elem_of_In, List.filter_In. split; [by intros [? _]|].
    intros Hin. split; [done|]. apply negb_true_iff.
    destruct (same_reaction userId emoji x) eqn:Hs; [|done].
    by apply same_reaction_key in Hs.
  - intros Hfresh. unfold addReaction.
    rewrite (proj2 (find_reaction_None _ _ _) Hfresh).
    unfold removeReaction. rewrite List.filter_app. simpl.
    assert (same_reaction userId emoji (mkReaction userId emoji now) = true)
      as -> by (by apply same_reaction_key).
    simpl. rewrite app_nil_r.
    apply List.forallb_filter_id, forallb_forall. intros x Hx.
    apply negb_true_iff.
    destruct (same_reaction userId emoji x) eqn:Hs; [|done].
    apply same_reaction_key in Hs. exfalso. apply Hfresh.
    apply list_elem_of_fmap. exists x. split; [done|].
    by apply list_elem_of_In.
Qed.

Lemma get_prop_ext (counts counts' : gmap string JsValue) (key : string) :
  counts !! key = counts' !! key → get_prop counts key = get_prop counts' key.
Proof. unfold get_prop. by intros ->. Qed.

Lemma reactionCounts_foldl (counts : gmap string JsValue)
    (reactions : list Reaction) (emoji : string) :
  emoji ≠ "__proto__" →
  foldl (λ counts reaction,
           set_prop (rc_emoji reaction)
             (plus_one (get_prop counts (rc_emoji reaction))) counts)
    counts reactions !! emoji
  = match length (filter (λ reaction, rc_emoji reaction = emoji) reactions) with
    | 0 => counts !! emoji
    | S n => Some (counted (S n) (get_prop counts emoji))
    end.
Proof.
  intros Hproto. revert counts.
  induction reactions as [|x l IH]; intros counts; simpl; [done|].
  rewrite IH. destruct (decide (rc_emoji x = emoji)) as [Heq|Hne].
  - rewrite filter_cons_True by done. rewrite Heq. simpl.
    set (v := get_prop counts emoji).
    assert (Hown : set_prop emoji (plus_one v) counts !! emoji
                   = Some (plus_one v)).
    { unfold set_prop. rewrite bool_decide_eq_false_2 by done.
      apply lookup_insert_eq. }
    assert (Hget : get_prop (set_prop emoji (plus_one v) counts) emoji
                   = Some (plus_one v)).
    { unfold get_prop. by rewrite Hown. }
    rewrite Hown, Hget.
    destruct (length (filter _ l)) as [|n].
    + by destruct v as [[k|]|].
    + destruct v as [[k|]|]; simpl; try done.
      do 2 f_equal. lia.
  - rewrite filter_cons_False by done.
    assert (Hkeep : set_prop (rc_emoji x)
                      (plus_one (get_prop counts (rc_emoji x))) counts !! emoji
                    = counts !! emoji).
    { unfold set_prop. case_bool_decide; [done|]. by rewrite lookup_insert_ne. }
    assert (Hget : get_prop (set_prop (rc_emoji x)
                      (plus_one (get_prop counts (rc_emoji x))) counts) emoji
                   = get_prop counts emoji).
    { by apply get_prop_ext. }
    by rewrite Hkeep, Hget.
Qed.

Lemma reactionCounts_proto (counts : gmap string JsValue)
    (reactions : list Reaction) :
  foldl (λ counts reaction,
           set_prop (rc_emoji reaction)
             (plus_one (get_prop counts (rc_emoji reaction))) counts)
    counts reactions !! "__proto__"
  = counts !! "__proto__".
Proof.
  revert counts. induction reactions as [|x l IH]; intros counts; simpl; [done|].
  rewrite IH. unfold set_prop. case_bool_decide; [done|].
  by rewrite lookup_insert_ne.
Qed.

(** X19.  The object [reactionCounts] returns.  An emoji that does not
    occur in the reactions is no own property of it.  An emoji that
    occurs and is not the name of a property of [Object.prototype] is
    mapped to the number of reactions with that emoji.  An emoji that
    occurs and is such a name ([toString], [constructor], ...) is not
    counted: its property holds a value that is not a number, and
    [__proto__] gets no property at all. *)
Theorem reactionCounts_counts (reactions : list Reaction) (emoji : string) :
  let n := length (filter (λ reaction, rc_emoji reaction = emoji) reactions) in
  (n = 0 → reactionCounts reactions !! emoji = None)
  ∧ (0 < n → emoji ∉ Object_prototype →
     reactionCounts reactions !! emoji = Some (VNum n))
  ∧ (0 < n → emoji ∈ Object_prototype →
     reactionCounts reactions !! emoji
     = if bool_decide (emoji = "__proto__") then None else Some VOther).
Proof.
  intros n. unfold reactionCounts.
  destruct (decide (emoji = "__proto__")) as [->|Hproto].
  - rewrite reactionCounts_proto, lookup_empty. split_and!; [done| |done].
    intros _ Hnot. exfalso. apply Hnot.
    apply (bool_decide_unpack _). by vm_compute.
  - rewrite (reactionCounts_foldl ∅ reactions emoji Hproto). fold n.
    rewrite bool_decide_eq_false_2 by done.
    unfold get_prop. rewrite lookup_empty.
    split_and!.
    + by intros ->.
    + intros Hn Hnot. rewrite bool_decide_eq_false_2 by done.
      destruct n; [lia | done].
    + intros Hn Hin. rewrite bool_decide_eq_true_2 by done.
      destruct n; [lia | done].
Qed.

Lemma reactionCounts_counts_witness :
  let reactions := [mkReaction "u1" "+1" 1; mkReaction "u2" "+1" 2;
                    mkReaction "u1" "ok" 3; mkReaction "u3" "toString" 4;
                    mkReaction "u3" "__proto__" 5] in
  reactionCounts reactions !! "+1" = Some (VNum 2)
  ∧ reactionCounts reactions !! "no" = None
  ∧ reactionCounts reactions !! "toString" = Some VOther
  ∧ reactionCounts reactions !! "__proto__" = None.
Proof.
  intros reactions.
  destruct (reactionCounts_counts reactions "+1") as (_ & Hsome & _).
  destruct (reactionCounts_counts reactions "no") as (Hnone & _).
  destruct (reactionCounts_counts reactions "toString") as (_ & _ & Hother).
  destruct (reactionCounts_counts reactions "__proto__") as (_ & _ & Hproto).
  split_and!.
  - apply Hsome; [vm_compute; lia|]. apply (bool_decide_unpack _). by vm_compute.
  - by apply Hnone.
  - apply Hother; [vm_compute; lia|]. apply (bool_decide_unpack _). by vm_compute.
  - apply Hproto; [vm_compute; lia|]. apply (bool_decide_unpack _). by vm_compute.
Defined.

Lemma reactions_add_remove_witness :
  let reactions := [mkReaction "u1" "+1" 1] in
  addReaction "u2" "+1" 5 reactions
  = [mkReaction "u1" "+1" 1; mkReaction "u2" "+1" 5]
  ∧ removeReaction "u2" "+1" (addReaction "u2" "+1" 5 reactions) = reactions.
Proof.
  intros reactions. split; [reflexivity|].
  destruct (reactions_add_remove "u2" "+1" 5 5 reactions)
    as (_ & _ & _ & _ & _ & Hback).
  apply Hback. apply (bool_decide_unpack _). by vm_compute.
Defined.

Lemma find_read_None (userId : string) (readBy : list (string * nat)) :
  List.find (λ read, bool_decide (read.1 = userId)) readBy = None ↔
  userId ∉ readBy.*1.
Proof.
  induction readBy as [|x l IH]; simpl.
  - split; [intros _; apply not_elem_of_nil | done].
  - rewrite not_elem_of_cons. destruct (decide (x.1 = userId)) as [Heq|Hne].
    + rewrite bool_decide_eq_true_2 by done. split; [done|].
      intros [? _]. congruence.
    + rewrite bool_decide_eq_false_2 by done. rewrite IH.
      split; [intros ?; split; [congruence | done] | by intros [_ ?]].
Qed.

(** X27.  Read marks.  After [markAsRead] the user is among the readers;
    a user who had read the message before is not added again, so the
    read count and the first read time stay; for a new reader the read
    count grows by one, and the readers stay distinct. *)
Theorem markAsRead_once (userId : string) (now : nat)
    (readBy : list (string * nat)) :
  (userId ∈ (markAsRead userId now readBy).*1)
  ∧ (userId ∈ readBy.*1 → markAsRead userId now readBy = readBy)
  ∧ (userId ∉ readBy.*1 →
     markAsRead userId now readBy = readBy ++ [(userId, now)]
     ∧ readCount (markAsRead userId now readBy) = S (readCount readBy))
  ∧ (NoDup readBy.*1 → NoDup (markAsRead userId now readBy).*1).
Proof.
  unfold markAsRead, readCount.
  destruct (List.find _ readBy) eqn:Hfind.
  - assert (Hin : userId ∈ readBy.*1).
    { destruct (decide (userId ∈ readBy.*1)) as [|Hn]; [done|].
      apply find_read_None in Hn. congruence. }
    split_and!; done.
  - apply find_read_None in Hfind. split_and!.
    + rewrite fmap_app. apply elem_of_app. right. apply list_elem_of_here.
    + done.
    + intros _. split; [done|]. rewrite length_app. simpl. lia.
    + intros Hnd. rewrite fmap_app.
      apply NoDup_app. split_and!; [done | | apply NoDup_singleton].
      intros k Hk ->%list_elem_of_singleton. done.
Qed.

Lemma markAsRead_once_witness :
  let readBy := [("u1", 3)] in
  markAsRead "u1" 8 readBy = readBy
  ∧ markAsRead "u2" 8 readBy = [("u1", 3); ("u2", 8)].
Proof.
  intros readBy.
  destruct (markAsRead_once "u1" 8 readBy) as (_ & Hagain & _).
  destruct (markAsRead_once "u2" 8 readBy) as (_ & _ & Hnew & _).
  split.
  - apply Hagain. apply list_elem_of_here.
  - apply Hnew. apply (bool_decide_unpack _). by vm_compute.
Defined.

End Reactions.

(** ** The rooms a user joined, and activity *)

Section UserRooms.
Import User.

Lemma find_room_None (roomId : string) (joinedRooms : list (string * nat)) :
  List.find (λ room, bool_decide (room.1 = roomId)) joinedRooms = None ↔
  roomId ∉ joinedRooms.*1.
Proof.
  induction joinedRooms as [|x l IH]; simpl.
  - split; [intros _; apply not_elem_of_nil | done].
  - rewrite not_elem_of_cons. destruct (decide (x.1 = roomId)) as [Heq|Hne].
    + rewrite bool_decide_eq_true_2 by done. split; [done|].
      intros [? _]. congruence.
    + rewrite bool_decide_eq_false_2 by done. rewrite IH.
      split; [intros ?; split; [congruence | done] | by intros [_ ?]].
Qed.

Lemma joinRoom_listed (roomId : string) (now : nat)
    (joinedRooms : list (string * nat)) :
  roomId ∈ (joinRoom roomId now joinedRooms).*1.
Proof.
  unfold joinRoom. destruct (List.find _ joinedRooms) eqn:Hfind.
  - destruct (decide (roomId ∈ joinedRooms.*1)) as [|Hn]; [done|].
    apply find_room_None in Hn. congruence.
  - rewrite fmap_app. apply elem_of_app. right. apply list_elem_of_here.
Qed.

Lemma leaveRoom_unlisted (roomId : string) (joinedRooms : list (string * nat)) :
  roomId ∉ (leaveRoom roomId joinedRooms).*1.
Proof.
  unfold leaveRoom. intros (x & Hkey & Hin)%list_elem_of_fmap.
  apply list_elem_of_In, List.filter_In in Hin as [_ Hx].
  apply negb_true_iff, bool_decide_eq_false_1 in Hx. congruence.
Qed.

(** X20.  The rooms of a user.  After [joinRoom] the room is listed, once
    per room id (joining again changes nothing, and the first join time
    is kept); after [leaveRoom] it is not listed and the other rooms are
    as before; leaving a room just joined, not listed before, gives the
    list back. *)
Theorem joinedRooms_join_leave (roomId : string) (now now' : nat)
    (joinedRooms : list (string * nat)) :
  (roomId ∈ (joinRoom roomId now joinedRooms).*1)
  ∧ joinRoom roomId now' (joinRoom roomId now joinedRooms)
    = joinRoom roomId now joinedRooms
  ∧ (NoDup joinedRooms.*1 → NoDup (joinRoom roomId now joinedRooms).*1)
  ∧ (roomId ∉ (leaveRoom roomId joinedRooms).*1)
  ∧ (∀ room, room.1 ≠ roomId →
       (room ∈ leaveRoom roomId joinedRooms ↔ room ∈ joinedRooms))
  ∧ (roomId ∉ joinedRooms.*1 →
     leaveRoom roomId (joinRoom roomId now joinedRooms) = joinedRooms).
Proof.
  split_and!.
  - apply joinRoom_listed.
  - unfold joinRoom at 1.
    destruct (List.find _ (joinRoom _ _ _)) eqn:Hfind; [done|].
    apply find_room_None in Hfind. exfalso. apply Hfind, joinRoom_listed.
  - intros Hnd. unfold joinRoom.
    destruct (List.find _ joinedRooms) eqn:Hfind; [done|].
    apply find_room_None in Hfind. rewrite fmap_app.
    apply NoDup_app. split_and!; [done | | apply NoDup_singleton].
    intros k Hk ->%list_elem_of_singleton. done.
  - apply leaveRoom_unlisted.
  - intros x Hx. unfold leaveRoom.
    rewrite !list_elem_of_In, List.filter_In. split; [by intros [? _]|].
    intros Hin. split; [done|]. apply negb_true_iff.
    by apply bool_decide_eq_false_2.
  - intros Hfresh. unfold joinRoom.
    rewrite (proj2 (find_room_None _ _) Hfresh).
    unfold leaveRoom. rewrite List.filter_app. simpl.
    rewrite bool_decide_eq_true_2 by done. simpl. rewrite app_nil_r.
    apply List.forallb_filter_id, forallb_forall. intros x Hx.
    apply negb_true_iff, bool_decide_eq_false_2. intros Heq.
    apply Hfresh. apply list_elem_of_fmap. exists x. split; [done|].
    by apply list_elem_of_In.
Qed.

Lemma joinedRooms_join_leave_witness :
  let joinedRooms := [("general", 1)] in
  joinRoom "team" 5 joinedRooms = [("general", 1); ("team", 5)]
  ∧ leaveRoom "team" (joinRoom "team" 5 joinedRooms) = joinedRooms.
Proof.
  intros joinedRooms. split; [reflexivity|].
  destruct (joinedRooms_join_leave "team" 5 5 joinedRooms)
    as (_ & _ & _ & _ & _ & Hback).
  apply Hback. apply (bool_decide_unpack _). by vm_compute.
Defined.

(** X21.  Activity after a disconnect.  A user who is online is active.
    When a [disconnect] whose user update is accepted sets the user
    offline at [t], the user stays active as long as less than five
    minutes (300000 ms) have passed since [t], and is not active from
    then on. *)
Theorem active_for_five_minutes (s : Server) (sid : string) (t now : nat)
    (fails : StoreOp → bool) (userInfo : Session) (u : UserDoc) :
  JsMap.get sid (activeUsers s) = Some userInfo →
  users s !! s_userId userInfo = Some u →
  fails OpUserOffline = false →
  (u_isOnline u = true → isActive now u = true)
  ∧ ∃ u', users (run (on_disconnect sid t fails) s).1 !! s_userId userInfo
          = Some u'
          ∧ u_isOnline u' = false ∧ u_lastSeen u' = t
          ∧ (isActive now u' = true
             ↔ (Z.of_nat now < Z.of_nat t + 300000)%Z).
Proof.
  intros Hget Hu Hok. split.
  - intros Hon. unfold isActive. by rewrite Hon.
  - exists (mkUserDoc (u_username u) false t None). split_and!; try done.
    + async_unfold. simpl. rewrite Hget. simpl. rewrite Hok. simpl.
      by rewrite lookup_alter_eq, Hu.
    + unfold isActive. simpl. rewrite Z.ltb_lt. lia.
Qed.

Lemma active_for_five_minutes_witness :
  ∃ u', users (run (on_disconnect "c1" 1000 no_failure) alice_joined).1
        !! "alice" = Some u'
        ∧ u_isOnline u' = false ∧ u_lastSeen u' = 1000
        ∧ (isActive 2000 u' = true
           ↔ (Z.of_nat 2000 < Z.of_nat 1000 + 300000)%Z).
Proof.
  apply (active_for_five_minutes alice_joined "c1" 1000 2000 no_failure
           (mkSession "alice" "Alice" "general" 1)
           (mkUserDoc "Alice" true 1 (Some "c1")) eq_refl
           ltac:(by vm_compute) eq_refl).
Defined.

End UserRooms.

(** ** The REST routes to join and to leave a room *)

Section RestRoutes.
Import Rest.






End RestRoutes.

(** ** More of the client *)

Section ClientEdges.
Import Client.

Lemma set_delete_fresh (x : string) (l : list string) :
  x ∉ l → set_delete x (l ++ [x]) = l.
Proof.
  intros Hx. unfold set_delete. rewrite filter_app.
  rewrite filter_cons_False, filter_nil, app_nil_r by (by intros ?).
  induction l as [|y l IH]; [done|].
  apply not_elem_of_cons in Hx as [Hne Hx].
  rewrite filter_cons_True by done. f_equal. by apply IH.
Qed.

(** X24.  Edges of the typing indicator.  A typing event of the current
    user changes nothing.  For another user: a start for a name already
    in the set leaves the set as it is (names count once); a stop right
    after the start of a name that was not in the set gives the set
    back; and when the only typer stops, the set is empty and the
    indicator is hidden, its text staying what it was. *)
Theorem typing_indicator_edges (app : ChatApp) (userId username : string)
    (typing : bool) :
  (Some userId = currentUser app →
   handleTypingIndicator userId username typing app = app)
  ∧ (Some userId ≠ currentUser app →
     (username ∈ typingUsers app →
      typingUsers (handleTypingIndicator userId username true app)
      = typingUsers app)
     ∧ (username ∉ typingUsers app →
        typingUsers
          (handleTypingIndicator userId username false
             (handleTypingIndicator userId username true app))
        = typingUsers app)
     ∧ (typingUsers app = [username] →
        let app' := handleTypingIndicator userId username false app in
        typingUsers app' = [] ∧ hidden app' = true
        ∧ typingText app' = typingText app)).
Proof.
  split.
  - intros Hown. unfold handleTypingIndicator.
    by rewrite bool_decide_eq_true_2.
  - intros Hother.
    assert (Hkeeps : ∀ a, currentUser (updateTypingDisplay a) = currentUser a
                          ∧ typingUsers (updateTypingDisplay a) = typingUsers a).
    { intros a. unfold updateTypingDisplay. by destruct (length _ =? 0). }
    split_and!.
    + intros Hin. unfold handleTypingIndicator.
      rewrite bool_decide_eq_false_2 by done.
      rewrite (proj2 (Hkeeps _)). simpl. unfold set_add.
      by rewrite (proj2 (includes_true _ _) Hin).
    + intros Hfresh. unfold handleTypingIndicator at 1.
      assert (Hcur : currentUser
                       (handleTypingIndicator userId username true app)
                     = currentUser app).
      { unfold handleTypingIndicator. rewrite bool_decide_eq_false_2 by done.
        by rewrite (proj1 (Hkeeps _)). }
      rewrite Hcur, bool_decide_eq_false_2 by done.
      rewrite (proj2 (Hkeeps _)). simpl.
      unfold handleTypingIndicator. rewrite bool_decide_eq_false_2 by done.
      rewrite (proj2 (Hkeeps _)). simpl.
      rewrite set_add_fresh by done. by apply set_delete_fresh.
    + intros Honly app'. subst app'. unfold handleTypingIndicator.
      rewrite bool_decide_eq_false_2 by done. rewrite Honly.
      unfold set_delete. rewrite filter_cons_False, filter_nil by (by intros ?).
      done.
Qed.

Lemma typing_indicator_edges_witness :
  let app := mkChatApp (Some "me") ["Alice"] "Alice is typing..." false in
  handleTypingIndicator "me" "Me" true app = app
  ∧ handleTypingIndicator "a" "Alice" false app
    = mkChatApp (Some "me") [] "Alice is typing..." true.
Proof.
  intros app.
  destruct (typing_indicator_edges app "me" "Me" true) as [Hown _].
  destruct (typing_indicator_edges app "a" "Alice" false) as [_ Hother].
  split; [by apply Hown|].
  destruct (Hother ltac:(discriminate)) as (_ & _ & Hstop).
  destruct (Hstop eq_refl) as (H1 & H2 & H3).
  by vm_compute.
Defined.

End ClientEdges.

Section ClientSends.
Import ClientSend.

(** X25.  What the client sends passes the server's checks on content.
    [handleSendMessage] emits nothing, and keeps the input, when the
    trimmed input is empty or the client is not connected; otherwise it
    emits [send-message] with the trimmed input and then [typing-stop],
    and clears the input.  The content it sends is never refused as
    empty by the [send-message] handler: on a connection with a session
    the handler's answer is not "Message content cannot be empty". *)
Theorem client_message_not_empty (value : string) (isConnected : bool) :
  (JsString.all_space value = true ∨ isConnected = false →
   handleSendMessage value isConnected = ([], value))
  ∧ (JsString.all_space value = false → isConnected = true →
     handleSendMessage value isConnected
     = ([emit_send_message (mkMessageData (JsString.trim value) (Some "user"));
         emit_typing_stop], ""))
  ∧ ∀ messageData,
      emit_send_message messageData ∈ (handleSendMessage value isConnected).1 →
      JsString.all_space (md_content messageData) = false
      ∧ ∀ s sid now fails userInfo,
          JsMap.get sid (activeUsers s) = Some userInfo →
          (run (send_message sid now fails messageData) s).2
          ≠ [mkEmit {[sid]} (ev_error "Message content cannot be empty")].
Proof.
  assert (Hfalsy : JsString.falsy (JsString.trim value)
                   = JsString.all_space value).
  { destruct (JsString.all_space value) eqn:Hblank.
    - by rewrite trim_blank.
    - apply trim_nonblank in Hblank. by destruct (JsString.trim value). }
  unfold handleSendMessage. rewrite Hfalsy. split_and!.
  - intros [-> | ->]; [done|]. by rewrite orb_true_r.
  - by intros -> ->.
  - intros messageData.
    destruct (JsString.all_space value) eqn:Hblank; simpl;
      [by intros ?%elem_of_nil|].
    destruct isConnected; simpl; [|by intros ?%elem_of_nil].
    intros [Heq | Hin]%elem_of_cons.
    2: { apply list_elem_of_singleton in Hin. discriminate. }
    injection Heq as ->. simpl. split; [by apply all_space_trim|].
    intros s sid now fails userInfo Hget. async_unfold.
    rewrite Hget, empty_check. simpl.
    rewrite (all_space_trim value Hblank).
    async_cases.
Qed.

Lemma client_message_not_empty_witness :
  handleSendMessage "   " true = ([], "   ")
  ∧ handleSendMessage " hello " true
    = ([emit_send_message (mkMessageData "hello" (Some "user"));
        emit_typing_stop], "")
  ∧ (run (send_message "c1" 5 no_failure
            (mkMessageData "hello" (Some "user"))) alice_joined).2
    ≠ [mkEmit {["c1"]} (ev_error "Message content cannot be empty")].
Proof.
  destruct (client_message_not_empty "   " true) as (Hblank & _ & _).
  destruct (client_message_not_empty " hello " true) as (_ & Hsend & Hpass).
  split_and!.
  - apply Hblank. by left.
  - by apply Hsend.
  - destruct (Hpass (mkMessageData "hello" (Some "user"))) as [_ Hnot].
    { rewrite Hsend by done. apply list_elem_of_here. }
    apply (Hnot alice_joined "c1" 5 no_failure
             (mkSession "alice" "Alice" "general" 1)). reflexivity.
Defined.

(** X26.  What the client sends to join passes the server's check.
    [handleJoinChat] emits nothing when the trimmed name has fewer than
    two characters; otherwise it emits one [join-room] whose user name is
    the trimmed name, whose user id starts with "user_" and which names
    no room, and the server's [join-room] handler does not answer it
    with "Invalid user data": it stores a session in the room
    [general]. *)
Theorem client_join_is_valid (value stamp rand : string) :
  (JsString.length (JsString.trim value) < 2 →
   handleJoinChat value stamp rand = [])
  ∧ (2 ≤ JsString.length (JsString.trim value) →
     ∃ userData,
       handleJoinChat value stamp rand = [emit_join_room userData]
       ∧ jd_username userData = JsString.trim value
       ∧ jd_userId userData = "user_" +:+ stamp +:+ "_" +:+ rand
       ∧ jd_roomId userData = None
       ∧ join_valid userData = true
       ∧ ∀ s sid now fails,
           JsMap.get sid (activeUsers (run (join_room sid now fails userData) s).1)
           = Some (mkSession (jd_userId userData) (JsString.trim value)
                     "general" now)).
Proof.
  unfold handleJoinChat. split.
  - intros Hshort%Nat.ltb_lt. by rewrite Hshort.
  - intros Hlong. rewrite (proj2 (Nat.ltb_ge _ _) Hlong).
    eexists. split; [reflexivity|]. simpl.
    assert (Hvalid : join_valid
              (mkJoinData ("user_" +:+ stamp +:+ "_" +:+ rand)
                 (JsString.trim value) None) = true).
    { unfold join_valid. simpl. unfold JsString.length in Hlong.
      destruct (JsString.trim value); [simpl in Hlong; lia | done]. }
    split_and!; try done.
    intros s sid now fails.
    destruct (join_room_memory sid now fails
                (mkJoinData ("user_" +:+ stamp +:+ "_" +:+ rand)
                   (JsString.trim value) None) s) as [-> _].
    rewrite Hvalid. apply JsMapFacts.get_set_eq.
Qed.

Lemma client_join_is_valid_witness :
  handleJoinChat " A " "17" "x9" = []
  ∧ ∃ userData,
      handleJoinChat " Alice " "17" "x9" = [emit_join_room userData]
      ∧ jd_username userData = "Alice"
      ∧ jd_userId userData = "user_17_x9"
      ∧ join_valid userData = true.
Proof.
  destruct (client_join_is_valid " A " "17" "x9") as [Hshort _].
  destruct (client_join_is_valid " Alice " "17" "x9") as [_ Hlong].
  split; [apply Hshort; vm_compute; lia|].
  destruct Hlong as (userData & H1 & H2 & H3 & _ & H5 & _).
  { vm_compute. lia. }
  exists userData. split_and!; [done | by rewrite H2 | by rewrite H3 | done].
Defined.

End ClientSends.
